(** * stocksScraper: extraction pipeline, upsert store and query layer

    A shallow embedding of the scraper ([scraper.js]), the Mongoose model
    ([models/data_model.js]) and the stock routes ([routes/stock_route.js]),
    followed by the properties the specification states about them.

    Conventions of the embedding.
    - A JavaScript Number is an IEEE-754 binary64 value, written with the
      constructors of [spec_float] (zeros, infinities, NaN, finite values)
      and computed with the operations of [SpecFloat] at precision 53.
    - A JavaScript string is a [string].  The case mapping of
      [toUpperCase] and the white space of [trim] are the ASCII ones: a
      character outside ASCII is held as bytes above 127, which neither
      function touches.  A statement that depends on the case or on the
      white space of a text is stated for ASCII texts ([isAscii]).
    - [undefined] is [None].
    - A thrown exception or rejected promise is the [Throw] result.
    - The collection is the list of its documents in insertion order. *)

From Stdlib Require Import List String Ascii Bool Arith ZArith QArith Lia.
From Stdlib Require Import Permutation Sorted.
From Stdlib Require Import Floats.SpecFloat.
From Stdlib Require OrderedTypeEx.
Import ListNotations.

Local Open Scope string_scope.
Local Open Scope list_scope.
Local Open Scope Z_scope.

(* ================================================================= *)
(** ** JavaScript numbers *)

Definition number : Type := spec_float.

Definition prec : Z := 53.
Definition emax : Z := 1024.

Definition pos_zero : number := S754_zero false.
Definition NaN : number := S754_nan.
Definition Infinity : number := S754_infinity false.

Definition num_add : number -> number -> number := SFadd prec emax.
Definition num_sub : number -> number -> number := SFsub prec emax.
Definition num_mul : number -> number -> number := SFmul prec emax.
Definition num_div : number -> number -> number := SFdiv prec emax.

(** [x === y], [x < y], [x > y] and [x <= y] on numbers. *)
Definition num_eq (x y : number) : bool := SFeqb x y.
Definition num_lt (x y : number) : bool := SFltb x y.
Definition num_gt (x y : number) : bool := SFltb y x.
Definition num_le (x y : number) : bool := SFleb x y.

Definition is_nan (x : number) : bool :=
  match x with S754_nan => true | _ => false end.

Definition is_finite (x : number) : bool :=
  match x with
  | S754_zero _ | S754_finite _ _ _ => true
  | _ => false
  end.

(** Truthiness of a number: [NaN], [+0] and [-0] are falsy. *)
Definition num_truthy (x : number) : bool :=
  match x with
  | S754_nan | S754_zero _ => false
  | _ => true
  end.

(** The Number value of the decimal [m * 10^e10], [m >= 0], with sign [neg]:
    the exact quotient is rounded once, to nearest, ties to even. *)
Definition round_decimal (neg : bool) (m e10 : Z) : number :=
  match m with
  | Zpos p =>
      match e10 with
      | Zneg k => num_div (S754_finite neg p 0)
                          (S754_finite false (Pos.pow 10 k) 0)
      | Z0 => num_div (S754_finite neg p 0) (S754_finite false 1 0)
      | Zpos k => num_div (S754_finite neg (p * Pos.pow 10 k) 0)
                          (S754_finite false 1 0)
      end
  | _ => S754_zero neg
  end.

(** The Number value of an integer. *)
Definition num_of_Z (z : Z) : number :=
  match z with
  | Zneg p => round_decimal true (Zpos p) 0
  | _ => round_decimal false z 0
  end.

(** The exact value of a finite number, as a rational. *)
Definition num_to_Q (x : number) : option Q :=
  match x with
  | S754_zero _ => Some (0 # 1)
  | S754_finite s m e =>
      let v := match e with
               | Zneg k => Zpos m # Pos.pow 2 k
               | _ => (Zpos m * 2 ^ e) # 1
               end in
      Some (if s then Qopp v else v)
  | _ => None
  end.

(** The integer a number denotes, when it denotes one. *)
Definition num_to_Z (x : number) : option Z :=
  match x with
  | S754_zero _ => Some 0
  | S754_finite s m e =>
      match e with
      | Zneg k =>
          if Zpos m mod Zpos (Pos.pow 2 k) =? 0
          then Some (cond_Zopp s (Zpos m / Zpos (Pos.pow 2 k)))
          else None
      | _ => Some (cond_Zopp s (Zpos m * 2 ^ e))
      end
  | _ => None
  end.

(* ================================================================= *)
(** ** JavaScript strings *)

Definition code (c : ascii) : nat := nat_of_ascii c.

Definition isDigit (c : ascii) : bool :=
  (48 <=? code c)%nat && (code c <=? 57)%nat.
Definition isUpper (c : ascii) : bool :=
  (65 <=? code c)%nat && (code c <=? 90)%nat.
Definition isLower (c : ascii) : bool :=
  (97 <=? code c)%nat && (code c <=? 122)%nat.
Definition isAlnum (c : ascii) : bool := isUpper c || isLower c || isDigit c.

(** White space and line terminators. *)
Definition isSpace (c : ascii) : bool :=
  ((9 <=? code c)%nat && (code c <=? 13)%nat) || (code c =? 32)%nat.

Definition upperChar (c : ascii) : ascii :=
  if isLower c then ascii_of_nat (code c - 32) else c.

Fixpoint toUpperCase (s : string) : string :=
  match s with
  | EmptyString => EmptyString
  | String c r => String (upperChar c) (toUpperCase r)
  end.

Fixpoint filterStr (keep : ascii -> bool) (s : string) : string :=
  match s with
  | EmptyString => EmptyString
  | String c r => if keep c then String c (filterStr keep r)
                  else filterStr keep r
  end.

Fixpoint allStr (p : ascii -> bool) (s : string) : bool :=
  match s with
  | EmptyString => true
  | String c r => p c && allStr p r
  end.

Definition isEmpty (s : string) : bool :=
  match s with EmptyString => true | _ => false end.

Fixpoint trimStart (s : string) : string :=
  match s with
  | String c r => if isSpace c then trimStart r else s
  | EmptyString => EmptyString
  end.

Fixpoint trimEnd (s : string) : string :=
  match s with
  | EmptyString => EmptyString
  | String c r =>
      let r' := trimEnd r in
      if isSpace c && isEmpty r' then EmptyString else String c r'
  end.

Definition trim (s : string) : string := trimEnd (trimStart s).

(** [s.startsWith(p)], returning what follows the prefix. *)
Fixpoint stripPrefix (p s : string) : option string :=
  match p, s with
  | EmptyString, _ => Some s
  | String a p', String b s' =>
      if Ascii.eqb a b then stripPrefix p' s' else None
  | _, _ => None
  end.

(* ----------------------------------------------------------------- *)
(** *** Numeric literals: [parseFloat] and the string-to-number coercion *)

Definition digitVal (c : ascii) : Z := Z.of_nat (code c) - 48.

(** A run of decimal digits: its value, its length, and what follows. *)
Fixpoint takeDigits (s : string) (acc : Z) (len : Z) : Z * Z * string :=
  match s with
  | String c r =>
      if isDigit c then takeDigits r (10 * acc + digitVal c) (len + 1)
      else (acc, len, s)
  | EmptyString => (acc, len, s)
  end.

(** [ExponentPart]: [e] or [E], an optional sign, at least one digit.
    When the text does not continue with a well-formed exponent the
    literal ends before it. *)
Definition takeExponent (s : string) : Z * string :=
  match s with
  | String c r =>
      if Ascii.eqb c "e" || Ascii.eqb c "E" then
        let '(neg, r1) :=
          match r with
          | String sg r' =>
              if Ascii.eqb sg "-" then (true, r')
              else if Ascii.eqb sg "+" then (false, r')
              else (false, r)
          | EmptyString => (false, r)
          end in
        let '(v, n, rest) := takeDigits r1 0 0 in
        if n =? 0 then (0, s) else (if neg then - v else v, rest)
      else (0, s)
  | EmptyString => (0, s)
  end.

(** The longest prefix of [s] that is a [StrUnsignedDecimalLiteral], as
    the number it denotes with sign [neg], and the rest of [s]. *)
Definition takeUnsignedDecimal (neg : bool) (s : string)
  : option (number * string) :=
  match stripPrefix "Infinity" s with
  | Some rest => Some (S754_infinity neg, rest)
  | None =>
      let '(i, ni, r1) := takeDigits s 0 0 in
      let '(f, nf, r2) :=
        match r1 with
        | String c r' =>
            if Ascii.eqb c "." then
              let '(f, nf, r2) := takeDigits r' 0 0 in
              if (ni =? 0) && (nf =? 0) then (0, 0, r1) else (f, nf, r2)
            else (0, 0, r1)
        | EmptyString => (0, 0, r1)
        end in
      if (ni =? 0) && (nf =? 0) then None
      else
        let '(e, r3) := takeExponent r2 in
        Some (round_decimal neg (i * 10 ^ nf + f) (e - nf), r3)
  end.

(** The longest prefix that is a [StrDecimalLiteral]. *)
Definition takeDecimal (s : string) : option (number * string) :=
  match s with
  | String c r =>
      if Ascii.eqb c "-" then takeUnsignedDecimal true r
      else if Ascii.eqb c "+" then takeUnsignedDecimal false r
      else takeUnsignedDecimal false s
  | EmptyString => None
  end.

(** [parseFloat(s)]. *)
Definition parseFloat (s : string) : number :=
  match takeDecimal (trimStart s) with
  | Some (v, _) => v
  | None => NaN
  end.

Definition isHexDigit (c : ascii) : bool :=
  isDigit c || ((65 <=? code c)%nat && (code c <=? 70)%nat)
            || ((97 <=? code c)%nat && (code c <=? 102)%nat).

Definition hexVal (c : ascii) : Z :=
  if isDigit c then digitVal c
  else if isUpper c then Z.of_nat (code c) - 55
  else Z.of_nat (code c) - 87.

(** The digits of a [NonDecimalIntegerLiteral] in the given radix. *)
Fixpoint radixDigits (radix : Z) (s : string) (acc : Z) : option Z :=
  match s with
  | EmptyString => Some acc
  | String c r =>
      if isHexDigit c && (hexVal c <? radix)
      then radixDigits radix r (radix * acc + hexVal c)
      else None
  end.

Definition nonDecimalLiteral (s : string) : option number :=
  match s with
  | String z (String x (String d r)) =>
      if Ascii.eqb z "0" then
        let radix :=
          if Ascii.eqb x "x" || Ascii.eqb x "X" then Some 16
          else if Ascii.eqb x "o" || Ascii.eqb x "O" then Some 8
          else if Ascii.eqb x "b" || Ascii.eqb x "B" then Some 2
          else None in
        match radix with
        | Some b => option_map num_of_Z (radixDigits b (String d r) 0)
        | None => None
        end
      else None
  | _ => None
  end.

(** The coercion of a string to a number ([Number(s)], [s - 1], [s * t]). *)
Definition StringToNumber (s : string) : number :=
  let t := trim s in
  if isEmpty t then pos_zero
  else match nonDecimalLiteral t with
       | Some v => v
       | None =>
           match takeDecimal t with
           | Some (v, EmptyString) => v
           | _ => NaN
           end
       end.

(** A value of a query string parameter after destructuring with a numeric
    default: the default itself, or the string that was supplied. *)
Inductive jsval : Type :=
| VNum (n : number)
| VStr (s : string).

Definition ToNumber (v : jsval) : number :=
  match v with
  | VNum n => n
  | VStr s => StringToNumber s
  end.

(* ================================================================= *)
(** ** Results of operations that can throw *)

(** An exception, with its [message]. *)
Record Error : Type := mkError { message : string }.

Inductive result (A : Type) : Type :=
| Ok (a : A)
| Throw (e : Error).
Arguments Ok {A} a.
Arguments Throw {A} e.

(* ================================================================= *)
(** ** Record normalizer (the helpers of the [evaluate] callback) *)

(** [(str || '').replace(/[^A-Z0-9]/gi, '').toUpperCase()] *)
Definition cleanSymbol (str : option string) : string :=
  toUpperCase
    (filterStr isAlnum (match str with Some s => s | None => "" end)).

(** [(str || '').trim()] *)
Definition cleanText (str : option string) : string :=
  trim (match str with Some s => s | None => "" end).

(** The characters [/[^\d.-]/g] keeps. *)
Definition isNumeric (c : ascii) : bool :=
  isDigit c || Ascii.eqb c "." || Ascii.eqb c "-".

(** [parseNumber]: the guard, the cleaning, [parseFloat(cleaned) || 0]. *)
Definition parseNumber (str : option string) : number :=
  match str with
  | None => pos_zero
  | Some s =>
      if isEmpty s || String.eqb s "-" || String.eqb s "N/A" then pos_zero
      else
        let cleaned := filterStr isNumeric s in
        let v := parseFloat cleaned in
        if num_truthy v then v else pos_zero
  end.

(** A number as [parseNumber] returns it: positive zero or a truthy value,
    so neither [NaN] nor negative zero. *)
Definition parsed (x : number) : Prop := x = pos_zero \/ num_truthy x = true.

(* ================================================================= *)
(** ** Table extractor *)

(** A table row is the list of the [innerText] of its [td] cells; a header
    row, made of [th] cells, is the empty list. *)
Definition Row : Type := list string.

(** The objects the extraction pushes on [stocks]. *)
Module Raw.
Record t : Type := mk {
  symbol : string;
  securityName : string;
  open : number;
  high : number;
  low : number;
  close : number;
  change : number;
  dailyVolume : number;
  dailyValue : number
}.
End Raw.

(** [cells[i].innerText] for a cell that exists, [undefined] otherwise. *)
Definition innerText (cells : Row) (i : nat) : option string :=
  nth_error cells i.

(** [cells[8]?.innerText || '0'] *)
Definition orZero (s : option string) : string :=
  match s with
  | Some t => if isEmpty t then "0" else t
  | None => "0"
  end.

(** The body of [rows.forEach]: a row of at least 8 cells pushes one
    object, any other row pushes nothing. *)
Definition rowToStock (cells : Row) : option Raw.t :=
  if (8 <=? List.length cells)%nat then
    Some (Raw.mk (cleanSymbol (innerText cells 0))
                 (cleanText (innerText cells 1))
                 (parseNumber (innerText cells 2))
                 (parseNumber (innerText cells 3))
                 (parseNumber (innerText cells 4))
                 (parseNumber (innerText cells 5))
                 (parseNumber (innerText cells 6))
                 (parseNumber (innerText cells 7))
                 (parseNumber (Some (orZero (innerText cells 8)))))
  else None.

Fixpoint mapRows (rows : list Row) : list Raw.t :=
  match rows with
  | [] => []
  | cells :: rest =>
      match rowToStock cells with
      | Some s => s :: mapRows rest
      | None => mapRows rest
      end
  end.

(** [s.symbol && s.close > 0] *)
Definition validStock (s : Raw.t) : bool :=
  negb (isEmpty (Raw.symbol s)) && num_gt (Raw.close s) pos_zero.

(** The [evaluate] callback: every row is mapped, then the result is
    filtered. *)
Definition extractStocks (rows : list Row) : list Raw.t :=
  filter validStock (mapRows rows).

(* ================================================================= *)
(** ** The Stock model ([stockSchema]) and its collection *)

(** A document of the collection: the schema's paths and the [_id] the
    database assigns.  The bookkeeping paths [createdAt] and [updatedAt] of
    [timestamps: true], which every update rewrites, take no part in any
    operation below and are left out: what is said of a document is said
    of its [_id] and of its schema paths ([schemaPaths]). *)
Record Stock : Type := mkStock {
  _id : nat;
  symbol : string;
  securityName : string;
  open : number;
  high : number;
  low : number;
  close : number;
  change : number;
  dailyVolume : number;
  dailyValue : number;
  scrapedAt : Z            (* a Date, in milliseconds since the epoch *)
}.

Definition Store : Type := list Stock.

(** The setters the schema declares.  Mongoose runs them on the values of
    an update and on the values of a query filter alike.
    [symbol]: [uppercase: true, trim: true]; [securityName]: [trim: true]. *)
Definition setSymbol (s : string) : string := toUpperCase (trim s).
Definition setSecurityName (s : string) : string := trim s.

(** [{ ...stock, scrapedAt: new Date() }] *)
Record StockInfo : Type := mkInfo {
  info_stock : Raw.t;
  info_scrapedAt : Z
}.

(** The filter [{ symbol: s }], after casting. *)
Definition matchesSymbol (s : string) (d : Stock) : bool :=
  String.eqb (symbol d) (setSymbol s).

(** [Stock.findOne({ symbol: s })]: the first document that matches. *)
Definition findOne (s : string) (db : Store) : option Stock :=
  find (matchesSymbol s) db.

(** The update document, cast and applied as [$set] to [d]: every path of
    [stockInfo] is overwritten, [_id] stays. *)
Definition applyUpdate (stockInfo : StockInfo) (d : Stock) : Stock :=
  let s := info_stock stockInfo in
  mkStock (_id d)
          (setSymbol (Raw.symbol s))
          (setSecurityName (Raw.securityName s))
          (Raw.open s) (Raw.high s) (Raw.low s) (Raw.close s)
          (Raw.change s) (Raw.dailyVolume s) (Raw.dailyValue s)
          (info_scrapedAt stockInfo).

(** An identifier no document of the collection carries. *)
Definition freshId (db : Store) : nat := S (list_max (map _id db)).

(** A document with the identifier [id] and nothing else yet. *)
Definition blankStock (id : nat) : Stock :=
  mkStock id "" "" pos_zero pos_zero pos_zero pos_zero pos_zero pos_zero
          pos_zero 0.

(** The document an upsert inserts: the update applied to a new document.
    The update sets every path, [scrapedAt] included, so that the default
    of the schema ([Date.now]) is not called upon. *)
Definition newStock (stockInfo : StockInfo) (db : Store) : Stock :=
  applyUpdate stockInfo (blankStock (freshId db)).

(** Update in place the first document matching the filter. *)
Fixpoint updateFirst (stockInfo : StockInfo) (db : Store)
  : option (Store * Stock) :=
  match db with
  | [] => None
  | d :: rest =>
      if matchesSymbol (Raw.symbol (info_stock stockInfo)) d then
        let d' := applyUpdate stockInfo d in Some (d' :: rest, d')
      else
        match updateFirst stockInfo rest with
        | Some (rest', d') => Some (d :: rest', d')
        | None => None
        end
  end.

(** [Stock.findOneAndUpdate({ symbol: stockInfo.symbol }, stockInfo,
      { upsert: true, new: true, setDefaultsOnInsert: true })]:
    the collection afterwards and the document returned. *)
Definition findOneAndUpdate (stockInfo : StockInfo) (db : Store)
  : Store * Stock :=
  match updateFirst stockInfo db with
  | Some r => r
  | None => let d := newStock stockInfo db in (db ++ [d], d)
  end.

(** The number of documents that carry the symbol [s]. *)
Definition countSymbol (s : string) (db : Store) : nat :=
  List.length (filter (fun d => String.eqb (symbol d) s) db).

(** The symbol under which the record [stockInfo] is looked up and stored. *)
Definition keyOf (stockInfo : StockInfo) : string :=
  setSymbol (Raw.symbol (info_stock stockInfo)).

(** The outcome of the awaited database call number [i] of a batch:
    [None] when it resolves, [Some e] when it rejects with [e] (and then
    leaves the collection as it was). *)
Definition Rejections : Type := nat -> option Error.

Definition noRejection : Rejections := fun _ => None.

(** The [for ... of] loop of [saveToMongoDB]: nothing catches a rejection,
    so the first one leaves the loop and the function. *)
Fixpoint saveLoop (rej : Rejections) (i : nat) (stockData : list StockInfo)
  (db : Store) (savedStocks : list Stock) : Store * result (list Stock) :=
  match stockData with
  | [] => (db, Ok savedStocks)
  | stockInfo :: rest =>
      match rej i with
      | Some e => (db, Throw e)
      | None =>
          let '(db', stock) := findOneAndUpdate stockInfo db in
          saveLoop rej (S i) rest db' (savedStocks ++ [stock])
      end
  end.

Definition saveToMongoDB (rej : Rejections) (stockData : list StockInfo)
  (db : Store) : Store * result (list Stock) :=
  match stockData with
  | [] => (db, Ok [])
  | _ => saveLoop rej 0 stockData db []
  end.

(** [stockData.map((stock) => ({ ...stock, scrapedAt: new Date() }))]
    where [clock i] is the time read for the element of index [i]. *)
Fixpoint addMetadata (clock : nat -> Z) (i : nat) (stockData : list Raw.t)
  : list StockInfo :=
  match stockData with
  | [] => []
  | s :: rest => mkInfo s (clock i) :: addMetadata clock (S i) rest
  end.

(** One run of [scrapeStockData].  [page] is what the browser delivers:
    a failure of launch or navigation, or the [table tr] rows of the
    target frame.  Every exception ends in the [catch], which returns the
    empty list. *)
Definition scrapeStockData (page : result (list Row)) (clock : nat -> Z)
  (rej : Rejections) (db : Store) : Store * list Stock :=
  match page with
  | Throw _ => (db, [])
  | Ok rows =>
      if (List.length rows <=? 5)%nat then (db, [])   (* the wait times out *)
      else
        let stockData := extractStocks rows in
        let processedStocks := addMetadata clock 0 stockData in
        match saveToMongoDB rej processedStocks db with
        | (db', Ok savedStocks) => (db', savedStocks)
        | (db', Throw _) => (db', [])
        end
  end.

(** The collections the batch save can build, and those whole scrape
    cycles can build, from the empty collection. *)
Inductive written : Store -> Prop :=
| written_empty : written []
| written_save rej stockData db :
    written db -> written (fst (saveToMongoDB rej stockData db)).

Inductive scraped : Store -> Prop :=
| scraped_empty : scraped []
| scraped_cycle page clock rej db :
    scraped db -> scraped (fst (scrapeStockData page clock rej db)).

(** The virtual [changePercent]. *)
Definition changePercent (this : Stock) : number :=
  if num_eq (change this) pos_zero || num_eq (close this) pos_zero
  then pos_zero
  else
    let previousClose := num_sub (close this) (change this) in
    if num_eq previousClose pos_zero then pos_zero
    else num_mul (num_div (change this) previousClose) (num_of_Z 100).

(* ================================================================= *)
(** ** Query and aggregation layer *)

(** The order the database puts on numbers: the numeric order, with [NaN]
    below every number and equal to itself. *)
Definition bson_compare (x y : number) : comparison :=
  match SFcompare x y with
  | Some c => c
  | None => if is_nan x then (if is_nan y then Eq else Lt) else Gt
  end.

(** [$sort] and [.sort()]: a stable insertion sort under the order [leb].
    The database promises no order among documents that compare equal;
    here they keep the order of the input. *)
Fixpoint insertBy (leb : Stock -> Stock -> bool) (x : Stock)
  (l : list Stock) : list Stock :=
  match l with
  | [] => [x]
  | y :: r => if leb x y then x :: l else y :: insertBy leb x r
  end.

Definition sortBy (leb : Stock -> Stock -> bool) (l : list Stock)
  : list Stock :=
  fold_right (insertBy leb) [] l.

(** [{ symbol: 1, scrapedAt: -1 }] *)
Definition bySymbolThenLatest (a b : Stock) : bool :=
  match String.compare (symbol a) (symbol b) with
  | Lt => true
  | Gt => false
  | Eq => scrapedAt b <=? scrapedAt a
  end.

(** [{ symbol: 1 }] *)
Definition bySymbol (a b : Stock) : bool :=
  String.leb (symbol a) (symbol b).

(** [{ scrapedAt: -1 }] *)
Definition byLatest (a b : Stock) : bool := scrapedAt b <=? scrapedAt a.

(** [$group] on [_id: '$symbol'] with [$first: '$$ROOT'], followed by
    [$replaceRoot]: the first document of each symbol.  The database
    promises no order among the groups; here they come in the order in
    which the symbols first occur. *)
Fixpoint groupFirst (seen : list string) (l : list Stock) : list Stock :=
  match l with
  | [] => []
  | d :: r =>
      if existsb (String.eqb (symbol d)) seen then groupFirst seen r
      else d :: groupFirst (symbol d :: seen) r
  end.

(** [$limit]: the stage rejects a limit that is not positive. *)
Definition limitStage (limit : Z) (l : list Stock) : result (list Stock) :=
  if 0 <? limit then Ok (firstn (Z.to_nat limit) l)
  else Throw (mkError "the limit must be positive").

(** [stockSchema.statics.findLatest] *)
Definition findLatest (limit : Z) (db : Store) : result (list Stock) :=
  let sorted := sortBy bySymbolThenLatest db in
  let latest := groupFirst [] sorted in
  match limitStage limit latest with
  | Ok limited => Ok (sortBy bySymbol limited)
  | Throw e => Throw e
  end.

(** The document [$group] with [_id: null] produces.  The three counters
    are integers; the totals and the average are doubles. *)
Record Summary : Type := mkSummary {
  totalStocks : Z;
  totalVolume : number;
  totalValue : number;
  avgPrice : number;
  gainers : Z;
  losers : Z;
  unchanged : Z
}.

(** [$sum] of an integer expression. *)
Definition sumInt (f : Stock -> Z) (l : list Stock) : Z :=
  fold_left (fun acc d => acc + f d) l 0.

(** [$sum] of a double path, accumulated in pipeline order.  No property
    below depends on how the totals are rounded. *)
Definition sumNum (f : Stock -> number) (l : list Stock) : number :=
  fold_left (fun acc d => num_add acc (f d)) l pos_zero.

(** [$cond: [c, 1, 0]] *)
Definition cond10 (c : bool) : Z := if c then 1 else 0.

Definition isGainer (d : Stock) : bool :=
  match bson_compare (change d) pos_zero with Gt => true | _ => false end.
Definition isLoser (d : Stock) : bool :=
  match bson_compare (change d) pos_zero with Lt => true | _ => false end.
Definition isUnchanged (d : Stock) : bool :=
  match bson_compare (change d) pos_zero with Eq => true | _ => false end.

(** The documents the summary is computed over:
    [$sort: { scrapedAt: -1 }] then [$limit: 200]. *)
Definition recentWindow (db : Store) : list Stock :=
  firstn 200 (sortBy byLatest db).

(** [stockSchema.statics.getMarketSummary]: the array the aggregation
    resolves to; [$group] emits nothing when no document reaches it. *)
Definition getMarketSummary (db : Store) : list Summary :=
  match recentWindow db with
  | [] => []
  | w =>
      [ mkSummary (sumInt (fun _ => 1) w)
                  (sumNum dailyVolume w)
                  (sumNum dailyValue w)
                  (num_div (sumNum close w) (num_of_Z (sumInt (fun _ => 1) w)))
                  (sumInt (fun d => cond10 (isGainer d)) w)
                  (sumInt (fun d => cond10 (isLoser d)) w)
                  (sumInt (fun d => cond10 (isUnchanged d)) w) ]
  end.

(** What a route handler sends: [res.json(...)] with status 200, or an
    error envelope with its status. *)
Inductive Response (A : Type) : Type :=
| Success (data : A)
| Failure (status : nat) (error : string).
Arguments Success {A} data.
Arguments Failure {A} status error.

Definition zeroSummary : Summary :=
  mkSummary 0 pos_zero pos_zero pos_zero 0 0 0.

(** [GET /summary]: [summary[0] || { totalStocks: 0, ... }] *)
Definition getSummary (db : Store) : Response Summary :=
  match getMarketSummary db with
  | s :: _ => Success s
  | [] => Success zeroSummary
  end.

(** [GET /:symbol] *)
Definition getBySymbol (param : string) (db : Store) : Response Stock :=
  match findOne (toUpperCase param) db with
  | None => Failure 404 "Stock not found"
  | Some stock => Success stock
  end.

(* ----------------------------------------------------------------- *)
(** *** The filtered listing ([GET /]) *)

(** [req.query]: every parameter is a string when present. *)
Module Query.
Record t : Type := mk {
  page : option string;
  limit : option string;
  symbol : option string;
  securityName : option string;
  sortBy : option string;
  sortOrder : option string;
  minClose : option string;
  maxClose : option string;
  startDate : option string;
  endDate : option string
}.
End Query.

(** What the handler takes from its platform.
    - [RegExp_i src] is [new RegExp(src, 'i')] as the test it performs on a
      string, or [None] when the constructor throws a [SyntaxError].
    - [Date_parse s] is the time value of [new Date(s)], or [None] for an
      invalid date, which the query casting then rejects.
    - [cursor n k l] is what [.limit(n).skip(k)] delivers of the sorted
      matching documents [l]. *)
Record Runtime : Type := mkRuntime {
  RegExp_i : string -> option (string -> bool);
  Date_parse : string -> option Z;
  cursor : number -> number -> list Stock -> result (list Stock)
}.

(** The documented behaviour of the cursor: a whole limit [n >= 1] and a
    whole skip [k >= 0] deliver the [n] documents after the first [k]. *)
Definition cursor_regular
  (c : number -> number -> list Stock -> result (list Stock)) : Prop :=
  forall x y n k l,
    num_to_Z x = Some n -> num_to_Z y = Some k -> 0 < n -> 0 <= k ->
    c x y l = Ok (firstn (Z.to_nat n) (skipn (Z.to_nat k) l)).

(** A cursor that rejects every other pair of arguments. *)
Definition strictCursor (x y : number) (l : list Stock)
  : result (list Stock) :=
  match num_to_Z x, num_to_Z y with
  | Some n, Some k =>
      if (0 <? n) && (0 <=? k)
      then Ok (firstn (Z.to_nat n) (skipn (Z.to_nat k) l))
      else Throw (mkError "bad limit or skip")
  | _, _ => Throw (mkError "bad limit or skip")
  end.

(** A string parameter is used when it is truthy: present and not empty. *)
Definition truthy (p : option string) : option string :=
  match p with
  | Some s => if isEmpty s then None else Some s
  | None => None
  end.

(** The [query] object the handler builds. *)
Record Filter : Type := mkFilter {
  f_symbol : option (string -> bool);
  f_securityName : option (string -> bool);
  f_close_gte : option number;
  f_close_lte : option number;
  f_scrapedAt_gte : option Z;
  f_scrapedAt_lte : option Z
}.

(** An optional part of the query: absent, built, or failing. *)
Definition part {A B : Type} (p : option string) (build : string -> option B)
  (err : Error) (k : option B -> result A) : result A :=
  match truthy p with
  | None => k None
  | Some s =>
      match build s with
      | Some b => k (Some b)
      | None => Throw err
      end
  end.

(** A close bound: [parseFloat] of the parameter; [NaN] does not cast. *)
Definition closeBound (s : string) : option number :=
  let v := parseFloat s in if is_nan v then None else Some v.

Definition buildQuery (rt : Runtime) (q : Query.t) : result Filter :=
  part (Query.symbol q) (RegExp_i rt)
       (mkError "Invalid regular expression") (fun fs =>
  part (Query.securityName q) (RegExp_i rt)
       (mkError "Invalid regular expression") (fun fn =>
  part (Query.minClose q) closeBound
       (mkError "Cast to Number failed") (fun lo =>
  part (Query.maxClose q) closeBound
       (mkError "Cast to Number failed") (fun hi =>
  part (Query.startDate q) (Date_parse rt)
       (mkError "Cast to date failed") (fun from =>
  part (Query.endDate q) (Date_parse rt)
       (mkError "Cast to date failed") (fun to =>
  Ok (mkFilter fs fn lo hi from to))))))).

Definition holds {A : Type} (c : option A) (p : A -> bool) : bool :=
  match c with
  | Some a => p a
  | None => true
  end.

(** Whether a document satisfies the query. *)
Definition matchesFilter (f : Filter) (d : Stock) : bool :=
  holds (f_symbol f) (fun re => re (symbol d))
  && holds (f_securityName f) (fun re => re (securityName d))
  && holds (f_close_gte f)
       (fun lo => match bson_compare (close d) lo with Lt => false | _ => true end)
  && holds (f_close_lte f)
       (fun hi => match bson_compare (close d) hi with Gt => false | _ => true end)
  && holds (f_scrapedAt_gte f) (fun t => t <=? scrapedAt d)
  && holds (f_scrapedAt_lte f) (fun t => scrapedAt d <=? t).

Definition validSortFields : list string :=
  ["symbol"; "securityName"; "open"; "high"; "low"; "close"; "change";
   "dailyVolume"; "dailyValue"; "scrapedAt"].

Definition includes (l : list string) (s : string) : bool :=
  existsb (String.eqb s) l.

Definition withDefault (p : option string) (d : string) : string :=
  match p with
  | Some s => s
  | None => d
  end.

(** [validSortFields.includes(sortBy) ? sortBy : 'symbol'] *)
Definition sortField (q : Query.t) : string :=
  let sortBy := withDefault (Query.sortBy q) "symbol" in
  if includes validSortFields sortBy then sortBy else "symbol".

(** [sortOrder === 'desc' ? -1 : 1] *)
Definition sortDirection (q : Query.t) : Z :=
  if String.eqb (withDefault (Query.sortOrder q) "asc") "desc" then -1 else 1.

(** The comparison of two documents on a path of the schema. *)
Definition compareField (field : string) (a b : Stock) : comparison :=
  if String.eqb field "symbol" then String.compare (symbol a) (symbol b)
  else if String.eqb field "securityName"
       then String.compare (securityName a) (securityName b)
  else if String.eqb field "open" then bson_compare (open a) (open b)
  else if String.eqb field "high" then bson_compare (high a) (high b)
  else if String.eqb field "low" then bson_compare (low a) (low b)
  else if String.eqb field "close" then bson_compare (close a) (close b)
  else if String.eqb field "change" then bson_compare (change a) (change b)
  else if String.eqb field "dailyVolume"
       then bson_compare (dailyVolume a) (dailyVolume b)
  else if String.eqb field "dailyValue"
       then bson_compare (dailyValue a) (dailyValue b)
  else if String.eqb field "scrapedAt" then Z.compare (scrapedAt a) (scrapedAt b)
  else Eq.

(** [{ [field]: direction }] as an order. *)
Definition sortOptions (field : string) (direction : Z) (a b : Stock) : bool :=
  match compareField field a b with
  | Eq => true
  | Lt => 0 <? direction
  | Gt => direction <? 0
  end.

(** [Math.ceil] *)
Definition num_ceil (x : number) : number :=
  match x with
  | S754_finite s m (Zneg k) =>
      let q := Zpos m / Zpos (Pos.pow 2 k) in
      let r := Zpos m mod Zpos (Pos.pow 2 k) in
      if s then match q with
                | Z0 => S754_zero true
                | _ => round_decimal true q 0
                end
      else round_decimal false (if r =? 0 then q else q + 1) 0
  | _ => x
  end.

Record Pagination : Type := mkPagination {
  pg_page : number;
  pg_limit : number;
  total : Z;
  pages : number
}.

Record Listing : Type := mkListing {
  data : list Stock;
  pagination : Pagination
}.

Definition pageValue (q : Query.t) : jsval :=
  match Query.page q with
  | Some s => VStr s
  | None => VNum (num_of_Z 1)
  end.

Definition limitValue (q : Query.t) : jsval :=
  match Query.limit q with
  | Some s => VStr s
  | None => VNum (num_of_Z 50)
  end.

(** [(page - 1) * limit] *)
Definition skipOf (q : Query.t) : number :=
  num_mul (num_sub (ToNumber (pageValue q)) (num_of_Z 1))
          (ToNumber (limitValue q)).

(** The documents that satisfy the query, in the requested order. *)
Definition sortedMatches (f : Filter) (q : Query.t) (db : Store)
  : list Stock :=
  sortBy (sortOptions (sortField q) (sortDirection q))
         (filter (matchesFilter f) db).

(** [Stock.countDocuments(query)] *)
Definition countDocuments (f : Filter) (db : Store) : Z :=
  Z.of_nat (List.length (filter (matchesFilter f) db)).

(** The handler of [GET /]. *)
Definition listStocks (rt : Runtime) (q : Query.t) (db : Store)
  : Response Listing :=
  match buildQuery rt q with
  | Throw e => Failure 500 (message e)
  | Ok query =>
      let limit := ToNumber (limitValue q) in
      let skip := skipOf q in
      match cursor rt limit skip (sortedMatches query q db) with
      | Throw e => Failure 500 (message e)
      | Ok stocks =>
          let total := countDocuments query db in
          Success (mkListing stocks
                     (mkPagination (ToNumber (pageValue q)) limit total
                        (num_ceil (num_div (num_of_Z total) limit))))
      end
  end.

(** Two requests that differ at most in [page], [limit] and the sort. *)
Definition sameFilters (q q' : Query.t) : Prop :=
  Query.symbol q = Query.symbol q' /\
  Query.securityName q = Query.securityName q' /\
  Query.minClose q = Query.minClose q' /\
  Query.maxClose q = Query.maxClose q' /\
  Query.startDate q = Query.startDate q' /\
  Query.endDate q = Query.endDate q'.

(* ================================================================= *)
(** ** Sample data *)

(** [n] copies of the digit 9. *)
Fixpoint nines (n : nat) : string :=
  match n with
  | O => EmptyString
  | S k => String "9" (nines k)
  end.

(** A record with the given symbol, close, change and time of scrape. *)
Definition sampleInfo (sym : string) (close change : Z) (time : Z)
  : StockInfo :=
  mkInfo (Raw.mk sym sym (num_of_Z close) (num_of_Z close) (num_of_Z close)
            (num_of_Z close) (num_of_Z change) (num_of_Z 1000)
            (num_of_Z 5000))
         time.

(** The database rejects the call number [k] with [e] and no other. *)
Definition rejectAt (k : nat) (e : Error) : Rejections :=
  fun i => if (i =? k)%nat then Some e else None.

Definition sampleBatch : list StockInfo :=
  [sampleInfo "AAA" 10 1 1000; sampleInfo "BBB" 20 (-1) 1001;
   sampleInfo "CCC" 30 0 1002].

(** The collection after saving [sampleBatch]: changes +1, -1 and 0. *)
Definition sampleStore : Store :=
  fst (saveToMongoDB noRejection sampleBatch []).

(** [s.includes(p)] *)
Fixpoint contains (p s : string) : bool :=
  match stripPrefix p s with
  | Some _ => true
  | None =>
      match s with
      | EmptyString => false
      | String _ r => contains p r
      end
  end.

(** A sample platform: the patterns it accepts are the alphanumeric
    texts, which match the strings that contain them up to case; it reads
    no date; its cursor is the strict one. *)
Definition sampleRuntime : Runtime :=
  mkRuntime
    (fun src => if allStr isAlnum src
                then Some (fun s => contains (toUpperCase src) (toUpperCase s))
                else None)
    (fun _ => None)
    strictCursor.

Definition noQuery : Query.t :=
  Query.mk None None None None None None None None None None.

(** [?sortBy=price&sortOrder=desc] *)
Definition unknownSortDesc : Query.t :=
  Query.mk None None None None (Some "price") (Some "desc")
           None None None None.

(** [?page=2&limit=1&sortBy=close&sortOrder=desc] *)
Definition secondPage : Query.t :=
  Query.mk (Some "2") (Some "1") None None (Some "close") (Some "desc")
           None None None None.

(** A page as the target site renders it: a header row, five quotes, one
    of them unchanged, and a row cut short. *)
Definition sampleRows : list Row :=
  [ [];
    ["zenith"; " Zenith Bank "; "45.00"; "46.00"; "44.50"; "45.50"; "0.50";
       "1,234,500"; "56,000,000.00"];
    ["MTNN"; "MTN Nigeria"; "200"; "201"; "199"; "200"; "-"; "10,000"];
    ["dangcem"; "Dangote Cement"; "300"; "300"];
    ["GTCO"; "Guaranty Trust"; "40"; "41"; "39"; "39.5"; "-0.5"; "900,000";
       "35,550,000"];
    ["UBA"; "United Bank"; "20"; "20"; "20"; "N/A"; "0"; "0"; "0"];
    ["FBNH"; "FBN Holdings"; "15"; "16"; "15"; "15.75"; "0.75"; "2,000"] ].

Definition sampleClock (i : nat) : Z := 1700000000000 + Z.of_nat i.

(** The collection after one scrape of [sampleRows]. *)
Definition scrapedStore : Store :=
  fst (scrapeStockData (Ok sampleRows) sampleClock noRejection []).

(** Its first document. *)
Definition zenith : Stock :=
  mkStock 1 "ZENITH" "Zenith Bank"
          (parseNumber (Some "45.00")) (parseNumber (Some "46.00"))
          (parseNumber (Some "44.50")) (parseNumber (Some "45.50"))
          (parseNumber (Some "0.50")) (parseNumber (Some "1,234,500"))
          (parseNumber (Some "56,000,000.00"))
          1700000000000.


(* ================================================================= *)
(** ** The rendering context ([scrapeStockData], before the extraction) *)

Definition targetUrl : string :=
  "https://www.stanbicibtcstockbrokers.com/nigeriastockbroking/stockbroking/market-news/equities-price-listing".

(** A frame of the page: its URL and the [table tr] rows it shows. *)
Record Frame : Type := mkFrame {
  frameUrl : string;
  frameRows : list Row
}.

(** The context the rows are read from. *)
Inductive Target : Type :=
| ThePage
| TheFrame (candidate : Frame).

(** [targetFrame]: the page, unless there are several frames and one of
    them has the marker in its URL; then the first such frame. *)
Definition selectFrame (frames : list Frame) : Target :=
  if (1 <? List.length frames)%nat then
    match find (fun frame => contains "equities-price-listing" (frameUrl frame))
               frames with
    | Some candidate => TheFrame candidate
    | None => ThePage
    end
  else ThePage.

(* ================================================================= *)
(** ** The other routes of the stock router *)

(** The envelope [{ success: true, data, count: data.length }]. *)
Module Counted.
Record t (A : Type) : Type := mk {
  data : list A;
  count : nat
}.
Arguments mk {A} data count.
Arguments data {A} t.
Arguments count {A} t.
End Counted.

Definition counted {A : Type} (l : list A) : Counted.t A :=
  Counted.mk l (List.length l).

(** A [limit] parameter with its numeric default. *)
Definition limitOr (p : option string) (default : Z) : jsval :=
  match p with
  | Some s => VStr s
  | None => VNum (num_of_Z default)
  end.

(** [{ dailyVolume: { $gt: 0 } }] *)
Definition isActive (d : Stock) : bool :=
  match bson_compare (dailyVolume d) pos_zero with
  | Gt => true
  | _ => false
  end.

(** [{ dailyVolume: -1 }] *)
Definition byVolumeDesc (a b : Stock) : bool :=
  sortOptions "dailyVolume" (-1) a b.

(** [GET /active]; a cursor without [skip] skips nothing. *)
Definition getActive (rt : Runtime) (limit : option string) (db : Store)
  : Response (Counted.t Stock) :=
  match cursor rt (ToNumber (limitOr limit 10)) pos_zero
               (sortBy byVolumeDesc (filter isActive db)) with
  | Ok activeStocks => Success (counted activeStocks)
  | Throw e => Failure 500 (message e)
  end.

(** What [.select('open high low close change dailyVolume dailyValue
    scrapedAt')] keeps of a document; [_id] stays unless excluded. *)
Module Point.
Record t : Type := mk {
  _id : nat;
  open : number;
  high : number;
  low : number;
  close : number;
  change : number;
  dailyVolume : number;
  dailyValue : number;
  scrapedAt : Z
}.
End Point.

Definition selectQuote (d : Stock) : Point.t :=
  Point.mk (_id d) (open d) (high d) (low d) (close d) (change d)
           (dailyVolume d) (dailyValue d) (scrapedAt d).

(** The bounds on [scrapedAt] of [GET /:symbol/history]. *)
Definition historyRange (rt : Runtime) (startDate endDate : option string)
  : result (option Z * option Z) :=
  part startDate (Date_parse rt) (mkError "Cast to date failed") (fun from =>
  part endDate (Date_parse rt) (mkError "Cast to date failed") (fun to =>
  Ok (from, to))).

(** The query of the history: the symbol, upper-cased by the route and
    cast by the schema, and the bounds. *)
Definition inHistory (param : string) (range : option Z * option Z)
  (d : Stock) : bool :=
  matchesSymbol (toUpperCase param) d
  && holds (fst range) (fun t => t <=? scrapedAt d)
  && holds (snd range) (fun t => scrapedAt d <=? t).

(** [GET /:symbol/history] *)
Definition getHistory (rt : Runtime) (param : string)
  (startDate endDate limit : option string) (db : Store)
  : Response (Counted.t Point.t) :=
  match historyRange rt startDate endDate with
  | Throw e => Failure 500 (message e)
  | Ok range =>
      match cursor rt (ToNumber (limitOr limit 100)) pos_zero
                   (sortBy byLatest (filter (inHistory param range) db)) with
      | Ok history => Success (counted (map selectQuote history))
      | Throw e => Failure 500 (message e)
      end
  end.

(** [{ $or: [{ symbol: re }, { securityName: re }] }] *)
Definition matchesSearch (re : string -> bool) (d : Stock) : bool :=
  re (symbol d) || re (securityName d).

(** [GET /search/:query] *)
Definition getSearch (rt : Runtime) (query : string) (limit : option string)
  (db : Store) : Response (Counted.t Stock) :=
  match RegExp_i rt query with
  | None => Failure 500 "Invalid regular expression"
  | Some re =>
      match cursor rt (ToNumber (limitOr limit 20)) pos_zero
                   (sortBy bySymbol (filter (matchesSearch re) db)) with
      | Ok stocks => Success (counted stocks)
      | Throw e => Failure 500 (message e)
      end
  end.

(* ----------------------------------------------------------------- *)
(** *** The route table *)

(** A character of the ASCII range. *)
Definition isAscii (c : ascii) : bool := (code c <? 128)%nat.

(** A segment of a request path: not empty, made of visible ASCII
    characters other than the delimiters of the path. *)
Definition isSegmentChar (c : ascii) : bool :=
  (33 <=? code c)%nat && (code c <=? 126)%nat
  && negb (Ascii.eqb c "/") && negb (Ascii.eqb c "?") && negb (Ascii.eqb c "#").

Definition isSegment (s : string) : bool :=
  negb (isEmpty s) && allStr isSegmentChar s.

(** The value of a hexadecimal digit. *)
Definition hexOctetDigit (c : ascii) : option nat :=
  if isDigit c then Some (code c - 48)%nat
  else if (65 <=? code c)%nat && (code c <=? 70)%nat then Some (code c - 55)%nat
  else if (97 <=? code c)%nat && (code c <=? 102)%nat then Some (code c - 87)%nat
  else None.

(** The units of an encoded text: a character that stands for itself, or
    the octet of an escape [%XX]. *)
Inductive Unit : Type :=
| Lit (c : ascii)
| Esc (octet : nat).

(** The text cut into its units; [None] when a [%] is not followed by two
    hexadecimal digits. *)
Fixpoint units (s : string) : option (list Unit) :=
  match s with
  | EmptyString => Some []
  | String c r =>
      if Ascii.eqb c "%" then
        match r with
        | String h (String l r') =>
            match hexOctetDigit h, hexOctetDigit l, units r' with
            | Some x, Some y, Some us => Some (Esc (16 * x + y)%nat :: us)
            | _, _, _ => None
            end
        | _ => None
        end
      else
        match units r with
        | Some us => Some (Lit c :: us)
        | None => None
        end
  end.

Definition between (lo hi b : nat) : bool := (lo <=? b)%nat && (b <=? hi)%nat.

(** A continuation octet of UTF-8. *)
Definition continuation (b : nat) : bool := between 128 191 b.

(** The second octet of a sequence of three, and of four: the ranges that
    exclude the overlong forms, the surrogates and what lies beyond
    U+10FFFF. *)
Definition second3 (b b2 : nat) : bool :=
  if (b =? 224)%nat then between 160 191 b2
  else if (b =? 237)%nat then between 128 159 b2
  else continuation b2.

Definition second4 (b b2 : nat) : bool :=
  if (b =? 240)%nat then between 144 191 b2
  else if (b =? 244)%nat then between 128 143 b2
  else continuation b2.

Definition byte (b : nat) : ascii := ascii_of_nat b.

(** The escapes are octets of UTF-8: an escaped octet below 128 is its
    character; a leading octet wants its continuation octets, escaped as
    well, and the sequence must encode a code point.  The decoded character
    is held as these octets. *)
Fixpoint decodeUnits (us : list Unit) : option string :=
  match us with
  | [] => Some EmptyString
  | Lit c :: r =>
      match decodeUnits r with
      | Some t => Some (String c t)
      | None => None
      end
  | Esc b :: r =>
      if (b <? 128)%nat then
        match decodeUnits r with
        | Some t => Some (String (byte b) t)
        | None => None
        end
      else if between 194 223 b then
        match r with
        | Esc b2 :: r2 =>
            if continuation b2 then
              match decodeUnits r2 with
              | Some t => Some (String (byte b) (String (byte b2) t))
              | None => None
              end
            else None
        | _ => None
        end
      else if between 224 239 b then
        match r with
        | Esc b2 :: Esc b3 :: r3 =>
            if second3 b b2 && continuation b3 then
              match decodeUnits r3 with
              | Some t =>
                  Some (String (byte b) (String (byte b2) (String (byte b3) t)))
              | None => None
              end
            else None
        | _ => None
        end
      else if between 240 244 b then
        match r with
        | Esc b2 :: Esc b3 :: Esc b4 :: r4 =>
            if second4 b b2 && continuation b3 && continuation b4 then
              match decodeUnits r4 with
              | Some t =>
                  Some (String (byte b) (String (byte b2)
                          (String (byte b3) (String (byte b4) t))))
              | None => None
              end
            else None
        | _ => None
        end
      else None
  end.

(** [decodeURIComponent]; [None] when it throws a [URIError]. *)
Definition decodeURIComponent (s : string) : option string :=
  match units s with
  | Some us => decodeUnits us
  | None => None
  end.

(** What answers a [GET] under [/api/stocks] that reaches the router: a
    route of the router, with the values of its parameters; the 404 handler
    of the application; or its error handler, with status 400, when the
    parameter of the matching route does not decode. *)
Inductive Route : Type :=
| RList
| RLatest
| RSummary
| RActive
| RBySymbol (symbol : string)
| RHistory (symbol : string)
| RSearch (query : string)
| RBadParam (segment : string)
| RNotFound.

(** A literal segment of a route path is matched against the segment of
    the request as it was sent, without regard to case. *)
Definition literal (name segment : string) : bool :=
  String.eqb (toUpperCase name) (toUpperCase segment).

(** A parameter segment matches any segment; its value is the segment
    decoded. *)
Definition param (segment : string) (route : string -> Route) : Route :=
  match decodeURIComponent segment with
  | Some value => route value
  | None => RBadParam segment
  end.

(** The routes are tried in the order in which they are declared:
    [/], [/latest], [/summary], [/active], [/:symbol], [/:symbol/history],
    [/search/:query].  The path is given by its segments below the mount
    point, as they were sent. *)
Definition dispatch (segments : list string) : Route :=
  match segments with
  | [] => RList
  | [s] =>
      if literal "latest" s then RLatest
      else if literal "summary" s then RSummary
      else if literal "active" s then RActive
      else param s RBySymbol
  | [s; t] =>
      if literal "history" t then param s RHistory
      else if literal "search" s then param t RSearch
      else RNotFound
  | _ => RNotFound
  end.

(** A spelling of a text in which every character is escaped. *)
Definition hexDigit (n : nat) : ascii :=
  if (n <? 10)%nat then ascii_of_nat (48 + n)%nat else ascii_of_nat (55 + n)%nat.

Fixpoint escapeAll (s : string) : string :=
  match s with
  | EmptyString => EmptyString
  | String c r =>
      String "%" (String (hexDigit (code c / 16)%nat)
                         (String (hexDigit (code c mod 16)%nat) (escapeAll r)))
  end.

(** A document scraped at the time [t] or later. *)
Definition scrapedSince (t : Z) (d : Stock) : bool := t <=? scrapedAt d.

(** The value of every path of the schema, and of the [_id] beside. *)
Definition schemaPaths (d : Stock)
  : string * string * (number * number * number * number)
    * (number * number * number) * Z :=
  (symbol d, securityName d, (open d, high d, low d, close d),
   (change d, dailyVolume d, dailyValue d), scrapedAt d).

(** What the update document of a record sets on these paths, after the
    casting of the schema. *)
Definition recordPaths (stockInfo : StockInfo)
  : string * string * (number * number * number * number)
    * (number * number * number) * Z :=
  let s := info_stock stockInfo in
  (keyOf stockInfo, setSecurityName (Raw.securityName s),
   (Raw.open s, Raw.high s, Raw.low s, Raw.close s),
   (Raw.change s, Raw.dailyVolume s, Raw.dailyValue s),
   info_scrapedAt stockInfo).

(* ================================================================= *)
(** ** The manual trigger ([POST /api/scrape]) *)

(** [{ count: result.length, stocks: result.slice(0, 5) }] *)
Module Report.
Record t : Type := mk {
  count : nat;
  stocks : list Stock
}.
End Report.

(** The handler, once the database is connected: [runScraper] resolves to
    what [scrapeStockData] returns. *)
Definition manualScrape (page : result (list Row)) (clock : nat -> Z)
  (rej : Rejections) (db : Store) : Store * Response Report.t :=
  let '(db', result) := scrapeStockData page clock rej db in
  (db', Success (Report.mk (List.length result) (firstn 5 result))).

(* ================================================================= *)
(** ** The order of the database on numbers, as an order on keys *)

(** A key whose lexicographic order is [bson_compare]: the class of the
    number, then its exponent and mantissa, reversed below zero. *)
Definition bson_key (x : number) : Z * Z * Z :=
  match x with
  | S754_nan => (0, 0, 0)
  | S754_infinity true => (1, 0, 0)
  | S754_finite true m e => (2, - e, Zneg m)
  | S754_zero _ => (3, 0, 0)
  | S754_finite false m e => (4, e, Zpos m)
  | S754_infinity false => (5, 0, 0)
  end.

Definition lex3 (k k' : Z * Z * Z) : comparison :=
  let '(a, b, c) := k in
  let '(a', b', c') := k' in
  match a ?= a' with
  | Eq => match b ?= b' with
          | Eq => c ?= c'
          | r => r
          end
  | r => r
  end.

(* ================================================================= *)
(** ** More sample data *)

(** [?page=1&limit=1&sortBy=close&sortOrder=desc] *)
Definition firstPage : Query.t :=
  Query.mk (Some "1") (Some "1") None None (Some "close") (Some "desc")
           None None None None.

(** The record the extraction makes of the second row of [sampleRows]. *)
Definition zenithRecord : Raw.t :=
  Raw.mk "ZENITH" "Zenith Bank"
         (parseNumber (Some "45.00")) (parseNumber (Some "46.00"))
         (parseNumber (Some "44.50")) (parseNumber (Some "45.50"))
         (parseNumber (Some "0.50")) (parseNumber (Some "1,234,500"))
         (parseNumber (Some "56,000,000.00")).

(** A batch that saves AAA twice. *)
Definition firstQuote : StockInfo := sampleInfo "AAA" 10 1 1000.
Definition laterQuote : StockInfo := sampleInfo "aaa " 12 2 2000.
Definition otherQuote : StockInfo := sampleInfo "BBB" 20 (-1) 2001.

(* ================================================================= *)
(** * Properties *)

(** ** Strings *)

Lemma upperChar_not_lower (c : ascii) : isLower (upperChar c) = false.
Proof. destruct c as [[] [] [] [] [] [] [] []]; reflexivity. Qed.

Lemma upperChar_alnum (c : ascii) :
  isAlnum c = true -> isUpper (upperChar c) || isDigit (upperChar c) = true.
Proof. destruct c as [[] [] [] [] [] [] [] []]; simpl; intro H; (reflexivity || discriminate H). Qed.

Lemma upperChar_space (c : ascii) : isSpace (upperChar c) = isSpace c.
Proof. destruct c as [[] [] [] [] [] [] [] []]; reflexivity. Qed.

Lemma upperChar_idem (c : ascii) : upperChar (upperChar c) = upperChar c.
Proof.
  unfold upperChar at 1. now rewrite upperChar_not_lower.
Qed.

Lemma toUpperCase_idem (s : string) : toUpperCase (toUpperCase s) = toUpperCase s.
Proof.
  induction s as [|c r IH]; simpl; [reflexivity|].
  now rewrite upperChar_idem, IH.
Qed.

Lemma toUpperCase_isEmpty (s : string) : isEmpty (toUpperCase s) = isEmpty s.
Proof. now destruct s. Qed.

Lemma filterStr_all (p : ascii -> bool) (s : string) :
  allStr p (filterStr p s) = true.
Proof.
  induction s as [|c r IH]; simpl; [reflexivity|].
  destruct (p c) eqn:E; simpl; [now rewrite E|exact IH].
Qed.

Lemma toUpperCase_alnum (s : string) :
  allStr isAlnum s = true ->
  allStr (fun c => isUpper c || isDigit c) (toUpperCase s) = true.
Proof.
  induction s as [|c r IH]; simpl; [reflexivity|].
  intro H. apply andb_true_iff in H as [Hc Hr].
  now rewrite (upperChar_alnum c Hc), (IH Hr).
Qed.

(** What [cleanSymbol] returns is made of capitals and digits only, and is
    left unchanged by an upper-casing or a second cleaning. *)
Lemma cleanSymbol_chars (str : option string) :
  allStr (fun c => isUpper c || isDigit c) (cleanSymbol str) = true.
Proof. unfold cleanSymbol. apply toUpperCase_alnum, filterStr_all. Qed.

Lemma cleanSymbol_upper (str : option string) :
  toUpperCase (cleanSymbol str) = cleanSymbol str.
Proof. unfold cleanSymbol. apply toUpperCase_idem. Qed.

Lemma trimEnd_idem (s : string) : trimEnd (trimEnd s) = trimEnd s.
Proof.
  induction s as [|c r IH]; simpl; [reflexivity|].
  destruct (isSpace c && isEmpty (trimEnd r)) eqn:E; simpl; [reflexivity|].
  now rewrite IH, E.
Qed.

Lemma trimStart_head (s : string) :
  match trimStart s with
  | EmptyString => True
  | String c _ => isSpace c = false
  end.
Proof.
  induction s as [|c r IH]; simpl; [exact I|].
  destruct (isSpace c) eqn:E; [exact IH|exact E].
Qed.

Lemma trimStart_trimEnd (s : string) :
  match s with
  | EmptyString => True
  | String c _ => isSpace c = false
  end ->
  trimStart (trimEnd s) = trimEnd s.
Proof.
  destruct s as [|c r]; simpl; [reflexivity|].
  intros E. rewrite E. simpl. now rewrite E.
Qed.

Lemma trim_idem (s : string) : trim (trim s) = trim s.
Proof.
  unfold trim.
  rewrite (trimStart_trimEnd (trimStart s) (trimStart_head s)).
  apply trimEnd_idem.
Qed.

Lemma trimStart_upper (s : string) :
  trimStart (toUpperCase s) = toUpperCase (trimStart s).
Proof.
  induction s as [|c r IH]; simpl; [reflexivity|].
  rewrite upperChar_space. now destruct (isSpace c).
Qed.

Lemma trimEnd_upper (s : string) :
  trimEnd (toUpperCase s) = toUpperCase (trimEnd s).
Proof.
  induction s as [|c r IH]; simpl; [reflexivity|].
  rewrite upperChar_space, IH, toUpperCase_isEmpty.
  now destruct (isSpace c && isEmpty (trimEnd r)).
Qed.

Lemma trim_upper (s : string) : trim (toUpperCase s) = toUpperCase (trim s).
Proof. unfold trim. now rewrite trimStart_upper, trimEnd_upper. Qed.

(** The symbol setter is idempotent and its result is in upper case. *)
Lemma setSymbol_idem (s : string) : setSymbol (setSymbol s) = setSymbol s.
Proof.
  unfold setSymbol. now rewrite trim_upper, trim_idem, toUpperCase_idem.
Qed.

Lemma setSymbol_upper (s : string) : toUpperCase (setSymbol s) = setSymbol s.
Proof. unfold setSymbol. apply toUpperCase_idem. Qed.

(** A text without white space is left alone by [trim]. *)
Lemma trimEnd_nospace (s : string) :
  allStr (fun c => negb (isSpace c)) s = true -> trimEnd s = s.
Proof.
  induction s as [|c r IH]; simpl; [reflexivity|].
  intro H. apply andb_true_iff in H as [Hc Hr].
  apply negb_true_iff in Hc. now rewrite Hc, (IH Hr).
Qed.

Lemma trim_nospace (s : string) :
  allStr (fun c => negb (isSpace c)) s = true -> trim s = s.
Proof.
  intro H. unfold trim.
  assert (Hs : trimStart s = s).
  { destruct s as [|c r]; simpl in *; [reflexivity|].
    apply andb_true_iff in H as [Hc _]. apply negb_true_iff in Hc.
    now rewrite Hc. }
  rewrite Hs. now apply trimEnd_nospace.
Qed.

Lemma allStr_impl (p q : ascii -> bool) (s : string) :
  (forall c, p c = true -> q c = true) ->
  allStr p s = true -> allStr q s = true.
Proof.
  intro Hpq. induction s as [|c r IH]; simpl; [reflexivity|].
  intro H. apply andb_true_iff in H as [Hc Hr].
  now rewrite (Hpq c Hc), (IH Hr).
Qed.

Lemma capital_or_digit_nospace (c : ascii) :
  isUpper c || isDigit c = true -> negb (isSpace c) = true.
Proof. destruct c as [[] [] [] [] [] [] [] []]; simpl; intro H; (reflexivity || discriminate H). Qed.

(** The setters leave a cleaned symbol as it is. *)
Lemma setSymbol_cleanSymbol (str : option string) :
  setSymbol (cleanSymbol str) = cleanSymbol str.
Proof.
  unfold setSymbol. rewrite trim_nospace; [apply cleanSymbol_upper|].
  apply allStr_impl with (p := fun c => isUpper c || isDigit c).
  - exact capital_or_digit_nospace.
  - apply cleanSymbol_chars.
Qed.

(* ----------------------------------------------------------------- *)
(** ** Numbers *)

(** Facts about the sign of a number are settled on its four shapes. *)
Ltac by_shape x :=
  destruct x as [s|s| |s m e]; try destruct s; cbv; congruence.

Lemma parseNumber_parsed (str : option string) : parsed (parseNumber str).
Proof.
  unfold parsed, parseNumber. destruct str as [s|]; [|now left].
  destruct (isEmpty s || String.eqb s "-" || String.eqb s "N/A"); [now left|].
  destruct (num_truthy (parseFloat (filterStr isNumeric s))) eqn:E;
    [now right|now left].
Qed.

Lemma parsed_not_nan (x : number) : parsed x -> is_nan x = false.
Proof. intros [->|H]; [reflexivity|]. now destruct x. Qed.

Lemma num_gt_zero_not_le (x : number) :
  num_le x pos_zero = true -> num_gt x pos_zero = false.
Proof. by_shape x. Qed.

Lemma num_gt_zero_truthy (x : number) :
  num_gt x pos_zero = true -> num_truthy x = true.
Proof. by_shape x. Qed.

(* ----------------------------------------------------------------- *)
(** ** The normalizer *)

(** C7, as stated, fails: a text of 309 nines denotes a value beyond the
    range of the doubles, [parseFloat] returns [Infinity] for it, and
    [Infinity || 0] is [Infinity], which is not a finite number. *)
Lemma parseNumber_overflow :
  parseNumber (Some (nines 309)) = Infinity /\
  is_finite (parseNumber (Some (nines 309))) = false.
Proof. split; vm_compute; reflexivity. Qed.

(** C7, amended: [parseNumber] is total and never returns [NaN] (nor
    negative zero); it is 0 on ['-'], ['N/A'], [''] and [undefined],
    1234.5 on ['1,234.50'], and 0 on every text whose cleaned form
    [parseFloat] cannot read. *)
Theorem parseNumber_total_never_NaN :
  (forall str, is_nan (parseNumber str) = false /\ parsed (parseNumber str)) /\
  parseNumber (Some "-") = pos_zero /\
  parseNumber (Some "N/A") = pos_zero /\
  parseNumber (Some "") = pos_zero /\
  parseNumber None = pos_zero /\
  (exists v, num_to_Q (parseNumber (Some "1,234.50")) = Some v /\
             Qeq v (12345 # 10)) /\
  (forall s, parseFloat (filterStr isNumeric s) = NaN ->
             parseNumber (Some s) = pos_zero).
Proof.
  split; [|repeat split; try reflexivity].
  - intro str. split; [apply parsed_not_nan|]; apply parseNumber_parsed.
  - eexists. split; vm_compute; reflexivity.
  - intros s H. unfold parseNumber. rewrite H. simpl.
    now destruct (isEmpty s || String.eqb s "-" || String.eqb s "N/A").
Qed.

(* ----------------------------------------------------------------- *)
(** ** The extractor *)

Lemma rowToStock_short (cells : Row) :
  (List.length cells < 8)%nat -> rowToStock cells = None.
Proof.
  intro H. unfold rowToStock.
  destruct (8 <=? List.length cells)%nat eqn:E; [|reflexivity].
  apply Nat.leb_le in E. lia.
Qed.

Lemma rowToStock_some (cells : Row) (s : Raw.t) :
  rowToStock cells = Some s -> (8 <= List.length cells)%nat.
Proof.
  unfold rowToStock.
  destruct (8 <=? List.length cells)%nat eqn:E; [|discriminate].
  intros _. now apply Nat.leb_le.
Qed.

Lemma mapRows_app (rows1 rows2 : list Row) :
  mapRows (rows1 ++ rows2) = mapRows rows1 ++ mapRows rows2.
Proof.
  induction rows1 as [|cells rest IH]; simpl; [reflexivity|].
  destruct (rowToStock cells); simpl; now rewrite IH.
Qed.

(** C8: a row is mapped exactly when it has at least 8 cells; the cells
    0 to 8 go, in this order, to symbol, securityName, open, high, low,
    close, change, dailyVolume and dailyValue, each through its cleaner;
    without a 9th cell dailyValue is the parse of ['0']; a shorter row
    leaves no trace; and of three rows whose second has 6 cells, the two
    others being valid, exactly the first and the third are returned. *)
Theorem extractor_maps_rows_positionally :
  (forall c0 c1 c2 c3 c4 c5 c6 c7 rest,
      rowToStock (c0 :: c1 :: c2 :: c3 :: c4 :: c5 :: c6 :: c7 :: rest) =
      Some (Raw.mk (cleanSymbol (Some c0)) (cleanText (Some c1))
              (parseNumber (Some c2)) (parseNumber (Some c3))
              (parseNumber (Some c4)) (parseNumber (Some c5))
              (parseNumber (Some c6)) (parseNumber (Some c7))
              (parseNumber (Some (match rest with
                                  | c8 :: _ => if isEmpty c8 then "0" else c8
                                  | [] => "0"
                                  end))))) /\
  (forall c0 c1 c2 c3 c4 c5 c6 c7 s,
      rowToStock [c0; c1; c2; c3; c4; c5; c6; c7] = Some s ->
      Raw.dailyValue s = parseNumber (Some "0") /\
      Raw.dailyValue s = pos_zero) /\
  (forall cells, (List.length cells < 8)%nat <-> rowToStock cells = None) /\
  (forall before cells after,
      (List.length cells < 8)%nat ->
      extractStocks (before ++ cells :: after) = extractStocks (before ++ after)) /\
  (forall r1 r2 r3 s1 s3,
      rowToStock r1 = Some s1 -> validStock s1 = true ->
      List.length r2 = 6%nat ->
      rowToStock r3 = Some s3 -> validStock s3 = true ->
      extractStocks [r1; r2; r3] = [s1; s3] /\
      List.length (extractStocks [r1; r2; r3]) = 2%nat).
Proof.
  repeat split.
  - destruct rest; reflexivity.
  - injection H as <-. reflexivity.
  - injection H as <-. reflexivity.
  - apply rowToStock_short.
  - intro H. destruct (Nat.lt_ge_cases (List.length cells) 8) as [L|G]; [exact L|].
    unfold rowToStock in H. apply Nat.leb_le in G. rewrite G in H. discriminate.
  - intros before cells after H.
    unfold extractStocks. rewrite !mapRows_app. simpl.
    now rewrite (rowToStock_short cells H).
  - unfold extractStocks. simpl.
    rewrite H, H2, (rowToStock_short r2) by lia. simpl. now rewrite H0, H3.
  - unfold extractStocks. simpl.
    rewrite H, H2, (rowToStock_short r2) by lia. simpl. now rewrite H0, H3.
Qed.

(* ----------------------------------------------------------------- *)
(** ** The upsert *)

Lemma matchesSymbol_spec (s : string) (d : Stock) :
  matchesSymbol s d = true <-> symbol d = setSymbol s.
Proof. unfold matchesSymbol. apply String.eqb_eq. Qed.

Lemma applyUpdate_symbol (stockInfo : StockInfo) (d : Stock) :
  symbol (applyUpdate stockInfo d) = keyOf stockInfo.
Proof. reflexivity. Qed.

Lemma updateFirst_none (stockInfo : StockInfo) (db : Store) :
  updateFirst stockInfo db = None <->
  findOne (Raw.symbol (info_stock stockInfo)) db = None.
Proof.
  unfold findOne. induction db as [|d rest IH]; simpl; [tauto|].
  destruct (matchesSymbol _ d); [split; discriminate|].
  destruct (updateFirst stockInfo rest) as [[rest' d']|].
  - split; [discriminate|]. intro H. apply IH in H. discriminate.
  - split; [|reflexivity]. intros _. now apply IH.
Qed.

(** An update touches the first matching document and nothing else. *)
Lemma updateFirst_some (stockInfo : StockInfo) (db db' : Store) (d' : Stock) :
  updateFirst stockInfo db = Some (db', d') ->
  exists pre d post,
    db = pre ++ d :: post /\
    (forall x, In x pre -> symbol x <> keyOf stockInfo) /\
    symbol d = keyOf stockInfo /\
    findOne (Raw.symbol (info_stock stockInfo)) db = Some d /\
    d' = applyUpdate stockInfo d /\
    db' = pre ++ d' :: post.
Proof.
  unfold findOne. revert db'.
  induction db as [|d rest IH]; simpl; intros db' H; [discriminate|].
  destruct (matchesSymbol _ d) eqn:E.
  - injection H as <- <-. exists [], d, rest. simpl.
    repeat split; try reflexivity; [intros x []|].
    now apply matchesSymbol_spec.
  - destruct (updateFirst stockInfo rest) as [[rest' d1]|]; [|discriminate].
    injection H as <- <-.
    destruct (IH rest' eq_refl) as (pre & d0 & post & -> & Hpre & Hd & Hf & Hu & ->).
    exists (d :: pre), d0, post. simpl. repeat split; try assumption.
    intros x [<-|Hx]; [|now apply Hpre].
    intro Hs. apply matchesSymbol_spec in Hs. congruence.
Qed.

Lemma findOne_none (s : string) (db : Store) :
  findOne s db = None <-> forall d, In d db -> symbol d <> setSymbol s.
Proof.
  unfold findOne. split.
  - intros H d Hd Hs. apply (find_none _ _ H) in Hd.
    apply matchesSymbol_spec in Hs. congruence.
  - intro H. destruct (find (matchesSymbol s) db) as [d|] eqn:E; [|reflexivity].
    apply find_some in E as [Hd Hm]. apply matchesSymbol_spec in Hm.
    now destruct (H d Hd).
Qed.

Lemma findOne_some (s : string) (db : Store) (d : Stock) :
  findOne s db = Some d -> In d db /\ symbol d = setSymbol s.
Proof.
  unfold findOne. intro H. apply find_some in H as [Hd Hm].
  split; [exact Hd|]. now apply matchesSymbol_spec.
Qed.

(** The symbols of the collection after an upsert. *)
Lemma findOneAndUpdate_symbols (stockInfo : StockInfo) (db : Store) :
  map symbol (fst (findOneAndUpdate stockInfo db)) =
  match findOne (Raw.symbol (info_stock stockInfo)) db with
  | Some _ => map symbol db
  | None => map symbol db ++ [keyOf stockInfo]
  end.
Proof.
  unfold findOneAndUpdate.
  destruct (updateFirst stockInfo db) as [[db' d']|] eqn:E.
  - destruct (updateFirst_some _ _ _ _ E) as (pre & d & post & -> & _ & Hd & Hf & -> & ->).
    rewrite Hf. simpl. rewrite !map_app. simpl. now rewrite Hd.
  - apply updateFirst_none in E. rewrite E. simpl.
    now rewrite map_app.
Qed.

Lemma findOneAndUpdate_saved (stockInfo : StockInfo) (db : Store) :
  In (snd (findOneAndUpdate stockInfo db)) (fst (findOneAndUpdate stockInfo db)) /\
  exists d0, snd (findOneAndUpdate stockInfo db) = applyUpdate stockInfo d0.
Proof.
  unfold findOneAndUpdate.
  destruct (updateFirst stockInfo db) as [[db' d']|] eqn:E.
  - destruct (updateFirst_some _ _ _ _ E) as (pre & d & post & -> & _ & _ & _ & -> & ->).
    simpl. split; [|now exists d]. apply in_or_app. right. now left.
  - simpl. split; [|eexists; reflexivity]. apply in_or_app. right. now left.
Qed.

Lemma findOneAndUpdate_In (stockInfo : StockInfo) (db : Store) (x : Stock) :
  In x (fst (findOneAndUpdate stockInfo db)) ->
  In x db \/ x = snd (findOneAndUpdate stockInfo db).
Proof.
  unfold findOneAndUpdate.
  destruct (updateFirst stockInfo db) as [[db' d']|] eqn:E; simpl.
  - destruct (updateFirst_some _ _ _ _ E) as (pre & d & post & -> & _ & _ & _ & -> & ->).
    intro H. apply in_app_or in H as [H|[H|H]]; [left|now right|left];
      apply in_or_app; [now left|right; now right].
  - intro H. apply in_app_or in H as [H|[H|[]]]; [now left|now right].
Qed.

(** Symbols stay pairwise distinct. *)
Lemma findOneAndUpdate_NoDup (stockInfo : StockInfo) (db : Store) :
  NoDup (map symbol db) ->
  NoDup (map symbol (fst (findOneAndUpdate stockInfo db))).
Proof.
  intro H. rewrite findOneAndUpdate_symbols.
  destruct (findOne _ db) eqn:E; [exact H|].
  apply NoDup_app; [exact H|repeat constructor; intros []|].
  intros s Hs [<-|[]]. apply in_map_iff in Hs as (d & Hd & Hin).
  exact (proj1 (findOne_none _ _) E d Hin Hd).
Qed.

(* ----------------------------------------------------------------- *)
(** ** The batch save *)

(** A property every document of the collection has, and every updated or
    inserted document of the batch has, holds after the batch. *)
Lemma saveLoop_Forall (P : Stock -> Prop) (rej : Rejections)
  (stockData : list StockInfo) :
  (forall stockInfo d, In stockInfo stockData -> P (applyUpdate stockInfo d)) ->
  forall i db savedStocks,
    Forall P db -> Forall P (fst (saveLoop rej i stockData db savedStocks)).
Proof.
  induction stockData as [|stockInfo rest IH]; simpl; intros HP i db acc Hdb;
    [exact Hdb|].
  destruct (rej i); [exact Hdb|].
  destruct (findOneAndUpdate stockInfo db) as [db' stock] eqn:E.
  apply IH; [intros; apply HP; now right|].
  apply Forall_forall. intros x Hx.
  change db' with (fst (db', stock)) in Hx. rewrite <- E in Hx.
  apply findOneAndUpdate_In in Hx as [Hx| ->].
  - now apply (proj1 (Forall_forall P db) Hdb).
  - destruct (findOneAndUpdate_saved stockInfo db) as [_ [d0 ->]].
    apply HP. now left.
Qed.

Lemma saveToMongoDB_Forall (P : Stock -> Prop) (rej : Rejections)
  (stockData : list StockInfo) (db : Store) :
  (forall stockInfo d, In stockInfo stockData -> P (applyUpdate stockInfo d)) ->
  Forall P db -> Forall P (fst (saveToMongoDB rej stockData db)).
Proof.
  intros HP Hdb. destruct stockData as [|a l]; [exact Hdb|].
  now apply saveLoop_Forall.
Qed.

Lemma saveLoop_NoDup (rej : Rejections) (stockData : list StockInfo) :
  forall i db savedStocks,
    NoDup (map symbol db) ->
    NoDup (map symbol (fst (saveLoop rej i stockData db savedStocks))).
Proof.
  induction stockData as [|stockInfo rest IH]; simpl; intros i db acc H;
    [exact H|].
  destruct (rej i); [exact H|].
  destruct (findOneAndUpdate stockInfo db) as [db' stock] eqn:E.
  apply IH. change db' with (fst (db', stock)). rewrite <- E.
  now apply findOneAndUpdate_NoDup.
Qed.

Lemma saveToMongoDB_NoDup (rej : Rejections) (stockData : list StockInfo)
  (db : Store) :
  NoDup (map symbol db) ->
  NoDup (map symbol (fst (saveToMongoDB rej stockData db))).
Proof.
  intro H. destruct stockData as [|a l]; [exact H|].
  now apply saveLoop_NoDup.
Qed.

(** In a collection the batch save has built, no two documents share a
    symbol and every symbol is as the setters leave it. *)
Lemma written_NoDup (db : Store) : written db -> NoDup (map symbol db).
Proof.
  induction 1 as [|rej stockData db _ IH]; [constructor|].
  now apply saveToMongoDB_NoDup.
Qed.

Lemma written_normalized (db : Store) :
  written db -> Forall (fun d => setSymbol (symbol d) = symbol d) db.
Proof.
  induction 1 as [|rej stockData db _ IH]; [constructor|].
  apply saveToMongoDB_Forall; [|exact IH].
  intros stockInfo d _. rewrite applyUpdate_symbol. apply setSymbol_idem.
Qed.

Lemma NoDup_map_eq {A B : Type} (f : A -> B) (l : list A) (x y : A) :
  NoDup (map f l) -> In x l -> In y l -> f x = f y -> x = y.
Proof.
  induction l as [|a l IH]; simpl; intros Hnd Hx Hy Hf; [contradiction|].
  inversion Hnd as [|? ? Hn Hnd']; subst.
  destruct Hx as [<-|Hx], Hy as [<-|Hy]; try reflexivity.
  - exfalso. apply Hn. rewrite Hf. now apply in_map.
  - exfalso. apply Hn. rewrite <- Hf. now apply in_map.
  - now apply IH.
Qed.

Lemma countSymbol_NoDup (s : string) (db : Store) :
  NoDup (map symbol db) -> In s (map symbol db) -> countSymbol s db = 1%nat.
Proof.
  unfold countSymbol. induction db as [|d rest IH]; simpl; intros Hnd Hin;
    [contradiction|].
  inversion Hnd as [|? ? Hn Hnd']; subst.
  destruct (String.eqb (symbol d) s) eqn:E.
  - apply String.eqb_eq in E. subst s. simpl. f_equal.
    apply length_zero_iff_nil.
    destruct (filter _ rest) as [|x l] eqn:F; [reflexivity|].
    assert (Hx : In x (filter (fun d0 => String.eqb (symbol d0) (symbol d)) rest))
      by (rewrite F; now left).
    apply filter_In in Hx as [Hx Hs]. apply String.eqb_eq in Hs.
    exfalso. apply Hn. rewrite <- Hs. now apply in_map.
  - destruct Hin as [Hd|Hin]; [|now apply IH].
    apply String.eqb_neq in E. congruence.
Qed.

(** A scrape cycle is a batch save or nothing. *)
Lemma scraped_written (db : Store) : scraped db -> written db.
Proof.
  induction 1 as [|page clock rej db _ IH]; [constructor|].
  unfold scrapeStockData. destruct page as [rows|e]; [|exact IH].
  destruct (List.length rows <=? 5)%nat; [exact IH|].
  pose proof (written_save rej (addMetadata clock 0 (extractStocks rows)) db IH) as W.
  destruct (saveToMongoDB rej _ db) as [db' [saved|e]]; exact W.
Qed.

Lemma addMetadata_stock (clock : nat -> Z) (stockData : list Raw.t) :
  forall i stockInfo,
    In stockInfo (addMetadata clock i stockData) ->
    In (info_stock stockInfo) stockData.
Proof.
  induction stockData as [|s rest IH]; simpl; intros i stockInfo H;
    [contradiction|].
  destruct H as [<-|H]; [now left|right; now apply (IH (S i))].
Qed.

Lemma mapRows_In (rows : list Row) (s : Raw.t) :
  In s (mapRows rows) -> exists cells, In cells rows /\ rowToStock cells = Some s.
Proof.
  induction rows as [|cells rest IH]; simpl; [contradiction|].
  destruct (rowToStock cells) as [s0|] eqn:E.
  - intros [<-|H]; [exists cells; split; [now left|exact E]|].
    destruct (IH H) as (c & Hc & Hr). exists c. split; [now right|exact Hr].
  - intro H. destruct (IH H) as (c & Hc & Hr). exists c. split; [now right|exact Hr].
Qed.

(** What the extraction emits: a cleaned, non-empty symbol, parsed numbers
    and a close above zero. *)
Lemma extractStocks_In (rows : list Row) (s : Raw.t) :
  In s (extractStocks rows) ->
  (exists str, Raw.symbol s = cleanSymbol str) /\
  Raw.symbol s <> "" /\
  parsed (Raw.change s) /\
  parsed (Raw.close s) /\
  num_gt (Raw.close s) pos_zero = true.
Proof.
  unfold extractStocks. intro H. apply filter_In in H as [Hm Hv].
  apply mapRows_In in Hm as (cells & _ & Hr).
  unfold validStock in Hv. apply andb_true_iff in Hv as [Hs Hc].
  unfold rowToStock in Hr. destruct (8 <=? List.length cells)%nat; [|discriminate].
  injection Hr as <-. simpl in *. repeat split.
  - eexists; reflexivity.
  - intro E. rewrite E in Hs. discriminate.
  - apply parseNumber_parsed.
  - apply parseNumber_parsed.
  - exact Hc.
Qed.

(** The documents of a collection that scrape cycles have built. *)
Lemma scraped_documents (db : Store) :
  scraped db ->
  Forall (fun d =>
            (exists str, symbol d = cleanSymbol str) /\
            symbol d <> "" /\
            parsed (change d) /\
            num_gt (close d) pos_zero = true) db.
Proof.
  induction 1 as [|page clock rej db _ IH]; [constructor|].
  unfold scrapeStockData. destruct page as [rows|e]; [|exact IH].
  destruct (List.length rows <=? 5)%nat; [exact IH|].
  match goal with
  | |- Forall ?P _ =>
      assert (W : Forall P (fst (saveToMongoDB rej
                   (addMetadata clock 0 (extractStocks rows)) db)))
  end.
  { apply saveToMongoDB_Forall; [|exact IH].
    intros stockInfo d Hin. apply addMetadata_stock in Hin.
    apply extractStocks_In in Hin as ([str Hs] & Hne & Hch & _ & Hcl).
    simpl. rewrite Hs, setSymbol_cleanSymbol. repeat split; try assumption.
    - now exists str.
    - now rewrite <- Hs. }
  destruct (saveToMongoDB rej _ db) as [db' [saved|e]]; exact W.
Qed.

Lemma freshId_fresh (db : Store) : ~ In (freshId db) (map _id db).
Proof.
  unfold freshId. intro H.
  assert (L : Forall (fun k => (k <= list_max (map _id db))%nat) (map _id db))
    by now apply list_max_le.
  apply (proj1 (Forall_forall _ _) L) in H. lia.
Qed.

(** C1: the upsert looks a record up by its symbol alone, taking the first
    document that carries it; when there is one, that document keeps its
    place and identity and has every path overwritten, [scrapedAt]
    included; when there is none, a document with these paths is added
    under a fresh identity; and in a collection the batch save has built,
    saving the same record a second time at a later time adds nothing:
    the symbol has exactly one document, with the later [scrapedAt]. *)
Theorem upsert_by_symbol (stockInfo : StockInfo) (db : Store) :
  let s := info_stock stockInfo in
  let key := keyOf stockInfo in
  let db' := fst (findOneAndUpdate stockInfo db) in
  let saved := snd (findOneAndUpdate stockInfo db) in
  saveToMongoDB noRejection [stockInfo] db = (db', Ok [saved]) /\
  (findOne (Raw.symbol s) db = None <-> forall d, In d db -> symbol d <> key) /\
  (forall d,
      findOne (Raw.symbol s) db = Some d ->
      exists pre post,
        db = pre ++ d :: post /\
        (forall x, In x pre -> symbol x <> key) /\
        symbol d = key /\
        db' = pre ++ saved :: post /\
        saved = mkStock (_id d) key (setSecurityName (Raw.securityName s))
                  (Raw.open s) (Raw.high s) (Raw.low s) (Raw.close s)
                  (Raw.change s) (Raw.dailyVolume s) (Raw.dailyValue s)
                  (info_scrapedAt stockInfo)) /\
  (findOne (Raw.symbol s) db = None ->
      db' = db ++ [saved] /\
      ~ In (_id saved) (map _id db) /\
      saved = mkStock (_id saved) key (setSecurityName (Raw.securityName s))
                (Raw.open s) (Raw.high s) (Raw.low s) (Raw.close s)
                (Raw.change s) (Raw.dailyVolume s) (Raw.dailyValue s)
                (info_scrapedAt stockInfo)) /\
  (written db ->
   forall later,
     let again := mkInfo s later in
     let db'' := fst (findOneAndUpdate again db') in
     fst (saveToMongoDB noRejection [stockInfo; again] db) = db'' /\
     countSymbol key db'' = 1%nat /\
     List.length db'' = List.length db' /\
     (forall d, In d db'' -> symbol d = key -> scrapedAt d = later)).
Proof.
  intros s key db' saved. subst db' saved.
  split; [|split; [|split; [|split]]].
  - simpl. now destruct (findOneAndUpdate stockInfo db).
  - apply findOne_none.
  - intros d Hd. unfold findOneAndUpdate.
    destruct (updateFirst stockInfo db) as [[db1 d1]|] eqn:E.
    + destruct (updateFirst_some _ _ _ _ E) as (pre & d0 & post & Hdb & Hpre & Hs & Hf & Hu & Hdb1).
      fold s in Hf. rewrite Hd in Hf. injection Hf as <-.
      exists pre, post. simpl. subst d1. now repeat split.
    + apply updateFirst_none in E. fold s in E. congruence.
  - intro Hn. unfold findOneAndUpdate.
    apply updateFirst_none in Hn. rewrite Hn. simpl.
    split; [reflexivity|]. split; [apply freshId_fresh|reflexivity].
  - intros W later again db''. subst db''.
    set (db1 := fst (findOneAndUpdate stockInfo db)).
    assert (W1 : written db1).
    { pose proof (written_save noRejection [stockInfo] db W) as W1.
      simpl in W1. unfold db1. now destruct (findOneAndUpdate stockInfo db). }
    destruct (findOneAndUpdate_saved stockInfo db) as [Hin [d0 Hsv]].
    fold db1 in Hin.
    assert (Hkey : In key (map symbol db1)).
    { apply in_map_iff. eexists. split; [|exact Hin]. now rewrite Hsv. }
    assert (Hsome : exists d1, findOne (Raw.symbol (info_stock again)) db1 = Some d1).
    { destruct (findOne (Raw.symbol (info_stock again)) db1) as [d1|] eqn:F;
        [now exists d1|].
      exfalso. apply in_map_iff in Hkey as (x & Hx & Hxin).
      exact (proj1 (findOne_none _ _) F x Hxin Hx). }
    destruct Hsome as [d1 Hd1].
    pose proof (findOneAndUpdate_symbols again db1) as Hsym. rewrite Hd1 in Hsym.
    pose proof (written_NoDup db1 W1) as Hnd.
    repeat split.
    + simpl. unfold db1. destruct (findOneAndUpdate stockInfo db) as [dbx sx]. simpl.
      now destruct (findOneAndUpdate again dbx).
    + apply countSymbol_NoDup; rewrite Hsym; assumption.
    + rewrite <- (length_map symbol), Hsym. apply length_map.
    + intros d Hd Hs.
      destruct (findOneAndUpdate_saved again db1) as [Hin2 [d2 Hsv2]].
      assert (Heq : d = snd (findOneAndUpdate again db1)).
      { apply (NoDup_map_eq symbol (fst (findOneAndUpdate again db1)));
          [now rewrite Hsym|exact Hd|exact Hin2|].
        now rewrite Hs, Hsv2. }
      rewrite Heq, Hsv2. reflexivity.
Qed.

Lemma saveToMongoDB_loop (rej : Rejections) (stockData : list StockInfo)
  (db : Store) :
  saveToMongoDB rej stockData db = saveLoop rej 0 stockData db [].
Proof. now destruct stockData. Qed.

Lemma saveLoop_rejected (rej : Rejections) (e : Error)
  (stockData : list StockInfo) :
  forall k i db savedStocks,
    (k < List.length stockData)%nat ->
    rej (i + k)%nat = Some e ->
    (forall j, (j < k)%nat -> rej (i + j)%nat = None) ->
    saveLoop rej i stockData db savedStocks =
      (fst (saveLoop noRejection i (firstn k stockData) db savedStocks), Throw e).
Proof.
  induction stockData as [|stockInfo rest IH]; simpl; intros k i db acc Hk He Hn;
    [lia|].
  destruct k as [|k].
  - rewrite Nat.add_0_r in He. now rewrite He.
  - pose proof (Hn 0%nat ltac:(lia)) as H0. rewrite Nat.add_0_r in H0.
    rewrite H0. simpl. unfold noRejection at 1.
    destruct (findOneAndUpdate stockInfo db) as [db' stock].
    apply IH; [lia|now rewrite Nat.add_succ_l, <- Nat.add_succ_r|].
    intros j Hj. specialize (Hn (S j) ltac:(lia)).
    now rewrite Nat.add_succ_r in Hn.
Qed.

(** C3, as stated, fails: when the database rejects the second of three
    records, the call does not return a list of results; it throws, and the
    third record, which the database would have accepted, is not saved. *)
Lemma batch_save_does_not_isolate_failures :
  let rej := rejectAt 1 (mkError "write failed") in
  rej 2%nat = None /\
  (forall saved, snd (saveToMongoDB rej sampleBatch []) <> Ok saved) /\
  snd (saveToMongoDB rej sampleBatch []) = Throw (mkError "write failed") /\
  map symbol (fst (saveToMongoDB rej sampleBatch [])) = ["AAA"] /\
  findOne "CCC" (fst (saveToMongoDB rej sampleBatch [])) = None.
Proof.
  repeat split; try (vm_compute; reflexivity).
  intros saved. vm_compute. discriminate.
Qed.

(** C2: every row the extraction emits has a non-empty symbol made of
    capitals and digits and a close above zero; a mapped row whose symbol
    is empty or whose close is at most zero is not emitted, every other
    mapped row is; and the symbol of every stored document is in upper
    case (and, after scrape cycles, non-empty and made of capitals and
    digits). *)
Theorem extracted_rows_are_valid :
  (forall rows s,
      In s (extractStocks rows) ->
      Raw.symbol s <> "" /\
      allStr (fun c => isUpper c || isDigit c) (Raw.symbol s) = true /\
      num_gt (Raw.close s) pos_zero = true) /\
  (forall rows s,
      In s (mapRows rows) ->
      Raw.symbol s = "" \/ num_le (Raw.close s) pos_zero = true ->
      ~ In s (extractStocks rows)) /\
  (forall rows s,
      In s (mapRows rows) ->
      Raw.symbol s <> "" -> num_gt (Raw.close s) pos_zero = true ->
      In s (extractStocks rows)) /\
  (forall db d,
      written db -> In d db -> toUpperCase (symbol d) = symbol d) /\
  (forall db d,
      scraped db -> In d db ->
      symbol d <> "" /\
      allStr (fun c => isUpper c || isDigit c) (symbol d) = true).
Proof.
  split; [|split; [|split; [|split]]].
  - intros rows s H.
    destruct (extractStocks_In rows s H) as ([str Hs] & Hne & _ & _ & Hc).
    repeat split; try assumption. rewrite Hs. apply cleanSymbol_chars.
  - intros rows s _ Hbad H.
    destruct (extractStocks_In rows s H) as (_ & Hne & _ & _ & Hc).
    destruct Hbad as [He|Hle]; [now apply Hne|].
    apply num_gt_zero_not_le in Hle. congruence.
  - intros rows s Hm Hne Hc. unfold extractStocks. apply filter_In.
    split; [exact Hm|]. unfold validStock. rewrite Hc.
    destruct (Raw.symbol s); [now destruct Hne|reflexivity].
  - intros db d W Hd.
    pose proof (proj1 (Forall_forall _ _) (written_normalized db W) d Hd) as Hn.
    simpl in Hn. rewrite <- Hn. apply setSymbol_upper.
  - intros db d S Hd.
    pose proof (proj1 (Forall_forall _ _) (scraped_documents db S) d Hd) as Hn.
    simpl in Hn. destruct Hn as ([str Hs] & Hne & _).
    split; [exact Hne|]. rewrite Hs. apply cleanSymbol_chars.
Qed.

(* ----------------------------------------------------------------- *)
(** ** The derived [changePercent] *)

Lemma num_gt_zero_neq (x : number) :
  num_gt x pos_zero = true -> num_eq x pos_zero = false.
Proof. by_shape x. Qed.

Lemma num_truthy_neq (x : number) :
  num_truthy x = true -> num_eq x pos_zero = false.
Proof. by_shape x. Qed.

Lemma num_sub_zero (x : number) :
  num_gt x pos_zero = true -> num_sub x pos_zero = x.
Proof. by_shape x. Qed.

Lemma zero_percent (x : number) :
  num_gt x pos_zero = true ->
  num_mul (num_div pos_zero x) (num_of_Z 100) = pos_zero.
Proof.
  destruct x as [s|s| |s m e]; try destruct s; cbv [num_gt SFltb SFcompare pos_zero];
    try discriminate; intros _; vm_compute; reflexivity.
Qed.

(** C9: on every stored document [changePercent] is
    [change / (close - change) * 100], and 0 when [close - change] is 0;
    it is a function of the stored [close] and [change], not a path of
    the document. *)
Theorem changePercent_formula (db : Store) (d : Stock) :
  scraped db -> In d db ->
  changePercent d =
    (if num_eq (num_sub (close d) (change d)) pos_zero then pos_zero
     else num_mul (num_div (change d) (num_sub (close d) (change d)))
                  (num_of_Z 100)) /\
  (forall d', close d' = close d -> change d' = change d ->
              changePercent d' = changePercent d).
Proof.
  intros S Hd. split.
  - pose proof (proj1 (Forall_forall _ _) (scraped_documents db S) d Hd) as Hn.
    simpl in Hn. destruct Hn as (_ & _ & Hch & Hcl).
    unfold changePercent. rewrite (num_gt_zero_neq _ Hcl), orb_false_r.
    destruct Hch as [Hz|Ht].
    + rewrite Hz. change (num_eq pos_zero pos_zero) with true. cbv iota.
      rewrite (num_sub_zero _ Hcl), (num_gt_zero_neq _ Hcl).
      symmetry. now apply zero_percent.
    + now rewrite (num_truthy_neq _ Ht).
  - intros d' Hc Hg. unfold changePercent. now rewrite Hc, Hg.
Qed.

(* ----------------------------------------------------------------- *)
(** ** The lookup by symbol *)

Lemma setSymbol_toUpperCase (s : string) : setSymbol (toUpperCase s) = setSymbol s.
Proof. unfold setSymbol. now rewrite trim_upper, toUpperCase_idem. Qed.

(** C10, as stated, fails: with ABC stored, the parameter [" abc"] is
    upper-cased to [" ABC"], a symbol no document carries, and the lookup
    still answers with the document of ABC, because the query is cast with
    the schema's [trim]. *)
Lemma lookup_trims_the_parameter :
  let db := fst (saveToMongoDB noRejection [sampleInfo "ABC" 10 1 1000] []) in
  (forall d, In d db -> symbol d <> toUpperCase " abc") /\
  exists d, getBySymbol " abc" db = Success d /\ symbol d = "ABC".
Proof.
  split.
  - intros d [<-|[]]. vm_compute. discriminate.
  - eexists. split; vm_compute; reflexivity.
Qed.

(** C10, amended: the lookup upper-cases the parameter before it queries;
    every document of a collection the batch save has built is returned
    for every spelling of its symbol in lower or mixed case; and when no
    document carries the parameter trimmed and upper-cased, the answer is
    the 404 envelope.  The answer is always one of the two. *)
Theorem lookup_by_symbol_any_case :
  (forall param db,
      getBySymbol param db =
        match findOne (toUpperCase param) db with
        | None => Failure 404 "Stock not found"
        | Some stock => Success stock
        end) /\
  (forall db d param,
      written db -> In d db -> toUpperCase param = symbol d ->
      getBySymbol param db = Success d) /\
  (forall db param,
      (forall d, In d db -> symbol d <> toUpperCase (trim param)) ->
      getBySymbol param db = Failure 404 "Stock not found") /\
  (forall db param d,
      getBySymbol param db = Success d ->
      In d db /\ symbol d = toUpperCase (trim param)).
Proof.
  split; [|split; [|split]].
  - reflexivity.
  - intros db d param W Hd Hp. unfold getBySymbol.
    pose proof (proj1 (Forall_forall _ _) (written_normalized db W) d Hd) as Hn.
    simpl in Hn.
    destruct (findOne (toUpperCase param) db) as [x|] eqn:F.
    + apply findOne_some in F as [Hx Hs]. f_equal.
      apply (NoDup_map_eq symbol db); [now apply written_NoDup|assumption..|].
      now rewrite Hs, Hp.
    + exfalso. apply (proj1 (findOne_none _ _) F d Hd). now rewrite Hp.
  - intros db param H. unfold getBySymbol.
    destruct (findOne (toUpperCase param) db) as [x|] eqn:F; [|reflexivity].
    apply findOne_some in F as [Hx Hs]. rewrite setSymbol_toUpperCase in Hs.
    now destruct (H x Hx).
  - intros db param d. unfold getBySymbol.
    destruct (findOne (toUpperCase param) db) as [x|] eqn:F; [|discriminate].
    intro E. injection E as <-. apply findOne_some in F as [Hx Hs].
    rewrite setSymbol_toUpperCase in Hs. now split.
Qed.

(* ----------------------------------------------------------------- *)
(** ** Sorting *)

Section Sorting.

Variable leb : Stock -> Stock -> bool.

Lemma insertBy_perm (x : Stock) (l : list Stock) :
  Permutation (insertBy leb x l) (x :: l).
Proof.
  induction l as [|y r IH]; simpl; [apply Permutation_refl|].
  destruct (leb x y); [apply Permutation_refl|].
  apply perm_trans with (y :: x :: r); [now apply perm_skip|apply perm_swap].
Qed.

Lemma sortBy_perm (l : list Stock) : Permutation (sortBy leb l) l.
Proof.
  induction l as [|x r IH]; simpl; [apply perm_nil|].
  apply perm_trans with (x :: sortBy leb r);
    [apply insertBy_perm|now apply perm_skip].
Qed.

Lemma sortBy_In (l : list Stock) (x : Stock) : In x (sortBy leb l) <-> In x l.
Proof.
  split; apply Permutation_in;
    [apply sortBy_perm|apply Permutation_sym, sortBy_perm].
Qed.

Lemma sortBy_length (l : list Stock) :
  List.length (sortBy leb l) = List.length l.
Proof. apply Permutation_length, sortBy_perm. Qed.

Hypothesis leb_total : forall a b, leb a b = true \/ leb b a = true.
Hypothesis leb_trans :
  forall a b c, leb a b = true -> leb b c = true -> leb a c = true.

Let R (a b : Stock) : Prop := leb a b = true.

Lemma insertBy_sorted (x : Stock) (l : list Stock) :
  StronglySorted R l -> StronglySorted R (insertBy leb x l).
Proof.
  induction 1 as [|y r Hs IH Hy]; simpl; [repeat constructor|].
  destruct (leb x y) eqn:E.
  - constructor; [now constructor|].
    constructor; [exact E|].
    eapply Forall_impl; [|exact Hy]. intros z Hz. exact (leb_trans _ _ _ E Hz).
  - constructor; [exact IH|].
    apply (Permutation_Forall (Permutation_sym (insertBy_perm x r))).
    constructor; [|exact Hy].
    destruct (leb_total x y) as [H|H]; [congruence|exact H].
Qed.

Lemma sortBy_sorted (l : list Stock) : StronglySorted R (sortBy leb l).
Proof.
  induction l as [|x r IH]; simpl; [constructor|now apply insertBy_sorted].
Qed.

End Sorting.

Lemma StronglySorted_impl {A : Type} (R R' : A -> A -> Prop) (l : list A) :
  (forall a b, R a b -> R' a b) -> StronglySorted R l -> StronglySorted R' l.
Proof.
  intros Himp. induction 1 as [|a r Hs IH Ha]; constructor; [exact IH|].
  eapply Forall_impl; [|exact Ha]. intros b. apply Himp.
Qed.

Lemma StronglySorted_later {A : Type} (R : A -> A -> Prop)
  (pre post : list A) (d : A) :
  StronglySorted R (pre ++ d :: post) -> Forall (R d) post.
Proof.
  induction pre as [|a pre IH]; simpl; intro H; inversion H; subst; auto.
Qed.

Lemma firstn_In {A : Type} (n : nat) (l : list A) (x : A) :
  In x (firstn n l) -> In x l.
Proof.
  revert l. induction n as [|n IH]; intros [|a l]; simpl; try contradiction.
  intros [<-|H]; [now left|right; now apply IH].
Qed.

Lemma firstn_NoDup {A : Type} (n : nat) (l : list A) :
  NoDup l -> NoDup (firstn n l).
Proof.
  revert l. induction n as [|n IH]; intros [|a l] H; simpl; try constructor.
  - inversion H; subst. intro Hin. now apply firstn_In in Hin.
  - inversion H; subst. now apply IH.
Qed.

(** The order on strings. *)
Lemma compare_refl (s : string) : String.compare s s = Eq.
Proof. now apply OrderedTypeEx.String_as_OT.cmp_eq. Qed.

Lemma compare_lt_trans (a b c : string) :
  String.compare a b = Lt -> String.compare b c = Lt -> String.compare a c = Lt.
Proof.
  intros H1 H2. apply OrderedTypeEx.String_as_OT.cmp_lt.
  apply OrderedTypeEx.String_as_OT.lt_trans with b;
    now apply OrderedTypeEx.String_as_OT.cmp_lt.
Qed.

Lemma compare_gt_lt (a b : string) :
  String.compare a b = Gt <-> String.compare b a = Lt.
Proof.
  rewrite (String.compare_antisym a b).
  destruct (String.compare b a); simpl; split; congruence.
Qed.

Lemma compare_eq (a b : string) : String.compare a b = Eq <-> a = b.
Proof. apply OrderedTypeEx.String_as_OT.cmp_eq. Qed.

Lemma bySymbolThenLatest_total (a b : Stock) :
  bySymbolThenLatest a b = true \/ bySymbolThenLatest b a = true.
Proof.
  unfold bySymbolThenLatest.
  destruct (String.compare (symbol a) (symbol b)) eqn:E.
  - apply compare_eq in E. rewrite E, compare_refl.
    destruct (Z.leb_spec (scrapedAt b) (scrapedAt a)); [now left|right].
    apply Z.leb_le. lia.
  - now left.
  - apply compare_gt_lt in E. rewrite E. now right.
Qed.

Lemma bySymbolThenLatest_trans (a b c : Stock) :
  bySymbolThenLatest a b = true -> bySymbolThenLatest b c = true ->
  bySymbolThenLatest a c = true.
Proof.
  unfold bySymbolThenLatest.
  destruct (String.compare (symbol a) (symbol b)) eqn:E1; [| |discriminate];
    destruct (String.compare (symbol b) (symbol c)) eqn:E2; try discriminate.
  - apply compare_eq in E1, E2. rewrite E1, E2, compare_refl.
    intros H1 H2. apply Z.leb_le in H1, H2. apply Z.leb_le. lia.
  - apply compare_eq in E1. rewrite E1, E2. reflexivity.
  - apply compare_eq in E2. rewrite <- E2, E1. reflexivity.
  - now rewrite (compare_lt_trans _ _ _ E1 E2).
Qed.

Lemma bySymbol_total (a b : Stock) : bySymbol a b = true \/ bySymbol b a = true.
Proof. apply String.leb_total. Qed.

Lemma string_leb_trans (a b c : string) :
  String.leb a b = true -> String.leb b c = true -> String.leb a c = true.
Proof.
  unfold String.leb.
  destruct (String.compare a b) eqn:E1; [| |discriminate];
    destruct (String.compare b c) eqn:E2; try discriminate; intros _ _.
  - apply compare_eq in E1, E2. subst. now rewrite compare_refl.
  - apply compare_eq in E1. subst. now rewrite E2.
  - apply compare_eq in E2. subst. now rewrite E1.
  - now rewrite (compare_lt_trans _ _ _ E1 E2).
Qed.

Lemma bySymbol_trans (a b c : Stock) :
  bySymbol a b = true -> bySymbol b c = true -> bySymbol a c = true.
Proof. apply string_leb_trans. Qed.

Lemma byLatest_total (a b : Stock) : byLatest a b = true \/ byLatest b a = true.
Proof.
  unfold byLatest. destruct (Z.leb_spec (scrapedAt b) (scrapedAt a)); [now left|].
  right. apply Z.leb_le. lia.
Qed.

Lemma byLatest_trans (a b c : Stock) :
  byLatest a b = true -> byLatest b c = true -> byLatest a c = true.
Proof.
  unfold byLatest. intros H1 H2. apply Z.leb_le in H1, H2. apply Z.leb_le. lia.
Qed.

(* ----------------------------------------------------------------- *)
(** ** Latest per symbol *)

Lemma seen_spec (s : string) (seen : list string) :
  existsb (String.eqb s) seen = true <-> In s seen.
Proof.
  rewrite existsb_exists. split.
  - intros (x & Hx & E). apply String.eqb_eq in E. now subst.
  - intro H. exists s. split; [exact H|apply String.eqb_refl].
Qed.

(** Each document [$group] keeps is the first of its symbol. *)
Lemma groupFirst_first (l : list Stock) :
  forall seen d,
    In d (groupFirst seen l) ->
    ~ In (symbol d) seen /\
    exists pre post,
      l = pre ++ d :: post /\ forall x, In x pre -> symbol x <> symbol d.
Proof.
  induction l as [|a r IH]; simpl; intros seen d H; [contradiction|].
  destruct (existsb (String.eqb (symbol a)) seen) eqn:E.
  - destruct (IH seen d H) as (Hs & pre & post & -> & Hpre).
    split; [exact Hs|]. exists (a :: pre), post. split; [reflexivity|].
    intros x [<-|Hx]; [|now apply Hpre].
    intro Heq. apply Hs. rewrite <- Heq. now apply seen_spec.
  - destruct H as [<-|H].
    + split; [|exists [], r; split; [reflexivity|intros x []]].
      intro Hin. apply seen_spec in Hin. congruence.
    + destruct (IH (symbol a :: seen) d H) as (Hs & pre & post & -> & Hpre).
      split; [intro Hin; apply Hs; now right|].
      exists (a :: pre), post. split; [reflexivity|].
      intros x [<-|Hx]; [|now apply Hpre].
      intro Heq. apply Hs. now left.
Qed.

Lemma groupFirst_NoDup (l : list Stock) :
  forall seen, NoDup (map symbol (groupFirst seen l)).
Proof.
  induction l as [|a r IH]; simpl; intro seen; [constructor|].
  destruct (existsb (String.eqb (symbol a)) seen); [apply IH|].
  simpl. constructor; [|apply IH].
  intro Hin. apply in_map_iff in Hin as (d & Hd & Hin).
  apply groupFirst_first in Hin as [Hs _]. apply Hs. rewrite Hd. now left.
Qed.

(** Every symbol of the input that was not seen before has its document. *)
Lemma groupFirst_covers (l : list Stock) :
  forall seen d,
    In d l -> ~ In (symbol d) seen ->
    exists g, In g (groupFirst seen l) /\ symbol g = symbol d.
Proof.
  induction l as [|a r IH]; simpl; intros seen d H Hs; [contradiction|].
  destruct (existsb (String.eqb (symbol a)) seen) eqn:E.
  - destruct H as [<-|H]; [apply seen_spec in E; contradiction|].
    now apply IH.
  - destruct (String.eqb (symbol a) (symbol d)) eqn:Ea.
    + apply String.eqb_eq in Ea. exists a. split; [now left|exact Ea].
    + apply String.eqb_neq in Ea. destruct H as [<-|H]; [congruence|].
      destruct (IH (symbol a :: seen) d H) as (g & Hg & Hgs).
      { intros [Heq|Hin]; [congruence|contradiction]. }
      exists g. split; [now right|exact Hgs].
Qed.

Lemma strictly_ascending (l : list Stock) :
  StronglySorted (fun a b => bySymbol a b = true) l ->
  NoDup (map symbol l) ->
  StronglySorted (fun a b => String.ltb (symbol a) (symbol b) = true) l.
Proof.
  induction 1 as [|a r Hs IH Ha]; simpl; intro Hnd; [constructor|].
  inversion Hnd as [|? ? Hn Hnd']; subst.
  constructor; [now apply IH|].
  apply Forall_forall. intros x Hx.
  pose proof (proj1 (Forall_forall _ _) Ha x Hx) as Hle.
  unfold bySymbol, String.leb in Hle. unfold String.ltb.
  destruct (String.compare (symbol a) (symbol x)) eqn:E;
    [|reflexivity|discriminate].
  apply compare_eq in E. exfalso. apply Hn. rewrite E. now apply in_map.
Qed.

(** The argument of the pipeline, for any engine: whatever sorted
    arrangement [sorted] of the store [$sort] produces, in whatever order
    [emitted] the groups leave [$group], and whatever sorted arrangement
    [out] of the first [n] of them the last [$sort] produces. *)
Lemma latest_per_symbol_any_order
  (db sorted emitted out : list Stock) (n : nat) :
  Permutation sorted db ->
  StronglySorted (fun a b => bySymbolThenLatest a b = true) sorted ->
  Permutation emitted (groupFirst [] sorted) ->
  Permutation out (firstn n emitted) ->
  StronglySorted (fun a b => bySymbol a b = true) out ->
  NoDup (map symbol out) /\
  (forall d, In d out ->
             In d db /\
             forall d', In d' db -> symbol d' = symbol d ->
                        scrapedAt d' <= scrapedAt d) /\
  (List.length out <= n)%nat /\
  ((List.length out < n)%nat ->
   forall d, In d db -> exists o, In o out /\ symbol o = symbol d) /\
  StronglySorted (fun a b => String.ltb (symbol a) (symbol b) = true) out.
Proof.
  intros Hperm Hsorted Hemit Hout Hasc.
  assert (Hnd : NoDup (map symbol out)).
  { apply (Permutation_NoDup (Permutation_map symbol (Permutation_sym Hout))).
    rewrite <- firstn_map. apply firstn_NoDup.
    apply (Permutation_NoDup (Permutation_map symbol (Permutation_sym Hemit))).
    apply groupFirst_NoDup. }
  split; [exact Hnd|]. split; [|split; [|split]].
  - intros d Hd.
    apply (Permutation_in _ Hout), firstn_In, (Permutation_in _ Hemit) in Hd.
    destruct (groupFirst_first sorted [] d Hd) as (_ & pre & post & Hl & Hpre).
    assert (Hin : In d sorted) by (rewrite Hl; apply in_or_app; right; now left).
    split; [exact (Permutation_in _ Hperm Hin)|].
    intros d' Hd' Hs.
    apply (Permutation_in _ (Permutation_sym Hperm)) in Hd'.
    rewrite Hl in Hsorted, Hd'.
    apply in_app_or in Hd' as [Hd'|[<-|Hd']].
    + now destruct (Hpre d' Hd').
    + lia.
    + apply StronglySorted_later in Hsorted.
      pose proof (proj1 (Forall_forall _ _) Hsorted d' Hd') as Hle.
      simpl in Hle. unfold bySymbolThenLatest in Hle.
      rewrite <- Hs, compare_refl in Hle. now apply Z.leb_le.
  - rewrite (Permutation_length Hout). apply firstn_le_length.
  - rewrite (Permutation_length Hout). intros Hlt d Hd.
    assert (Hall : firstn n emitted = emitted).
    { apply firstn_all2. rewrite length_firstn in Hlt. lia. }
    apply (Permutation_in _ (Permutation_sym Hperm)) in Hd.
    destruct (groupFirst_covers sorted [] d Hd) as (g & Hg & Hgs); [intros []|].
    exists g. split; [|exact Hgs].
    apply (Permutation_in _ (Permutation_sym Hout)). rewrite Hall.
    exact (Permutation_in _ (Permutation_sym Hemit) Hg).
  - now apply strictly_ascending.
Qed.

(** C4: for a positive limit [findLatest] returns a list (and for any other
    limit the [$limit] stage rejects the pipeline).  The list has at most
    one document per symbol, each a document of the store whose
    [scrapedAt] is the greatest among the documents of its symbol; it has
    at most [limit] documents, and when it has fewer, every symbol of the
    store is in it; its symbols are in strictly ascending order. *)
Theorem findLatest_latest_per_symbol (limit : Z) (db : Store) :
  (0 < limit -> exists out, findLatest limit db = Ok out) /\
  (limit <= 0 -> exists e, findLatest limit db = Throw e) /\
  (forall out,
      findLatest limit db = Ok out ->
      NoDup (map symbol out) /\
      (forall d, In d out ->
                 In d db /\
                 forall d', In d' db -> symbol d' = symbol d ->
                            scrapedAt d' <= scrapedAt d) /\
      Z.of_nat (List.length out) <= limit /\
      (Z.of_nat (List.length out) < limit ->
       forall d, In d db -> exists o, In o out /\ symbol o = symbol d) /\
      StronglySorted (fun a b => String.ltb (symbol a) (symbol b) = true) out).
Proof.
  unfold findLatest, limitStage.
  destruct (0 <? limit) eqn:L.
  - apply Z.ltb_lt in L.
    split; [intros _; eexists; reflexivity|].
    split; [intro; lia|].
    intros out E. injection E as <-.
    destruct (latest_per_symbol_any_order db
                (sortBy bySymbolThenLatest db)
                (groupFirst [] (sortBy bySymbolThenLatest db))
                (sortBy bySymbol
                   (firstn (Z.to_nat limit)
                      (groupFirst [] (sortBy bySymbolThenLatest db))))
                (Z.to_nat limit))
      as (Hnd & Hmax & Hlen & Hcov & Hasc).
    + apply sortBy_perm.
    + apply sortBy_sorted;
        [exact bySymbolThenLatest_total|exact bySymbolThenLatest_trans].
    + apply Permutation_refl.
    + apply sortBy_perm.
    + apply sortBy_sorted; [exact bySymbol_total|exact bySymbol_trans].
    + repeat split; try assumption; try (now apply Hmax); try lia.
      intros Hlt. apply Hcov. lia.
  - apply Z.ltb_ge in L.
    split; [intro; lia|]. split; [intros _; eexists; reflexivity|].
    intros out E. discriminate.
Qed.

(* ----------------------------------------------------------------- *)
(** ** Market summary *)

Lemma sumInt_from (f : Stock -> Z) (l : list Stock) (a : Z) :
  fold_left (fun acc d => acc + f d) l a = a + sumInt f l.
Proof.
  unfold sumInt. revert a. induction l as [|d r IH]; simpl; intro a; [lia|].
  rewrite (IH (a + f d)), (IH (f d)). lia.
Qed.

Lemma sumInt_cons (f : Stock -> Z) (d : Stock) (l : list Stock) :
  sumInt f (d :: l) = f d + sumInt f l.
Proof. unfold sumInt at 1. simpl. apply sumInt_from. Qed.

Lemma sumInt_count (p : Stock -> bool) (l : list Stock) :
  sumInt (fun d => cond10 (p d)) l = Z.of_nat (List.length (filter p l)).
Proof.
  induction l as [|d r IH]; [reflexivity|].
  rewrite sumInt_cons, IH. cbn [filter].
  destruct (p d); cbn [cond10 List.length]; lia.
Qed.

Lemma sumInt_ones (l : list Stock) :
  sumInt (fun _ => 1) l = Z.of_nat (List.length l).
Proof.
  induction l as [|d r IH]; [reflexivity|].
  rewrite sumInt_cons, IH. cbn [List.length]. lia.
Qed.

(** The three classes are the signs of [change]; the order of the database
    puts a [NaN] below zero. *)
Lemma isGainer_spec (d : Stock) : isGainer d = num_gt (change d) pos_zero.
Proof.
  unfold isGainer. destruct (change d) as [s|s| |s m e]; try destruct s; reflexivity.
Qed.

Lemma isLoser_spec (d : Stock) :
  isLoser d = num_lt (change d) pos_zero || is_nan (change d).
Proof.
  unfold isLoser. destruct (change d) as [s|s| |s m e]; try destruct s; reflexivity.
Qed.

Lemma isUnchanged_spec (d : Stock) : isUnchanged d = num_eq (change d) pos_zero.
Proof.
  unfold isUnchanged. destruct (change d) as [s|s| |s m e]; try destruct s; reflexivity.
Qed.

Lemma one_class (d : Stock) :
  cond10 (isGainer d) + cond10 (isLoser d) + cond10 (isUnchanged d) = 1.
Proof.
  unfold isGainer, isLoser, isUnchanged.
  now destruct (bson_compare (change d) pos_zero).
Qed.

Lemma classes_partition (l : list Stock) :
  sumInt (fun d => cond10 (isGainer d)) l
  + sumInt (fun d => cond10 (isLoser d)) l
  + sumInt (fun d => cond10 (isUnchanged d)) l
  = Z.of_nat (List.length l).
Proof.
  induction l as [|d r IH]; [reflexivity|].
  rewrite !sumInt_cons. pose proof (one_class d). cbn [List.length]. lia.
Qed.

Lemma StronglySorted_split {A : Type} (R : A -> A -> Prop) (l1 l2 : list A) :
  StronglySorted R (l1 ++ l2) ->
  forall x y, In x l1 -> In y l2 -> R x y.
Proof.
  induction l1 as [|a l1 IH]; simpl; intros H x y Hx Hy; [contradiction|].
  inversion H as [|? ? Hs Ha]; subst.
  destruct Hx as [<-|Hx]; [|now apply IH].
  apply (proj1 (Forall_forall _ _) Ha). apply in_or_app. now right.
Qed.

(** The first [n] documents of any arrangement of the store sorted by
    [scrapedAt], newest first, are [n] most recent ones. *)
Lemma most_recent_any_order (db sorted : list Stock) (n : nat) :
  Permutation sorted db ->
  StronglySorted (fun a b => byLatest a b = true) sorted ->
  List.length (firstn n sorted) = Nat.min n (List.length db) /\
  exists older,
    Permutation db (firstn n sorted ++ older) /\
    forall x y, In x (firstn n sorted) -> In y older ->
                scrapedAt y <= scrapedAt x.
Proof.
  intros Hperm Hsorted. split.
  - now rewrite length_firstn, (Permutation_length Hperm).
  - exists (skipn n sorted). rewrite firstn_skipn. split.
    + now apply Permutation_sym.
    + intros x y Hx Hy. rewrite <- (firstn_skipn n) in Hsorted.
      pose proof (StronglySorted_split _ _ _ Hsorted x y Hx Hy) as Hle.
      simpl in Hle. unfold byLatest in Hle. now apply Z.leb_le.
Qed.

(** The window is made of the 200 most recent documents. *)
Lemma recentWindow_recent (db : Store) :
  List.length (recentWindow db) = Nat.min 200 (List.length db) /\
  exists older,
    Permutation db (recentWindow db ++ older) /\
    forall x y, In x (recentWindow db) -> In y older ->
                scrapedAt y <= scrapedAt x.
Proof.
  apply most_recent_any_order;
    [apply sortBy_perm|apply sortBy_sorted; [exact byLatest_total|exact byLatest_trans]].
Qed.

Lemma getMarketSummary_window (db : Store) :
  recentWindow db <> [] ->
  getMarketSummary db =
    [ mkSummary (sumInt (fun _ => 1) (recentWindow db))
                (sumNum dailyVolume (recentWindow db))
                (sumNum dailyValue (recentWindow db))
                (num_div (sumNum close (recentWindow db))
                         (num_of_Z (sumInt (fun _ => 1) (recentWindow db))))
                (sumInt (fun d => cond10 (isGainer d)) (recentWindow db))
                (sumInt (fun d => cond10 (isLoser d)) (recentWindow db))
                (sumInt (fun d => cond10 (isUnchanged d)) (recentWindow db)) ].
Proof.
  unfold getMarketSummary. destruct (recentWindow db); [congruence|reflexivity].
Qed.

(** A document goes before the older ones and after the newer ones. *)
Lemma insertBy_before_older (x : Stock) (newer older : list Stock) :
  (forall y, In y older -> byLatest x y = true) ->
  insertBy byLatest x (newer ++ older) = insertBy byLatest x newer ++ older.
Proof.
  intro H. induction newer as [|a r IH]; cbn [insertBy app].
  - destruct older as [|y o]; [reflexivity|]. cbn [insertBy].
    now rewrite (H y (or_introl eq_refl)).
  - destruct (byLatest x a); [reflexivity|]. cbn [app]. now rewrite IH.
Qed.

Lemma insertBy_after_newer (x : Stock) (newer older : list Stock) :
  (forall a, In a newer -> byLatest x a = false) ->
  insertBy byLatest x (newer ++ older) = newer ++ insertBy byLatest x older.
Proof.
  intro H. induction newer as [|a r IH]; cbn [insertBy app]; [reflexivity|].
  rewrite (H a (or_introl eq_refl)). f_equal. apply IH.
  intros b Hb. apply H. now right.
Qed.

(** What was scraped since a time [t] comes before what was scraped
    earlier. *)
Lemma sortBy_since (t : Z) (db : Store) :
  sortBy byLatest db =
  sortBy byLatest (filter (scrapedSince t) db)
  ++ sortBy byLatest (filter (fun d => negb (scrapedSince t d)) db).
Proof.
  induction db as [|x l IH]; [reflexivity|].
  cbn [filter]. destruct (scrapedSince t x) eqn:Hx; cbn [negb];
    change (sortBy byLatest (x :: l)) with (insertBy byLatest x (sortBy byLatest l));
    rewrite IH; unfold scrapedSince in Hx.
  - change (sortBy byLatest (x :: filter (scrapedSince t) l))
      with (insertBy byLatest x (sortBy byLatest (filter (scrapedSince t) l))).
    apply insertBy_before_older. intros y Hy.
    apply sortBy_In, filter_In in Hy as [_ Hy]. unfold scrapedSince in Hy.
    apply negb_true_iff, Z.leb_gt in Hy. apply Z.leb_le in Hx.
    unfold byLatest. apply Z.leb_le. lia.
  - change (sortBy byLatest
              (x :: filter (fun d => negb (scrapedSince t d)) l))
      with (insertBy byLatest x
              (sortBy byLatest (filter (fun d => negb (scrapedSince t d)) l))).
    apply insertBy_after_newer. intros a Ha.
    apply sortBy_In, filter_In in Ha as [_ Ha]. unfold scrapedSince in Ha.
    apply Z.leb_le in Ha. apply Z.leb_gt in Hx.
    unfold byLatest. apply Z.leb_gt. lia.
Qed.

(** When 200 documents or more were scraped since [t], the window holds
    none that was scraped before. *)
Lemma recentWindow_since (t : Z) (db : Store) :
  (200 <= List.length (filter (scrapedSince t) db))%nat ->
  recentWindow db = recentWindow (filter (scrapedSince t) db).
Proof.
  intro H. unfold recentWindow. rewrite (sortBy_since t db), firstn_app.
  rewrite sortBy_length.
  replace (200 - List.length (filter (scrapedSince t) db))%nat
    with 0%nat by lia.
  cbn [firstn]. apply app_nil_r.
Qed.

(** C5: the summary is computed over the 200 most recent documents by
    [scrapedAt], whatever their symbols, and not over the whole history:
    it counts the documents of this window, each of them a gainer, a
    loser or unchanged by the sign of its [change]; its totals are the sums
    of [dailyVolume] and of [dailyValue] over the window and its average
    the sum of [close] over the window divided by the number of its
    documents; and once 200 documents were scraped since a time, what was
    scraped before does not count: the summary is the one of the collection
    without it.  Changes +1, -1 and 0 give one of each; on the empty store
    the route answers with the summary whose seven fields are 0. *)
Theorem marketSummary_over_recent_window (db : Store) :
  let w := recentWindow db in
  (List.length w = Nat.min 200 (List.length db) /\
   exists older,
     Permutation db (w ++ older) /\
     forall x y, In x w -> In y older -> scrapedAt y <= scrapedAt x) /\
  (db <> [] ->
   exists s,
     getMarketSummary db = [s] /\ getSummary db = Success s /\
     totalStocks s = Z.of_nat (List.length w) /\
     gainers s =
       Z.of_nat (List.length (filter (fun d => num_gt (change d) pos_zero) w)) /\
     losers s =
       Z.of_nat (List.length
         (filter (fun d => num_lt (change d) pos_zero || is_nan (change d)) w)) /\
     unchanged s =
       Z.of_nat (List.length (filter (fun d => num_eq (change d) pos_zero) w)) /\
     gainers s + losers s + unchanged s = totalStocks s /\
     totalVolume s = sumNum dailyVolume w /\
     totalValue s = sumNum dailyValue w /\
     avgPrice s =
       num_div (sumNum close w) (num_of_Z (Z.of_nat (List.length w)))) /\
  (forall t,
      (200 <= List.length (filter (scrapedSince t) db))%nat ->
      w = recentWindow (filter (scrapedSince t) db) /\
      (forall x, In x w -> t <= scrapedAt x) /\
      getMarketSummary db =
        getMarketSummary (filter (scrapedSince t) db) /\
      getSummary db = getSummary (filter (scrapedSince t) db)) /\
  (exists s, getSummary db = Success s) /\
  (exists s, getSummary sampleStore = Success s /\
             map change sampleStore = [num_of_Z 1; num_of_Z (-1); num_of_Z 0] /\
             gainers s = 1 /\ losers s = 1 /\ unchanged s = 1 /\
             map dailyVolume sampleStore
               = [num_of_Z 1000; num_of_Z 1000; num_of_Z 1000] /\
             map dailyValue sampleStore
               = [num_of_Z 5000; num_of_Z 5000; num_of_Z 5000] /\
             map close sampleStore = [num_of_Z 10; num_of_Z 20; num_of_Z 30] /\
             totalVolume s = num_of_Z 3000 /\
             totalValue s = num_of_Z 15000 /\
             avgPrice s = num_of_Z 20) /\
  (forall d d', symbol d = symbol d' ->
      exists s, getSummary [d; d'] = Success s /\ totalStocks s = 2) /\
  (getMarketSummary [] = [] /\
   getSummary [] = Success zeroSummary /\
   zeroSummary = mkSummary 0 pos_zero pos_zero pos_zero 0 0 0).
Proof.
  intro w. split; [apply recentWindow_recent|].
  split; [|split; [|split; [|split; [|split]]]].
  - intro Hne.
    assert (Hw : recentWindow db <> []).
    { intro E. pose proof (proj1 (recentWindow_recent db)) as L.
      rewrite E in L. destruct db; [congruence|simpl in L; lia]. }
    pose proof (getMarketSummary_window db Hw) as G.
    eexists. split; [exact G|]. split; [unfold getSummary; now rewrite G|].
    cbn [totalStocks gainers losers unchanged totalVolume totalValue avgPrice].
    subst w.
    rewrite <- (filter_ext _ _ isGainer_spec), <- (filter_ext _ _ isLoser_spec),
      <- (filter_ext _ _ isUnchanged_spec), <- !sumInt_count, sumInt_ones.
    repeat split; try reflexivity. apply classes_partition.
  - intros t Ht. subst w.
    pose proof (recentWindow_since t db Ht) as E.
    split; [exact E|]. split; [|split].
    + intros x Hx. rewrite E in Hx. unfold recentWindow in Hx.
      apply firstn_In, sortBy_In, filter_In in Hx as [_ Hx].
      unfold scrapedSince in Hx. now apply Z.leb_le.
    + unfold getMarketSummary. now rewrite E.
    + unfold getSummary, getMarketSummary. now rewrite E.
  - unfold getSummary. destruct (getMarketSummary db); eexists; reflexivity.
  - eexists. split; [vm_compute; reflexivity|]. repeat split; vm_compute; reflexivity.
  - intros d d' _. unfold getSummary, getMarketSummary, recentWindow. simpl.
    destruct (byLatest d d'); simpl; eexists; split; reflexivity.
  - repeat split.
Qed.

(* ----------------------------------------------------------------- *)
(** ** The filtered listing *)

Lemma strictCursor_regular : cursor_regular strictCursor.
Proof.
  intros x y n k l Hx Hy Hn Hk. unfold strictCursor. rewrite Hx, Hy.
  apply Z.ltb_lt in Hn. apply Z.leb_le in Hk. now rewrite Hn, Hk.
Qed.

(** The query depends on the six filter parameters only. *)
Lemma buildQuery_sameFilters (rt : Runtime) (q q' : Query.t) :
  sameFilters q q' -> buildQuery rt q = buildQuery rt q'.
Proof.
  intros (H1 & H2 & H3 & H4 & H5 & H6). unfold buildQuery.
  now rewrite H1, H2, H3, H4, H5, H6.
Qed.

(** The order on the path [symbol] in the two directions. *)
Lemma sortOptions_symbol (direction : Z) (a b : Stock) :
  sortOptions "symbol" direction a b =
  match String.compare (symbol a) (symbol b) with
  | Eq => true
  | Lt => 0 <? direction
  | Gt => direction <? 0
  end.
Proof. reflexivity. Qed.

Lemma sortOptions_symbol_asc (a b : Stock) :
  sortOptions "symbol" 1 a b = String.leb (symbol a) (symbol b).
Proof.
  rewrite sortOptions_symbol. unfold String.leb.
  now destruct (String.compare (symbol a) (symbol b)).
Qed.

Lemma sortOptions_symbol_desc (a b : Stock) :
  sortOptions "symbol" (-1) a b = String.leb (symbol b) (symbol a).
Proof.
  rewrite sortOptions_symbol. unfold String.leb.
  rewrite (String.compare_antisym (symbol a) (symbol b)).
  now destruct (String.compare (symbol b) (symbol a)).
Qed.

(** C6, as stated, fails: with [sortBy=price], a path outside the
    allow-list, and [sortOrder=desc], the listing is sorted by symbol in
    descending order, not ascending. *)
Lemma unknown_sort_field_keeps_direction :
  includes validSortFields "price" = false /\
  map symbol sampleStore = ["AAA"; "BBB"; "CCC"] /\
  exists listing,
    listStocks sampleRuntime unknownSortDesc sampleStore = Success listing /\
    map symbol (data listing) = ["CCC"; "BBB"; "AAA"] /\
    ~ StronglySorted (fun a b => String.leb (symbol a) (symbol b) = true)
        (data listing).
Proof.
  split; [reflexivity|]. split; [vm_compute; reflexivity|].
  eexists. split; [vm_compute; reflexivity|]. split; [reflexivity|].
  intro H. inversion H as [|? ? _ Hall]; subst.
  inversion Hall as [|? ? Hle _]; subst. vm_compute in Hle. discriminate.
Qed.

(** C6, amended: a sort field outside the allow-list falls back to the
    symbol, in the requested direction (ascending unless [sortOrder] is
    ['desc']); a field of the list is kept.  When the query builds and
    [limit] and [(page - 1) * limit] are whole numbers [n >= 1] and
    [k >= 0], the listing holds the [n] matching documents that follow the
    first [k] in that order.  The total is the number of documents that
    match the filters, for every successful request, and so the same for
    requests that differ in page and limit only. *)
Theorem listing_sort_skip_total (rt : Runtime) (q : Query.t) (db : Store) :
  cursor_regular (cursor rt) ->
  let descending := String.eqb (withDefault (Query.sortOrder q) "asc") "desc" in
  let bySymbolAsRequested (a b : Stock) :=
    if descending then String.leb (symbol b) (symbol a)
    else String.leb (symbol a) (symbol b) in
  (includes validSortFields (withDefault (Query.sortBy q) "symbol") = false ->
   sortField q = "symbol" /\
   (forall a b,
       sortOptions (sortField q) (sortDirection q) a b = bySymbolAsRequested a b) /\
   (forall query,
       StronglySorted (fun a b => bySymbolAsRequested a b = true)
                      (sortedMatches query q db))) /\
  (includes validSortFields (withDefault (Query.sortBy q) "symbol") = true ->
   sortField q = withDefault (Query.sortBy q) "symbol") /\
  skipOf q = num_mul (num_sub (ToNumber (pageValue q)) (num_of_Z 1))
                     (ToNumber (limitValue q)) /\
  (forall query n k,
      buildQuery rt q = Ok query ->
      num_to_Z (ToNumber (limitValue q)) = Some n -> 0 < n ->
      num_to_Z (skipOf q) = Some k -> 0 <= k ->
      exists listing,
        listStocks rt q db = Success listing /\
        data listing =
          firstn (Z.to_nat n) (skipn (Z.to_nat k) (sortedMatches query q db)) /\
        total (pagination listing) =
          Z.of_nat (List.length (filter (matchesFilter query) db))) /\
  (forall listing,
      listStocks rt q db = Success listing ->
      exists query,
        buildQuery rt q = Ok query /\
        total (pagination listing) =
          Z.of_nat (List.length (filter (matchesFilter query) db))) /\
  (forall q' listing listing',
      sameFilters q q' ->
      listStocks rt q db = Success listing ->
      listStocks rt q' db = Success listing' ->
      total (pagination listing) = total (pagination listing')).
Proof.
  intros Hreg descending bySymbolAsRequested.
  assert (Htotal : forall q0 listing,
             listStocks rt q0 db = Success listing ->
             exists query,
               buildQuery rt q0 = Ok query /\
               total (pagination listing) =
                 Z.of_nat (List.length (filter (matchesFilter query) db))).
  { intros q0 listing. unfold listStocks.
    destruct (buildQuery rt q0) as [query|e]; [|discriminate].
    destruct (cursor rt _ _ _) as [stocks|e]; [|discriminate].
    intro E. injection E as <-. exists query. now split. }
  split; [|split; [|split; [|split; [|split]]]].
  - intro Hout.
    assert (Hf : sortField q = "symbol") by (unfold sortField; now rewrite Hout).
    assert (Hord : forall a b,
               sortOptions (sortField q) (sortDirection q) a b
               = bySymbolAsRequested a b).
    { intros a b. rewrite Hf. unfold sortDirection, bySymbolAsRequested, descending.
      destruct (String.eqb (withDefault (Query.sortOrder q) "asc") "desc");
        [apply sortOptions_symbol_desc|apply sortOptions_symbol_asc]. }
    split; [exact Hf|]. split; [exact Hord|].
    intro query. unfold sortedMatches.
    eapply StronglySorted_impl; [|apply sortBy_sorted].
    + intros a b. simpl. now rewrite Hord.
    + intros a b. rewrite !Hord. unfold bySymbolAsRequested.
      destruct descending; [destruct (String.leb_total (symbol b) (symbol a))|];
        auto using String.leb_total.
    + intros a b c. rewrite !Hord. unfold bySymbolAsRequested.
      destruct descending; intros H1 H2; eapply string_leb_trans; eassumption.
  - intro Hin. unfold sortField. now rewrite Hin.
  - reflexivity.
  - intros query n k Hq Hn Hn0 Hk Hk0. unfold listStocks. rewrite Hq.
    rewrite (Hreg _ _ n k _ Hn Hk Hn0 Hk0).
    eexists. split; [reflexivity|]. split; reflexivity.
  - apply Htotal.
  - intros q' listing listing' Hsame H1 H2.
    destruct (Htotal q listing H1) as (query & Hb & ->).
    destruct (Htotal q' listing' H2) as (query' & Hb' & ->).
    rewrite (buildQuery_sameFilters rt q q' Hsame) in Hb.
    rewrite Hb in Hb'. now injection Hb' as <-.
Qed.

(* ----------------------------------------------------------------- *)
(** ** Evaluations *)

Example cleanSymbol_sample : cleanSymbol (Some " mtn-n 1") = "MTNN1".
Proof. reflexivity. Qed.

Example parseFloat_samples :
  parseFloat "1.2.3" = parseFloat "1.2" /\
  parseFloat "-" = NaN /\
  parseFloat "." = NaN /\
  parseFloat "-.5" = parseFloat "-0.5" /\
  parseFloat "12e3x" = num_of_Z 12000 /\
  parseFloat "-0" = S754_zero true /\
  parseFloat "1e309" = Infinity.
Proof. repeat split; vm_compute; reflexivity. Qed.

Example parseNumber_samples :
  parseNumber (Some "1,234,500") = num_of_Z 1234500 /\
  parseNumber (Some "-0.5") = parseFloat "-0.5" /\
  parseNumber (Some "5-3") = num_of_Z 5 /\
  parseNumber (Some "--5") = pos_zero /\
  parseNumber (Some "-0") = pos_zero /\
  parseNumber (Some "n/a") = pos_zero /\
  is_finite (parseNumber (Some (nines 308))) = true.
Proof. repeat split; vm_compute; reflexivity. Qed.

Example StringToNumber_samples :
  StringToNumber " 12 " = num_of_Z 12 /\
  StringToNumber "" = pos_zero /\
  StringToNumber "0x1F" = num_of_Z 31 /\
  StringToNumber "12px" = NaN.
Proof. repeat split; vm_compute; reflexivity. Qed.

(** The header, the unparsed close and the short row of [sampleRows] leave
    no record. *)
Example extractStocks_sample :
  map Raw.symbol (extractStocks sampleRows) = ["ZENITH"; "MTNN"; "GTCO"; "FBNH"].
Proof. vm_compute. reflexivity. Qed.

(** A second scrape of the same page updates the four documents. *)
Example scrape_twice_sample :
  let db := fst (scrapeStockData (Ok sampleRows) (fun i => 5 + sampleClock i)
                   noRejection scrapedStore) in
  map symbol db = ["ZENITH"; "MTNN"; "GTCO"; "FBNH"] /\
  map _id db = [1; 2; 3; 4]%nat /\
  map scrapedAt db = map (fun t => t + 5) (map scrapedAt scrapedStore).
Proof. repeat split; vm_compute; reflexivity. Qed.

(** A page that never shows more than five rows times out and saves
    nothing. *)
Example scrape_timeout_sample :
  scrapeStockData (Ok (firstn 5 sampleRows)) sampleClock noRejection [] = ([], []).
Proof. reflexivity. Qed.

Example findLatest_sample :
  exists out, findLatest 2 sampleStore = Ok out /\ map symbol out = ["AAA"; "BBB"].
Proof. eexists. split; vm_compute; reflexivity. Qed.

(** The getter's guard on [close]: on a document whose close is 0, which
    the extraction never stores, it returns 0 where the quotient is -100. *)
Example changePercent_close_zero :
  let d := mkStock 1 "AAA" "AAA" pos_zero pos_zero pos_zero pos_zero
             (num_of_Z 5) pos_zero pos_zero 0 in
  changePercent d = pos_zero /\
  num_mul (num_div (change d) (num_sub (close d) (change d))) (num_of_Z 100)
  = num_of_Z (-100).
Proof. split; vm_compute; reflexivity. Qed.

(* ----------------------------------------------------------------- *)
(** ** Instances *)

(** C9 on the first document of a scraped page:
    0.50 / (45.50 - 0.50) * 100. *)
Lemma changePercent_formula_zenith :
  scraped scrapedStore /\
  In zenith scrapedStore /\
  changePercent zenith =
    num_mul (num_div (parseNumber (Some "0.50"))
                     (num_sub (parseNumber (Some "45.50"))
                              (parseNumber (Some "0.50"))))
            (num_of_Z 100).
Proof.
  assert (S : scraped scrapedStore)
    by exact (scraped_cycle (Ok sampleRows) sampleClock noRejection [] scraped_empty).
  assert (I : In zenith scrapedStore) by (vm_compute; left; reflexivity).
  split; [exact S|]. split; [exact I|].
  rewrite (proj1 (changePercent_formula scrapedStore zenith S I)).
  vm_compute. reflexivity.
Defined.

(** C6 on the second page of one document, by descending close: the
    cheapest but one of the three sample stocks. *)
Lemma listing_sort_skip_total_second_page :
  cursor_regular (cursor sampleRuntime) /\
  exists listing,
    listStocks sampleRuntime secondPage sampleStore = Success listing /\
    map symbol (data listing) = ["BBB"] /\
    total (pagination listing) = 3.
Proof.
  split; [exact strictCursor_regular|].
  destruct (listing_sort_skip_total sampleRuntime secondPage sampleStore
              strictCursor_regular) as (_ & _ & _ & Hpage & _).
  destruct (Hpage (mkFilter None None None None None None) 1 1)
    as (listing & Hl & Hd & Ht).
  - reflexivity.
  - vm_compute. reflexivity.
  - lia.
  - vm_compute. reflexivity.
  - lia.
  - exists listing. split; [exact Hl|]. split.
    + rewrite Hd. vm_compute. reflexivity.
    + rewrite Ht. vm_compute. reflexivity.
Defined.

(* ================================================================= *)
(** * Further properties *)

(** ** The normalizer, continued *)

Lemma filterStr_idem (p : ascii -> bool) (s : string) :
  filterStr p (filterStr p s) = filterStr p s.
Proof.
  induction s as [|c r IH]; simpl; [reflexivity|].
  destruct (p c) eqn:E; simpl; [now rewrite E, IH|exact IH].
Qed.

Lemma upperChar_isAlnum (c : ascii) : isAlnum (upperChar c) = isAlnum c.
Proof. destruct c as [[] [] [] [] [] [] [] []]; reflexivity. Qed.

Lemma filterStr_upper (s : string) :
  filterStr isAlnum (toUpperCase s) = toUpperCase (filterStr isAlnum s).
Proof.
  induction s as [|c r IH]; simpl; [reflexivity|].
  rewrite upperChar_isAlnum. destruct (isAlnum c); simpl; now rewrite IH.
Qed.

Lemma filterStr_empty (p : ascii -> bool) (s : string) :
  filterStr p s = "" <-> allStr (fun c => negb (p c)) s = true.
Proof.
  induction s as [|c r IH]; simpl; [tauto|].
  destruct (p c); simpl; [split; discriminate|exact IH].
Qed.

(** X1: cleaning a symbol twice is cleaning it once; in an ASCII text the
    case of the letters does not matter; and the result is empty exactly
    when the text has no ASCII letter and no digit. *)
Theorem cleanSymbol_idempotent :
  (forall str, cleanSymbol (Some (cleanSymbol str)) = cleanSymbol str) /\
  (forall s, allStr isAscii s = true ->
             cleanSymbol (Some (toUpperCase s)) = cleanSymbol (Some s)) /\
  (forall s, cleanSymbol (Some s) = "" <->
             allStr (fun c => negb (isAlnum c)) s = true).
Proof.
  split; [|split].
  - intro str. unfold cleanSymbol.
    now rewrite filterStr_upper, filterStr_idem, toUpperCase_idem.
  - intros s _. unfold cleanSymbol.
    now rewrite filterStr_upper, toUpperCase_idem.
  - intro s. unfold cleanSymbol. rewrite <- filterStr_empty.
    destruct (filterStr isAlnum s); simpl; split; congruence.
Qed.

Lemma trimStart_split (s : string) :
  exists pre, s = (pre ++ trimStart s)%string /\ allStr isSpace pre = true.
Proof.
  induction s as [|c r IH]; simpl; [now exists ""|].
  destruct (isSpace c) eqn:E.
  - destruct IH as (pre & Hs & Hp). exists (String c pre). simpl.
    rewrite E, Hp. split; [now rewrite <- Hs|reflexivity].
  - now exists "".
Qed.

Lemma trimEnd_split (s : string) :
  exists post, s = (trimEnd s ++ post)%string /\ allStr isSpace post = true.
Proof.
  induction s as [|c r IH]; simpl; [now exists ""|].
  destruct IH as (post & Hs & Hp).
  destruct (isSpace c && isEmpty (trimEnd r)) eqn:E.
  - apply andb_true_iff in E as [Ec Ee].
    destruct (trimEnd r); [|discriminate]. simpl in Hs.
    exists (String c post). simpl. rewrite Ec, Hp. split; [now rewrite <- Hs|reflexivity].
  - exists post. simpl. split; [now rewrite <- Hs|exact Hp].
Qed.

Lemma trimStart_first (s : string) (c : ascii) (r : string) :
  trimStart s = String c r -> isSpace c = false.
Proof.
  intro H. pose proof (trimStart_head s) as F. now rewrite H in F.
Qed.

Lemma trimEnd_last (s : string) (r : string) (c : ascii) :
  trimEnd s = (r ++ String c "")%string -> isSpace c = false.
Proof.
  revert r. induction s as [|a t IH]; simpl; intros r H.
  - destruct r; discriminate.
  - destruct (isSpace a && isEmpty (trimEnd t)) eqn:E.
    + destruct r; discriminate.
    + destruct r as [|b r']; simpl in H.
      * injection H as -> Ht. rewrite Ht in E. simpl in E.
        now rewrite andb_true_r in E.
      * injection H as _ Ht. exact (IH r' Ht).
Qed.

Lemma trimEnd_head (s : string) (c : ascii) (r : string) :
  trimEnd s = String c r ->
  exists t, s = String c t.
Proof.
  destruct s as [|a t]; simpl; [discriminate|].
  destruct (isSpace a && isEmpty (trimEnd t)); [discriminate|].
  intro H. injection H as <- _. now exists t.
Qed.

(** X2: of an ASCII text [cleanText] removes the white space before and
    after it and nothing else: the text is white space, then the result,
    then white space, and the result neither begins nor ends with a white
    space.  Cleaning twice is cleaning once, and an absent cell gives the
    empty text. *)
Theorem cleanText_strips_only_surrounding_space :
  (forall s, allStr isAscii s = true ->
      exists pre post,
        s = (pre ++ cleanText (Some s) ++ post)%string /\
        allStr isSpace pre = true /\ allStr isSpace post = true /\
        (forall c r, cleanText (Some s) = String c r -> isSpace c = false) /\
        (forall r c, cleanText (Some s) = (r ++ String c "")%string ->
                     isSpace c = false)) /\
  (forall str, cleanText (Some (cleanText str)) = cleanText str) /\
  cleanText None = "".
Proof.
  split; [|split; [|reflexivity]].
  - intros s _. unfold cleanText, trim.
    destruct (trimStart_split s) as (pre & Hs & Hp).
    destruct (trimEnd_split (trimStart s)) as (post & Ht & Hq).
    exists pre, post. split; [now rewrite <- Ht|].
    split; [exact Hp|]. split; [exact Hq|]. split.
    + intros c r H. destruct (trimEnd_head _ _ _ H) as [t Et].
      exact (trimStart_first s c t Et).
    + intros r c H. exact (trimEnd_last _ _ _ H).
  - intro str. unfold cleanText. apply trim_idem.
Qed.

(** [parseNumber] as a function of the cleaned text. *)
Lemma parseNumber_cleaned (s : string) :
  parseNumber (Some s) =
  (let v := parseFloat (filterStr isNumeric s) in
   if num_truthy v then v else pos_zero).
Proof.
  unfold parseNumber.
  destruct (isEmpty s) eqn:E1; [destruct s; [reflexivity|discriminate]|].
  destruct (String.eqb_spec s "-") as [->|_]; [reflexivity|].
  destruct (String.eqb_spec s "N/A") as [->|_]; [reflexivity|].
  reflexivity.
Qed.

(** X3: what [parseNumber] returns depends on the digits, dots and minus
    signs of the text only: two texts with the same such characters in the
    same order parse to the same number. *)
Theorem parseNumber_reads_numeric_characters_only (s t : string) :
  filterStr isNumeric s = filterStr isNumeric t ->
  parseNumber (Some s) = parseNumber (Some t).
Proof. intro H. now rewrite !parseNumber_cleaned, H. Qed.

Lemma binary_round_aux_sign (m e : Z) (l : location) :
  num_lt (binary_round_aux prec emax false m e l) pos_zero = false.
Proof.
  unfold binary_round_aux.
  destruct (shr_fexp prec emax m e l) as [mrs' e'].
  destruct (shr_fexp prec emax _ e' loc_Exact) as [mrs'' e''].
  destruct (shr_m mrs''); [reflexivity| |reflexivity].
  now destruct (Z.leb e'' (emax - prec)).
Qed.

Lemma num_div_sign (p q : positive) :
  num_lt (num_div (S754_finite false p 0) (S754_finite false q 0)) pos_zero
  = false.
Proof.
  unfold num_div, SFdiv.
  destruct (SFdiv_core_binary prec emax (Zpos p) 0 (Zpos q) 0) as [[mz ez] lz].
  apply binary_round_aux_sign.
Qed.

(** An unsigned literal does not denote a negative number. *)
Lemma round_decimal_sign (m e10 : Z) :
  num_lt (round_decimal false m e10) pos_zero = false.
Proof.
  unfold round_decimal.
  destruct m; [reflexivity| |reflexivity].
  destruct e10; apply num_div_sign.
Qed.

Lemma takeUnsignedDecimal_sign (s r : string) (v : number) :
  takeUnsignedDecimal false s = Some (v, r) -> num_lt v pos_zero = false.
Proof.
  unfold takeUnsignedDecimal.
  destruct (stripPrefix "Infinity" s); [intro H; now injection H as <- _|].
  destruct (takeDigits s 0 0) as [[i ni] r1].
  destruct (match r1 with
            | EmptyString => (0, 0, r1)
            | String c r' => _
            end) as [[f nf] r2].
  destruct ((ni =? 0) && (nf =? 0)); [discriminate|].
  destruct (takeExponent r2) as [e r3].
  intro H. injection H as <- _. apply round_decimal_sign.
Qed.

Lemma allStr_filterStr (p q : ascii -> bool) (s : string) :
  allStr p s = true -> allStr p (filterStr q s) = true.
Proof.
  induction s as [|c r IH]; simpl; [reflexivity|].
  intro H. apply andb_true_iff in H as [Hc Hr].
  destruct (q c); simpl; [now rewrite Hc, IH|now apply IH].
Qed.

Lemma allStr_trimStart (p : ascii -> bool) (s : string) :
  allStr p s = true -> allStr p (trimStart s) = true.
Proof.
  induction s as [|c r IH]; simpl; [reflexivity|].
  intro H. destruct (isSpace c); [|exact H].
  apply andb_true_iff in H as [_ Hr]. now apply IH.
Qed.

Lemma parseFloat_sign (s : string) :
  allStr (fun c => negb (Ascii.eqb c "-")) s = true ->
  num_lt (parseFloat s) pos_zero = false.
Proof.
  intro H. apply allStr_trimStart in H. unfold parseFloat, takeDecimal.
  destruct (trimStart s) as [|c r]; [reflexivity|].
  simpl in H. apply andb_true_iff in H as [Hc _]. apply negb_true_iff in Hc.
  rewrite Hc.
  destruct (Ascii.eqb c "+").
  - destruct (takeUnsignedDecimal false r) as [[v r']|] eqn:E; [|reflexivity].
    now apply takeUnsignedDecimal_sign in E.
  - destruct (takeUnsignedDecimal false (String c r)) as [[v r']|] eqn:E;
      [|reflexivity].
    now apply takeUnsignedDecimal_sign in E.
Qed.

(** X4: a text without a minus sign never parses to a negative number. *)
Theorem parseNumber_without_minus_is_not_negative (s : string) :
  allStr (fun c => negb (Ascii.eqb c "-")) s = true ->
  num_lt (parseNumber (Some s)) pos_zero = false.
Proof.
  intro H. rewrite parseNumber_cleaned. cbv zeta.
  pose proof (parseFloat_sign _ (allStr_filterStr _ isNumeric s H)) as Hv.
  now destruct (num_truthy (parseFloat (filterStr isNumeric s))).
Qed.

(* ----------------------------------------------------------------- *)
(** ** The extractor, continued *)

Lemma mapRows_length (rows : list Row) :
  (List.length (mapRows rows) <= List.length rows)%nat.
Proof.
  induction rows as [|cells rest IH]; simpl; [lia|].
  destruct (rowToStock cells); simpl; lia.
Qed.

(** X5: the rows are extracted one by one and in order: the records of a
    table are those of its upper part followed by those of its lower
    part, there are never more records than rows, and a row without [td]
    cells, such as a header, gives none. *)
Theorem extractStocks_row_by_row :
  (forall rows1 rows2,
      extractStocks (rows1 ++ rows2) = extractStocks rows1 ++ extractStocks rows2) /\
  (forall rows, (List.length (extractStocks rows) <= List.length rows)%nat) /\
  (forall rows, extractStocks ([] :: rows) = extractStocks rows) /\
  extractStocks [] = [].
Proof.
  split; [|split; [|split]]; try reflexivity.
  - intros rows1 rows2. unfold extractStocks.
    now rewrite mapRows_app, filter_app.
  - intro rows. unfold extractStocks.
    pose proof (filter_length_le validStock (mapRows rows)).
    pose proof (mapRows_length rows). lia.
Qed.

(* ----------------------------------------------------------------- *)
(** ** The rendering context *)

Lemma selectFrame_frame (frames : list Frame) (f : Frame) :
  selectFrame frames = TheFrame f ->
  (1 < List.length frames)%nat /\
  exists before after,
    frames = before ++ f :: after /\
    contains "equities-price-listing" (frameUrl f) = true /\
    forall g, In g before ->
              contains "equities-price-listing" (frameUrl g) = false.
Proof.
  unfold selectFrame.
  destruct (1 <? List.length frames)%nat eqn:L; [|discriminate].
  apply Nat.ltb_lt in L. split; [exact L|].
  clear L. revert H. induction frames as [|g rest IH]; simpl; [discriminate|].
  destruct (contains "equities-price-listing" (frameUrl g)) eqn:E.
  - intro H. injection H as <-. exists [], rest. simpl.
    split; [reflexivity|]. split; [exact E|intros ? []].
  - intro H. destruct (IH H) as (before & after & -> & Hc & Hb).
    exists (g :: before), after. split; [reflexivity|]. split; [exact Hc|].
    intros h [<-|Hh]; [exact E|now apply Hb].
Qed.

(** X6: a frame is read instead of the page only when the page has
    several frames, and then it is the first frame whose URL has the
    marker.  The address the scraper navigates to has the marker itself,
    so that, the main frame being the first of the frames, a page that
    stays at this address is always read from its main document, whatever
    frames it embeds. *)
Theorem selectFrame_prefers_first_marked_frame :
  (forall frames f,
      selectFrame frames = TheFrame f ->
      (1 < List.length frames)%nat /\
      exists before after,
        frames = before ++ f :: after /\
        contains "equities-price-listing" (frameUrl f) = true /\
        forall g, In g before ->
                  contains "equities-price-listing" (frameUrl g) = false) /\
  (forall frames,
      (forall g, In g frames ->
                 contains "equities-price-listing" (frameUrl g) = false) ->
      selectFrame frames = ThePage) /\
  (forall main embedded,
      frameUrl main = targetUrl ->
      selectFrame (main :: embedded) =
        match embedded with
        | [] => ThePage
        | _ => TheFrame main
        end).
Proof.
  split; [exact selectFrame_frame|]. split.
  - intros frames H. unfold selectFrame.
    destruct (1 <? List.length frames)%nat; [|reflexivity].
    destruct (find _ frames) as [f|] eqn:E; [|reflexivity].
    apply find_some in E as [Hin Hc]. rewrite (H f Hin) in Hc. discriminate.
  - intros main embedded Hu. unfold selectFrame. simpl find. rewrite Hu.
    assert (Hm : contains "equities-price-listing" targetUrl = true)
      by (vm_compute; reflexivity).
    rewrite Hm. now destruct embedded.
Qed.

(* ----------------------------------------------------------------- *)
(** ** The upsert, continued *)

Lemma find_skip {A : Type} (p : A -> bool) (pre l : list A) :
  (forall x, In x pre -> p x = false) -> find p (pre ++ l) = find p l.
Proof.
  induction pre as [|a pre IH]; simpl; intro H; [reflexivity|].
  rewrite (H a (or_introl eq_refl)). apply IH. intros x Hx. apply H. now right.
Qed.

Lemma find_append {A : Type} (p : A -> bool) (l1 l2 : list A) :
  find p (l1 ++ l2) =
  match find p l1 with
  | Some x => Some x
  | None => find p l2
  end.
Proof.
  induction l1 as [|a l1 IH]; simpl; [reflexivity|].
  now destruct (p a).
Qed.

Lemma matchesSymbol_false (s : string) (d : Stock) :
  symbol d <> setSymbol s -> matchesSymbol s d = false.
Proof. intro H. unfold matchesSymbol. now apply String.eqb_neq. Qed.

(** What the upsert of [stockInfo] does to the first document of any
    symbol. *)
Lemma findOne_findOneAndUpdate (stockInfo : StockInfo) (db : Store) (s : string) :
  findOne s (fst (findOneAndUpdate stockInfo db)) =
  if String.eqb (setSymbol s) (keyOf stockInfo)
  then Some (snd (findOneAndUpdate stockInfo db))
  else findOne s db.
Proof.
  unfold findOneAndUpdate.
  destruct (updateFirst stockInfo db) as [[db' d']|] eqn:E; simpl.
  - destruct (updateFirst_some _ _ _ _ E)
      as (pre & d & post & -> & Hpre & Hd & _ & -> & ->).
    unfold findOne. destruct (String.eqb_spec (setSymbol s) (keyOf stockInfo)) as [Hk|Hk].
    + rewrite find_skip.
      * simpl. unfold matchesSymbol at 1. rewrite applyUpdate_symbol, Hk.
        now rewrite String.eqb_refl.
      * intros x Hx. apply matchesSymbol_false. rewrite Hk. now apply Hpre.
    + rewrite !find_append. destruct (find (matchesSymbol s) pre); [reflexivity|].
      simpl. rewrite !matchesSymbol_false; [reflexivity| |].
      * rewrite Hd. congruence.
      * rewrite applyUpdate_symbol. congruence.
  - apply updateFirst_none in E.
    pose proof (proj1 (findOne_none _ _) E) as Hno.
    unfold findOne. destruct (String.eqb_spec (setSymbol s) (keyOf stockInfo)) as [Hk|Hk].
    + rewrite find_skip.
      * simpl. unfold matchesSymbol. unfold newStock.
        rewrite applyUpdate_symbol, Hk. now rewrite String.eqb_refl.
      * intros x Hx. apply matchesSymbol_false. rewrite Hk. now apply Hno.
    + rewrite find_append. destruct (find (matchesSymbol s) db); [reflexivity|].
      simpl. rewrite matchesSymbol_false; [reflexivity|].
      unfold newStock. rewrite applyUpdate_symbol. congruence.
Qed.

(** X7: what is saved can be looked up.  Right after the upsert of a
    record, in any collection, the lookup by its symbol finds the document
    the upsert returned, and so does the route [GET /:symbol] for every
    spelling of the symbol that the setters bring to the same key. *)
Theorem lookup_after_upsert (stockInfo : StockInfo) (db : Store) :
  let db' := fst (findOneAndUpdate stockInfo db) in
  let saved := snd (findOneAndUpdate stockInfo db) in
  findOne (Raw.symbol (info_stock stockInfo)) db' = Some saved /\
  (forall param,
      setSymbol param = keyOf stockInfo ->
      getBySymbol param db' = Success saved) /\
  (forall s,
      setSymbol s <> keyOf stockInfo -> findOne s db' = findOne s db).
Proof.
  intros db' saved. subst db' saved. split; [|split].
  - rewrite findOne_findOneAndUpdate. unfold keyOf. now rewrite String.eqb_refl.
  - intros param H. unfold getBySymbol.
    rewrite findOne_findOneAndUpdate, setSymbol_toUpperCase, H.
    now rewrite String.eqb_refl.
  - intros s H. rewrite findOne_findOneAndUpdate.
    apply String.eqb_neq in H. now rewrite H.
Qed.

Lemma updateFirst_again (stockInfo : StockInfo) (db db' : Store) (d' : Stock) :
  updateFirst stockInfo db = Some (db', d') ->
  updateFirst stockInfo db' = Some (db', d').
Proof.
  revert db'. induction db as [|d rest IH]; simpl; intros db' H; [discriminate|].
  destruct (matchesSymbol (Raw.symbol (info_stock stockInfo)) d) eqn:E.
  - injection H as <- <-. simpl.
    assert (M : matchesSymbol (Raw.symbol (info_stock stockInfo))
                  (applyUpdate stockInfo d) = true)
      by (apply matchesSymbol_spec; reflexivity).
    now rewrite M.
  - destruct (updateFirst stockInfo rest) as [[rest' d1]|]; [|discriminate].
    injection H as <- <-. simpl. rewrite E. now rewrite (IH rest' eq_refl).
Qed.

Lemma updateFirst_append (stockInfo : StockInfo) (db : Store) (d : Stock) :
  updateFirst stockInfo db = None ->
  matchesSymbol (Raw.symbol (info_stock stockInfo)) d = true ->
  updateFirst stockInfo (db ++ [d]) =
    Some (db ++ [applyUpdate stockInfo d], applyUpdate stockInfo d).
Proof.
  induction db as [|a rest IH]; simpl; intros H M; [now rewrite M|].
  destruct (matchesSymbol (Raw.symbol (info_stock stockInfo)) a); [discriminate|].
  destruct (updateFirst stockInfo rest) as [[rest' d1]|]; [discriminate|].
  now rewrite (IH eq_refl M).
Qed.

Lemma findOneAndUpdate_again (stockInfo : StockInfo) (db : Store) :
  findOneAndUpdate stockInfo (fst (findOneAndUpdate stockInfo db)) =
  findOneAndUpdate stockInfo db.
Proof.
  unfold findOneAndUpdate at 2 3.
  destruct (updateFirst stockInfo db) as [[db' d']|] eqn:E; simpl.
  - unfold findOneAndUpdate. now rewrite (updateFirst_again _ _ _ _ E).
  - unfold findOneAndUpdate.
    rewrite (updateFirst_append stockInfo db (newStock stockInfo db) E);
      [reflexivity|].
    apply matchesSymbol_spec. reflexivity.
Qed.

(** X8: the upsert is idempotent on the schema paths: saving a record a
    second time, with the same time of scrape, adds no document and leaves
    the [_id] and every schema path of every document as the first save
    left them, and the document it returns has the [_id] and the schema
    paths of the one the first save returned. *)
Theorem upsert_idempotent (stockInfo : StockInfo) (db : Store) :
  let once := findOneAndUpdate stockInfo db in
  let twice := findOneAndUpdate stockInfo (fst once) in
  List.length (fst twice) = List.length (fst once) /\
  map _id (fst twice) = map _id (fst once) /\
  map schemaPaths (fst twice) = map schemaPaths (fst once) /\
  _id (snd twice) = _id (snd once) /\
  schemaPaths (snd twice) = schemaPaths (snd once) /\
  schemaPaths (snd once) =
    (keyOf stockInfo, setSecurityName (Raw.securityName (info_stock stockInfo)),
     (Raw.open (info_stock stockInfo), Raw.high (info_stock stockInfo),
      Raw.low (info_stock stockInfo), Raw.close (info_stock stockInfo)),
     (Raw.change (info_stock stockInfo), Raw.dailyVolume (info_stock stockInfo),
      Raw.dailyValue (info_stock stockInfo)),
     info_scrapedAt stockInfo).
Proof.
  intros once twice. subst once twice.
  rewrite findOneAndUpdate_again. repeat split; try reflexivity.
  destruct (findOneAndUpdate_saved stockInfo db) as [_ [d0 ->]]. reflexivity.
Qed.

(* ----------------------------------------------------------------- *)
(** ** The batch save, continued *)

Lemma findOneAndUpdate_ids (stockInfo : StockInfo) (db : Store) :
  map _id (fst (findOneAndUpdate stockInfo db)) =
  match findOne (Raw.symbol (info_stock stockInfo)) db with
  | Some _ => map _id db
  | None => map _id db ++ [freshId db]
  end.
Proof.
  unfold findOneAndUpdate.
  destruct (updateFirst stockInfo db) as [[db' d']|] eqn:E.
  - destruct (updateFirst_some _ _ _ _ E) as (pre & d & post & -> & _ & _ & Hf & -> & ->).
    rewrite Hf. simpl. now rewrite !map_app.
  - apply updateFirst_none in E. rewrite E. simpl. now rewrite map_app.
Qed.

Lemma findOneAndUpdate_keeps (stockInfo : StockInfo) (db : Store) (d : Stock) :
  In d db -> symbol d <> keyOf stockInfo ->
  In d (fst (findOneAndUpdate stockInfo db)).
Proof.
  intros Hd Hs. unfold findOneAndUpdate.
  destruct (updateFirst stockInfo db) as [[db' d']|] eqn:E; simpl.
  - destruct (updateFirst_some _ _ _ _ E) as (pre & d0 & post & -> & _ & H0 & _ & _ & ->).
    apply in_app_or in Hd as [Hd|[Hd|Hd]].
    + apply in_or_app. now left.
    + subst d0. contradiction.
    + apply in_or_app. right. now right.
  - apply in_or_app. now left.
Qed.

Lemma findOne_present (s : string) (db : Store) :
  In (setSymbol s) (map symbol db) -> exists d, findOne s db = Some d.
Proof.
  intro H. destruct (findOne s db) as [d|] eqn:E; [now exists d|].
  apply in_map_iff in H as (x & Hx & Hin).
  now destruct (proj1 (findOne_none _ _) E x Hin).
Qed.

Lemma findOneAndUpdate_symbols_grow (stockInfo : StockInfo) (db : Store) :
  incl (map symbol db) (map symbol (fst (findOneAndUpdate stockInfo db))) /\
  In (keyOf stockInfo) (map symbol (fst (findOneAndUpdate stockInfo db))).
Proof.
  rewrite findOneAndUpdate_symbols.
  destruct (findOne (Raw.symbol (info_stock stockInfo)) db) as [d|] eqn:E.
  - split; [apply incl_refl|].
    apply findOne_some in E as [Hd Hs]. apply in_map_iff. now exists d.
  - split; [apply incl_appl, incl_refl|]. apply in_or_app. right. now left.
Qed.

(** The store after a loop that nothing interrupts is the store after the
    upserts of the records in turn. *)
Lemma saveLoop_store (stockData : list StockInfo) :
  forall i db savedStocks,
    fst (saveLoop noRejection i stockData db savedStocks) =
    fold_left (fun s stockInfo => fst (findOneAndUpdate stockInfo s)) stockData db.
Proof.
  induction stockData as [|stockInfo rest IH]; simpl; intros i db acc;
    [reflexivity|].
  unfold noRejection at 1.
  destruct (findOneAndUpdate stockInfo db) as [db' stock]. apply IH.
Qed.

Lemma saveToMongoDB_store (stockData : list StockInfo) (db : Store) :
  fst (saveToMongoDB noRejection stockData db) =
  fold_left (fun s stockInfo => fst (findOneAndUpdate stockInfo s)) stockData db.
Proof. rewrite saveToMongoDB_loop. apply saveLoop_store. Qed.

(** An invariant of the upsert is an invariant of the loop, interrupted
    or not. *)
Lemma saveLoop_invariant (P : Store -> Prop) (rej : Rejections)
  (stockData : list StockInfo) :
  (forall stockInfo s, In stockInfo stockData -> P s ->
                       P (fst (findOneAndUpdate stockInfo s))) ->
  forall i db savedStocks,
    P db -> P (fst (saveLoop rej i stockData db savedStocks)).
Proof.
  induction stockData as [|stockInfo rest IH]; simpl; intros HP i db acc Hdb;
    [exact Hdb|].
  destruct (rej i); [exact Hdb|].
  pose proof (HP stockInfo db (or_introl eq_refl) Hdb) as H1.
  destruct (findOneAndUpdate stockInfo db) as [db' stock]. simpl in H1.
  apply IH; [|exact H1]. intros x s Hx. apply HP. now right.
Qed.

Lemma saveToMongoDB_invariant (P : Store -> Prop) (rej : Rejections)
  (stockData : list StockInfo) (db : Store) :
  (forall stockInfo s, In stockInfo stockData -> P s ->
                       P (fst (findOneAndUpdate stockInfo s))) ->
  P db -> P (fst (saveToMongoDB rej stockData db)).
Proof.
  intros HP Hdb. rewrite saveToMongoDB_loop. now apply saveLoop_invariant.
Qed.

Lemma scrapeStockData_store (page : result (list Row)) (clock : nat -> Z)
  (rej : Rejections) (db : Store) :
  fst (scrapeStockData page clock rej db) = db \/
  exists rows,
    page = Ok rows /\
    fst (scrapeStockData page clock rej db) =
      fst (saveToMongoDB rej (addMetadata clock 0 (extractStocks rows)) db).
Proof.
  unfold scrapeStockData. destruct page as [rows|e]; [|now left].
  destruct (List.length rows <=? 5)%nat; [now left|].
  right. exists rows. split; [reflexivity|].
  now destruct (saveToMongoDB rej _ db) as [db' [saved|e]].
Qed.

Lemma saveLoop_ids (rej : Rejections) (stockData : list StockInfo) :
  forall i db savedStocks,
  exists fresh,
    map _id (fst (saveLoop rej i stockData db savedStocks)) = map _id db ++ fresh /\
    (List.length fresh <= List.length stockData)%nat.
Proof.
  induction stockData as [|stockInfo rest IH]; simpl; intros i db acc.
  - exists []. now rewrite app_nil_r.
  - destruct (rej i); [exists []; simpl; rewrite app_nil_r; split; [reflexivity|lia]|].
    pose proof (findOneAndUpdate_ids stockInfo db) as Hid.
    destruct (findOneAndUpdate stockInfo db) as [db' stock]. simpl in Hid.
    destruct (IH (S i) db' (acc ++ [stock])) as (fresh & Hf & Hl).
    rewrite Hf, Hid.
    destruct (findOne _ db).
    + exists fresh. split; [reflexivity|lia].
    + exists (freshId db :: fresh). rewrite <- app_assoc. simpl.
      split; [reflexivity|lia].
Qed.

(** X9: saving never deletes.  Whatever the batch and wherever it is
    interrupted, the documents of the collection keep their place and
    their [_id], at most one document is added per record, and a document
    whose symbol no record of the batch carries is left as it is.  The
    same holds of a whole scrape cycle. *)
Theorem save_never_deletes (rej : Rejections) (stockData : list StockInfo)
  (db : Store) :
  let db' := fst (saveToMongoDB rej stockData db) in
  (exists fresh,
      map _id db' = map _id db ++ fresh /\
      (List.length fresh <= List.length stockData)%nat) /\
  (forall d, In d db ->
             (forall stockInfo, In stockInfo stockData ->
                                keyOf stockInfo <> symbol d) ->
             In d db') /\
  (forall page clock,
      exists fresh,
        map _id (fst (scrapeStockData page clock rej db)) = map _id db ++ fresh).
Proof.
  intro db'. subst db'. split; [|split].
  - rewrite saveToMongoDB_loop. apply saveLoop_ids.
  - intros d Hd Hk.
    apply (saveToMongoDB_invariant (fun s => In d s)); [|exact Hd].
    intros stockInfo s Hin Hs. apply findOneAndUpdate_keeps; [exact Hs|].
    intro E. exact (Hk stockInfo Hin (eq_sym E)).
  - intros page clock.
    destruct (scrapeStockData_store page clock rej db) as [->|(rows & _ & ->)].
    + exists []. now rewrite app_nil_r.
    + rewrite saveToMongoDB_loop.
      destruct (saveLoop_ids rej (addMetadata clock 0 (extractStocks rows)) 0 db [])
        as (fresh & Hf & _).
      now exists fresh.
Qed.

Lemma findOneAndUpdate_NoDup_ids (stockInfo : StockInfo) (db : Store) :
  NoDup (map _id db) -> NoDup (map _id (fst (findOneAndUpdate stockInfo db))).
Proof.
  intro H. rewrite findOneAndUpdate_ids.
  destruct (findOne _ db); [exact H|].
  apply NoDup_app; [exact H|repeat constructor; intros []|].
  intros x Hx [<-|[]]. exact (freshId_fresh db Hx).
Qed.

Lemma written_NoDup_ids (db : Store) : written db -> NoDup (map _id db).
Proof.
  induction 1 as [|rej stockData db _ IH]; [constructor|].
  apply (saveToMongoDB_invariant (fun s => NoDup (map _id s))); [|exact IH].
  intros stockInfo s _. apply findOneAndUpdate_NoDup_ids.
Qed.

(** X10: in a collection built by batch saves, and so in one built by
    scrape cycles, no two documents share an [_id] and no two share a
    symbol, and every symbol is as the schema's setters leave it. *)
Theorem store_keys_are_unique (db : Store) :
  written db \/ scraped db ->
  NoDup (map _id db) /\
  NoDup (map symbol db) /\
  (forall d, In d db -> setSymbol (symbol d) = symbol d) /\
  (forall d d', In d db -> In d' db -> symbol d = symbol d' -> d = d').
Proof.
  intro H.
  assert (W : written db) by (destruct H; [assumption|now apply scraped_written]).
  split; [now apply written_NoDup_ids|].
  split; [now apply written_NoDup|]. split.
  - intros d Hd.
    exact (proj1 (Forall_forall _ _) (written_normalized db W) d Hd).
  - intros d d' Hd Hd' Hs.
    exact (NoDup_map_eq symbol db d d' (written_NoDup db W) Hd Hd' Hs).
Qed.

Lemma fold_other_keys (s : string) (stockData : list StockInfo) :
  (forall x, In x stockData -> keyOf x <> setSymbol s) ->
  forall db,
    findOne s (fold_left (fun c stockInfo => fst (findOneAndUpdate stockInfo c))
                         stockData db)
    = findOne s db.
Proof.
  induction stockData as [|x rest IH]; simpl; intros H db; [reflexivity|].
  rewrite IH by (intros y Hy; apply H; now right).
  rewrite findOne_findOneAndUpdate.
  destruct (String.eqb_spec (setSymbol s) (keyOf x)) as [E|_]; [|reflexivity].
  now destruct (H x (or_introl eq_refl)).
Qed.

Lemma applyUpdate_again (stockInfo : StockInfo) (d : Stock) :
  applyUpdate stockInfo (applyUpdate stockInfo d) = applyUpdate stockInfo d.
Proof. reflexivity. Qed.

(** After a batch that nothing interrupts, the first document of a symbol
    carries the values of the last record of the batch with this symbol. *)
Lemma last_record_wins (before after : list StockInfo) (r : StockInfo)
  (db : Store) :
  (forall x, In x after -> keyOf x <> keyOf r) ->
  exists d,
    findOne (Raw.symbol (info_stock r))
            (fst (saveToMongoDB noRejection (before ++ r :: after) db)) = Some d /\
    d = applyUpdate r d.
Proof.
  intro H. rewrite saveToMongoDB_store, fold_left_app. simpl.
  rewrite fold_other_keys by exact H.
  rewrite findOne_findOneAndUpdate. unfold keyOf at 1. rewrite String.eqb_refl.
  eexists. split; [reflexivity|].
  destruct (findOneAndUpdate_saved r
              (fold_left (fun c stockInfo => fst (findOneAndUpdate stockInfo c))
                         before db)) as [_ [d0 ->]].
  reflexivity.
Qed.

(** X11: within a batch the last write wins.  When nothing interrupts the
    batch, the document found under a symbol afterwards has every path,
    [scrapedAt] included, as the last record of the batch with this symbol
    gives it. *)
Theorem batch_last_write_wins (before after : list StockInfo) (r : StockInfo)
  (db : Store) :
  (forall x, In x after -> keyOf x <> keyOf r) ->
  exists d,
    findOne (Raw.symbol (info_stock r))
            (fst (saveToMongoDB noRejection (before ++ r :: after) db)) = Some d /\
    d = applyUpdate r d /\
    close d = Raw.close (info_stock r) /\
    change d = Raw.change (info_stock r) /\
    scrapedAt d = info_scrapedAt r.
Proof.
  intro H. destruct (last_record_wins before after r db H) as (d & Hf & Hd).
  exists d. split; [exact Hf|]. split; [exact Hd|].
  rewrite Hd. repeat split.
Qed.

Lemma findOneAndUpdate_present (stockInfo : StockInfo) (db : Store) :
  In (keyOf stockInfo) (map symbol db) ->
  map _id (fst (findOneAndUpdate stockInfo db)) = map _id db /\
  map symbol (fst (findOneAndUpdate stockInfo db)) = map symbol db.
Proof.
  intro H. rewrite findOneAndUpdate_ids, findOneAndUpdate_symbols.
  destruct (findOne_present _ _ H) as [d ->]. now split.
Qed.

Lemma fold_keys_present (stockData : list StockInfo) :
  forall db,
    incl (map symbol db ++ map keyOf stockData)
         (map symbol
            (fold_left (fun c stockInfo => fst (findOneAndUpdate stockInfo c))
                       stockData db)).
Proof.
  induction stockData as [|x rest IH]; simpl; intro db.
  - rewrite app_nil_r. apply incl_refl.
  - destruct (findOneAndUpdate_symbols_grow x db) as [Hg Hk].
    intros k Hin. apply IH. apply in_app_or in Hin as [Hin|[<-|Hin]].
    + apply in_or_app. left. now apply Hg.
    + apply in_or_app. now left.
    + apply in_or_app. now right.
Qed.

Lemma saveToMongoDB_present (rej : Rejections) (stockData : list StockInfo)
  (db : Store) :
  (forall x, In x stockData -> In (keyOf x) (map symbol db)) ->
  map _id (fst (saveToMongoDB rej stockData db)) = map _id db /\
  map symbol (fst (saveToMongoDB rej stockData db)) = map symbol db.
Proof.
  intro H.
  apply (saveToMongoDB_invariant
           (fun s => map _id s = map _id db /\ map symbol s = map symbol db));
    [|now split].
  intros x s Hx [Hi Hs].
  destruct (findOneAndUpdate_present x s) as [Hi' Hs'].
  - rewrite Hs. now apply H.
  - split; congruence.
Qed.

Lemma addMetadata_keys (clock : nat -> Z) (stockData : list Raw.t) :
  forall i,
    map keyOf (addMetadata clock i stockData)
    = map (fun s => setSymbol (Raw.symbol s)) stockData.
Proof.
  induction stockData as [|s rest IH]; simpl; intro i; [reflexivity|].
  now rewrite IH.
Qed.

Lemma scrapeStockData_rows (rows : list Row) (clock : nat -> Z)
  (rej : Rejections) (db : Store) :
  fst (scrapeStockData (Ok rows) clock rej db) =
  if (List.length rows <=? 5)%nat then db
  else fst (saveToMongoDB rej (addMetadata clock 0 (extractStocks rows)) db).
Proof.
  unfold scrapeStockData. destruct (List.length rows <=? 5)%nat; [reflexivity|].
  now destruct (saveToMongoDB rej _ db) as [db' [saved|e]].
Qed.

(** X12: saving again adds nothing.  After a batch that nothing
    interrupted, a second batch, interrupted or not, whose records carry
    symbols of the first adds no document and changes no [_id] and no
    symbol; in particular a second scrape of the same rows, at any later
    time, only overwrites the documents of the first. *)
Theorem saving_again_adds_nothing (rej : Rejections) (db : Store) :
  (forall stockData again,
      incl (map keyOf again) (map keyOf stockData) ->
      let db1 := fst (saveToMongoDB noRejection stockData db) in
      let db2 := fst (saveToMongoDB rej again db1) in
      map _id db2 = map _id db1 /\
      map symbol db2 = map symbol db1 /\
      List.length db2 = List.length db1) /\
  (forall rows clock clock',
      let db1 := fst (scrapeStockData (Ok rows) clock noRejection db) in
      let db2 := fst (scrapeStockData (Ok rows) clock' rej db1) in
      map _id db2 = map _id db1 /\
      map symbol db2 = map symbol db1 /\
      List.length db2 = List.length db1).
Proof.
  assert (Hgen : forall data data',
             incl (map keyOf data') (map keyOf data) ->
             map _id (fst (saveToMongoDB rej data'
                             (fst (saveToMongoDB noRejection data db))))
             = map _id (fst (saveToMongoDB noRejection data db)) /\
             map symbol (fst (saveToMongoDB rej data'
                                (fst (saveToMongoDB noRejection data db))))
             = map symbol (fst (saveToMongoDB noRejection data db))).
  { intros data data' Hi. apply saveToMongoDB_present. intros x Hx.
    rewrite saveToMongoDB_store. apply fold_keys_present.
    apply in_or_app. right. apply Hi. now apply in_map. }
  assert (Hlen : forall a b : Store, map _id a = map _id b ->
                                     List.length a = List.length b).
  { intros a b E. rewrite <- (length_map _id a), <- (length_map _id b).
    now f_equal. }
  split.
  - intros stockData again Hincl db1 db2.
    destruct (Hgen stockData again Hincl) as [Hi Hs]. auto.
  - intros rows clock clock' db1 db2. subst db1 db2.
    rewrite !scrapeStockData_rows.
    destruct (List.length rows <=? 5)%nat; [auto|].
    destruct (Hgen (addMetadata clock 0 (extractStocks rows))
                   (addMetadata clock' 0 (extractStocks rows))) as [Hi Hs];
      [rewrite !addMetadata_keys; apply incl_refl|auto].
Qed.

(* ----------------------------------------------------------------- *)
(** ** The scrape cycle *)

Lemma saveLoop_returned (stockData : list StockInfo) :
  forall i db savedStocks,
  exists docs,
    snd (saveLoop noRejection i stockData db savedStocks) = Ok (savedStocks ++ docs) /\
    Forall2 (fun stockInfo doc => doc = applyUpdate stockInfo doc) stockData docs.
Proof.
  induction stockData as [|stockInfo rest IH]; simpl; intros i db acc.
  - exists []. rewrite app_nil_r. split; [reflexivity|constructor].
  - destruct (findOneAndUpdate_saved stockInfo db) as [_ [d0 Hs]].
    destruct (findOneAndUpdate stockInfo db) as [db' stock]. simpl in Hs.
    destruct (IH (S i) db' (acc ++ [stock])) as (docs & E & F).
    exists (stock :: docs). rewrite E, <- app_assoc. split; [reflexivity|].
    constructor; [now rewrite Hs|exact F].
Qed.

Lemma addMetadata_times (clock : nat -> Z) (stockData : list Raw.t) :
  forall i,
    map info_scrapedAt (addMetadata clock i stockData)
    = map clock (seq i (List.length stockData)).
Proof.
  induction stockData as [|s rest IH]; simpl; intro i; [reflexivity|].
  now rewrite IH.
Qed.

Lemma addMetadata_stocks (clock : nat -> Z) (stockData : list Raw.t) :
  forall i, map info_stock (addMetadata clock i stockData) = stockData.
Proof.
  induction stockData as [|s rest IH]; simpl; intro i; [reflexivity|].
  now rewrite IH.
Qed.

Lemma Forall2_impl_In {A B : Type} (R R' : A -> B -> Prop)
  (l : list A) (l' : list B) :
  (forall a b, In a l -> R a b -> R' a b) ->
  Forall2 R l l' -> Forall2 R' l l'.
Proof.
  intros H F. induction F as [|a b l l' Hab F IH]; constructor.
  - apply H; [now left|exact Hab].
  - apply IH. intros a' b' Hin. apply H. now right.
Qed.

Lemma Forall2_map_left {A B C : Type} (R : C -> B -> Prop) (f : A -> C)
  (l : list A) (l' : list B) :
  Forall2 (fun a b => R (f a) b) l l' -> Forall2 R (map f l) l'.
Proof. induction 1; simpl; constructor; assumption. Qed.

Lemma Forall2_map_eq {A B C : Type} (R : A -> B -> Prop) (f : A -> C)
  (g : B -> C) (l : list A) (l' : list B) :
  (forall a b, R a b -> f a = g b) ->
  Forall2 R l l' -> map f l = map g l'.
Proof.
  intros H F. induction F as [|a b l l' Hab F IH]; simpl; [reflexivity|].
  now rewrite (H a b Hab), IH.
Qed.

(** The names the extraction emits are trimmed. *)
Lemma extractStocks_names (rows : list Row) (s : Raw.t) :
  In s (extractStocks rows) -> trim (Raw.securityName s) = Raw.securityName s.
Proof.
  unfold extractStocks. intro H. apply filter_In in H as [Hm _].
  apply mapRows_In in Hm as (cells & _ & Hr).
  unfold rowToStock in Hr. destruct (8 <=? List.length cells)%nat; [|discriminate].
  injection Hr as <-. simpl. unfold cleanText. apply trim_idem.
Qed.

(** X13: what a scrape returns.  When the page shows more than five rows
    and the database rejects nothing, the scrape returns one document per
    extracted record, in the order of the rows; the document carries the
    symbol, the name and the seven numbers of its record, and the time
    read for it. *)
Theorem scrape_returns_one_document_per_record (rows : list Row)
  (clock : nat -> Z) (db : Store) :
  (5 < List.length rows)%nat ->
  let stockData := extractStocks rows in
  let saved := snd (scrapeStockData (Ok rows) clock noRejection db) in
  Forall2 (fun s doc =>
             symbol doc = Raw.symbol s /\
             securityName doc = Raw.securityName s /\
             (open doc, high doc, low doc, close doc) =
               (Raw.open s, Raw.high s, Raw.low s, Raw.close s) /\
             (change doc, dailyVolume doc, dailyValue doc) =
               (Raw.change s, Raw.dailyVolume s, Raw.dailyValue s))
          stockData saved /\
  map scrapedAt saved = map clock (seq 0 (List.length stockData)) /\
  List.length saved = List.length stockData.
Proof.
  intros Hrows stockData saved. subst saved. unfold scrapeStockData.
  destruct (List.length rows <=? 5)%nat eqn:L; [apply Nat.leb_le in L; lia|].
  fold stockData.
  destruct (saveLoop_returned (addMetadata clock 0 stockData) 0 db [])
    as (docs & E & F).
  rewrite <- saveToMongoDB_loop in E. simpl in E.
  destruct (saveToMongoDB noRejection (addMetadata clock 0 stockData) db)
    as [db' r]. simpl in E. subst r. simpl.
  split; [|split].
  - rewrite <- (addMetadata_stocks clock stockData 0) at 1.
    apply Forall2_map_left.
    apply (Forall2_impl_In
             (fun stockInfo doc => doc = applyUpdate stockInfo doc)); [|exact F].
    intros stockInfo doc Hin ->. apply addMetadata_stock in Hin.
    pose proof (extractStocks_names rows _ Hin) as Hname.
    apply extractStocks_In in Hin as ([str Hs] & _).
    simpl. unfold setSecurityName. rewrite Hname, Hs, setSymbol_cleanSymbol.
    repeat split.
  - rewrite <- addMetadata_times.
    symmetry. apply (Forall2_map_eq _ _ _ _ _ (fun a b (H : b = applyUpdate a b) =>
                        eq_sym (f_equal scrapedAt H)) F).
  - rewrite <- (Forall2_length F), <- (length_map info_stock).
    now rewrite addMetadata_stocks.
Qed.

Lemma last_with_key (k : string) (l : list StockInfo) :
  (exists x, In x l /\ keyOf x = k) ->
  exists before r after,
    l = before ++ r :: after /\ keyOf r = k /\
    forall x, In x after -> keyOf x <> k.
Proof.
  induction l as [|a l IH]; intros (x & Hx & Hk); [contradiction|].
  destruct (existsb (fun y => String.eqb (keyOf y) k) l) eqn:E.
  - apply existsb_exists in E as (y & Hy & Ey). apply String.eqb_eq in Ey.
    destruct IH as (before & r & after & -> & Hr & Ha); [now exists y|].
    exists (a :: before), r, after. now split.
  - assert (Hno : forall y, In y l -> keyOf y <> k).
    { intros y Hy Ey.
      assert (T : existsb (fun y => String.eqb (keyOf y) k) l = true)
        by (apply existsb_exists; exists y; split;
            [exact Hy|now apply String.eqb_eq]).
      congruence. }
    destruct Hx as [<-|Hx]; [|now destruct (Hno x Hx)].
    exists [], a, l. now split.
Qed.

Lemma findOne_ext (s t : string) (db : Store) :
  setSymbol s = setSymbol t -> findOne s db = findOne t db.
Proof.
  intro H. unfold findOne, matchesSymbol. now rewrite H.
Qed.

(** X14: what a scrape saved can be looked up.  After a scrape of more
    than five rows that the database did not interrupt, the route
    [GET /:symbol] answers, for every spelling in lower or mixed case of
    the symbol of an extracted record, with a document that carries this
    symbol and the quote of the last extracted record with this symbol;
    its close is above zero. *)
Theorem lookup_after_scrape (rows : list Row) (clock : nat -> Z) (db : Store)
  (s : Raw.t) (param : string) :
  (5 < List.length rows)%nat ->
  In s (extractStocks rows) ->
  toUpperCase param = Raw.symbol s ->
  exists d before last after,
    getBySymbol param (fst (scrapeStockData (Ok rows) clock noRejection db))
      = Success d /\
    symbol d = Raw.symbol s /\
    extractStocks rows = before ++ last :: after /\
    Raw.symbol last = Raw.symbol s /\
    (forall x, In x after -> Raw.symbol x <> Raw.symbol s) /\
    (close d, change d) = (Raw.close last, Raw.change last) /\
    num_gt (close d) pos_zero = true.
Proof.
  intros Hrows Hs Hp. rewrite scrapeStockData_rows.
  destruct (List.length rows <=? 5)%nat eqn:L; [apply Nat.leb_le in L; lia|].
  set (data := addMetadata clock 0 (extractStocks rows)).
  assert (Hclean : forall x, In x (extractStocks rows) ->
                             setSymbol (Raw.symbol x) = Raw.symbol x).
  { intros x Hx. apply extractStocks_In in Hx as ([str ->] & _).
    apply setSymbol_cleanSymbol. }
  assert (Hkey : forall x, In x data -> keyOf x = Raw.symbol (info_stock x)).
  { intros x Hx. apply Hclean. now apply addMetadata_stock in Hx. }
  destruct (last_with_key (Raw.symbol s) data) as (b & r & a & Hd & Hr & Ha).
  { assert (Hin : In s (map info_stock data))
      by (unfold data; now rewrite addMetadata_stocks).
    apply in_map_iff in Hin as (x & Hx & Hin). exists x. split; [exact Hin|].
    rewrite (Hkey x Hin). now rewrite Hx. }
  assert (Hrin : In r data) by (rewrite Hd; apply in_or_app; right; now left).
  destruct (last_record_wins b a r db) as (d & Hf & Hdr).
  { intros x Hx. rewrite Hr. now apply Ha. }
  rewrite <- Hd in Hf.
  exists d, (map info_stock b), (info_stock r), (map info_stock a).
  assert (Hsym : Raw.symbol (info_stock r) = Raw.symbol s)
    by (rewrite <- (Hkey r Hrin); exact Hr).
  split; [|split; [|split; [|split; [|split; [|split]]]]].
  - unfold getBySymbol.
    rewrite (findOne_ext (toUpperCase param) (Raw.symbol (info_stock r))).
    + now rewrite Hf.
    + now rewrite Hp, Hsym.
  - rewrite Hdr. simpl. rewrite <- Hsym. apply Hclean.
    now apply (addMetadata_stock clock _ 0).
  - rewrite <- (addMetadata_stocks clock (extractStocks rows) 0).
    fold data. rewrite Hd, map_app. reflexivity.
  - exact Hsym.
  - intros x Hx. apply in_map_iff in Hx as (y & <- & Hy).
    assert (Hyin : In y data)
      by (rewrite Hd; apply in_or_app; right; now right).
    rewrite <- (Hkey y Hyin). now apply Ha.
  - now rewrite Hdr.
  - rewrite Hdr. simpl.
    apply (addMetadata_stock clock _ 0) in Hrin.
    now apply extractStocks_In in Hrin as (_ & _ & _ & _ & Hc).
Qed.

(* ----------------------------------------------------------------- *)
(** ** The batch save, interrupted or not *)

Lemma saveLoop_unrejected (rej : Rejections) (stockData : list StockInfo) :
  forall i db savedStocks,
    (forall j, (j < List.length stockData)%nat -> rej (i + j)%nat = None) ->
    saveLoop rej i stockData db savedStocks =
    saveLoop noRejection i stockData db savedStocks.
Proof.
  induction stockData as [|stockInfo rest IH]; simpl; intros i db acc H;
    [reflexivity|].
  pose proof (H 0%nat ltac:(lia)) as H0. rewrite Nat.add_0_r in H0.
  rewrite H0. unfold noRejection at 1.
  destruct (findOneAndUpdate stockInfo db) as [db' stock].
  apply IH. intros j Hj. specialize (H (S j) ltac:(lia)).
  now rewrite Nat.add_succ_r in H.
Qed.

Lemma applyUpdate_paths (stockInfo : StockInfo) (d : Stock) :
  d = applyUpdate stockInfo d -> schemaPaths d = recordPaths stockInfo.
Proof. intros ->. reflexivity. Qed.

(** After the upserts of a list of records, the symbol of each of them
    leads to a document that holds what the last record with this symbol
    set. *)
Lemma upserted_records_found (l : list StockInfo) (db : Store) (r : StockInfo) :
  In r l ->
  exists d last,
    findOne (Raw.symbol (info_stock r))
            (fold_left (fun c stockInfo => fst (findOneAndUpdate stockInfo c)) l db)
      = Some d /\
    In last l /\ keyOf last = keyOf r /\
    schemaPaths d = recordPaths last.
Proof.
  intro Hr.
  destruct (last_with_key (keyOf r) l (ex_intro _ r (conj Hr eq_refl)))
    as (before & last & after & -> & Hk & Hn).
  destruct (last_record_wins before after last db) as (d & Hf & Hd).
  { intros x Hx. rewrite Hk. now apply Hn. }
  rewrite saveToMongoDB_store in Hf.
  exists d, last. split; [|split; [|split]].
  - rewrite <- Hf. apply findOne_ext. symmetry. exact Hk.
  - apply in_or_app. right. now left.
  - exact Hk.
  - now apply applyUpdate_paths.
Qed.

(** C3, amended: the first rejection ends the batch.  The records before it
    are saved, by one upsert each in the order of the batch, and can be
    looked up; the rejected record and those after it are not processed, so
    that a symbol that only they carry is found as before the batch; and
    the rejection is thrown to the caller, which in a scrape cycle catches
    it and returns the empty list.  Without a rejection every record is
    saved and returned: the documents returned carry, one by one, what the
    records set, and the symbol of every record leads to a document that
    holds what the last record with this symbol set. *)
Theorem batch_save_stops_at_first_rejection
  (rej : Rejections) (stockData : list StockInfo) (db : Store) :
  let upsertAll :=
    fold_left (fun c stockInfo => fst (findOneAndUpdate stockInfo c)) in
  (forall k e,
      (k < List.length stockData)%nat ->
      rej k = Some e ->
      (forall j, (j < k)%nat -> rej j = None) ->
      saveToMongoDB rej stockData db =
        (fst (saveToMongoDB noRejection (firstn k stockData) db), Throw e) /\
      fst (saveToMongoDB rej stockData db) = upsertAll (firstn k stockData) db /\
      (forall r, In r (firstn k stockData) ->
         exists d last,
           findOne (Raw.symbol (info_stock r))
                   (fst (saveToMongoDB rej stockData db)) = Some d /\
           In last (firstn k stockData) /\ keyOf last = keyOf r /\
           schemaPaths d = recordPaths last) /\
      (forall s,
         (forall r, In r (firstn k stockData) -> keyOf r <> setSymbol s) ->
         findOne s (fst (saveToMongoDB rej stockData db)) = findOne s db)) /\
  ((forall j, (j < List.length stockData)%nat -> rej j = None) ->
      exists saved,
        saveToMongoDB rej stockData db =
          (fst (saveToMongoDB noRejection stockData db), Ok saved) /\
        List.length saved = List.length stockData /\
        fst (saveToMongoDB rej stockData db) = upsertAll stockData db /\
        Forall2 (fun r doc => schemaPaths doc = recordPaths r) stockData saved /\
        (forall r, In r stockData ->
           exists d last,
             findOne (Raw.symbol (info_stock r))
                     (fst (saveToMongoDB rej stockData db)) = Some d /\
             In last stockData /\ keyOf last = keyOf r /\
             schemaPaths d = recordPaths last) /\
        (forall before r after,
           stockData = before ++ r :: after ->
           (forall x, In x after -> keyOf x <> keyOf r) ->
           exists d,
             findOne (Raw.symbol (info_stock r))
                     (fst (saveToMongoDB rej stockData db)) = Some d /\
             schemaPaths d = recordPaths r)) /\
  (forall rows clock e,
      (5 < List.length rows)%nat ->
      stockData = addMetadata clock 0 (extractStocks rows) ->
      snd (saveToMongoDB rej stockData db) = Throw e ->
      scrapeStockData (Ok rows) clock rej db =
        (fst (saveToMongoDB rej stockData db), [])).
Proof.
  intro upsertAll. split; [|split].
  - intros k e Hk He Hn.
    assert (E : saveToMongoDB rej stockData db =
                (fst (saveToMongoDB noRejection (firstn k stockData) db), Throw e)).
    { rewrite !saveToMongoDB_loop. now apply saveLoop_rejected. }
    assert (F : fst (saveToMongoDB rej stockData db)
                = upsertAll (firstn k stockData) db).
    { rewrite E. cbn [fst]. apply saveToMongoDB_store. }
    split; [exact E|]. split; [exact F|]. split.
    + intros r Hr. rewrite F. now apply upserted_records_found.
    + intros s Hs. rewrite F. now apply fold_other_keys.
  - intros Hn.
    assert (E : saveToMongoDB rej stockData db
                = saveToMongoDB noRejection stockData db).
    { rewrite !saveToMongoDB_loop. now apply saveLoop_unrejected. }
    destruct (saveLoop_returned stockData 0 db []) as (saved & Hs & Hf).
    rewrite <- saveToMongoDB_loop in Hs. cbn [app] in Hs.
    assert (F : fst (saveToMongoDB rej stockData db) = upsertAll stockData db).
    { rewrite E. apply saveToMongoDB_store. }
    exists saved. split; [|split; [|split; [exact F|split; [|split]]]].
    + rewrite E. now rewrite (surjective_pairing (saveToMongoDB _ _ _)), Hs.
    + symmetry. exact (Forall2_length Hf).
    + eapply Forall2_impl; [|exact Hf].
      intros r doc H. now apply applyUpdate_paths.
    + intros r Hr. rewrite F. now apply upserted_records_found.
    + intros before r after -> Hafter.
      destruct (last_record_wins before after r db Hafter) as (d & Hd & Hp).
      exists d. rewrite E. split; [exact Hd|now apply applyUpdate_paths].
  - intros rows clock e Hrows -> Hthrow. unfold scrapeStockData.
    destruct (List.length rows <=? 5)%nat eqn:E; [apply Nat.leb_le in E; lia|].
    destruct (saveToMongoDB rej _ db) as [db' [saved|e']]; simpl in *;
      [discriminate|reflexivity].
Qed.

(* ----------------------------------------------------------------- *)
(** ** Latest per symbol, continued *)

Lemma groupFirst_distinct (l : list Stock) :
  NoDup (map symbol l) ->
  forall seen,
    (forall d, In d l -> ~ In (symbol d) seen) ->
    groupFirst seen l = l.
Proof.
  induction l as [|a r IH]; simpl; intros Hnd seen Hs; [reflexivity|].
  inversion Hnd as [|? ? Hn Hnd']; subst.
  destruct (existsb (String.eqb (symbol a)) seen) eqn:E.
  - apply seen_spec in E. now destruct (Hs a (or_introl eq_refl)).
  - f_equal. apply IH; [exact Hnd'|].
    intros d Hd [Heq|Hin].
    + apply Hn. rewrite Heq. now apply in_map.
    + exact (Hs d (or_intror Hd) Hin).
Qed.

(** X15: on a collection built by batch saves, where a symbol has one
    document, latest-per-symbol drops nothing: it returns the documents of
    the store, as many as the limit allows, and all of them, in some
    order, when the limit is at least their number. *)
Theorem findLatest_on_saved_store (limit : Z) (db : Store) :
  written db -> 0 < limit ->
  exists out,
    findLatest limit db = Ok out /\
    List.length out = Nat.min (Z.to_nat limit) (List.length db) /\
    (forall d, In d out -> In d db) /\
    (Z.of_nat (List.length db) <= limit -> Permutation out db).
Proof.
  intros W L. unfold findLatest, limitStage.
  apply Z.ltb_lt in L. rewrite L.
  assert (Hg : groupFirst [] (sortBy bySymbolThenLatest db)
               = sortBy bySymbolThenLatest db).
  { apply groupFirst_distinct; [|intros d _ []].
    apply (Permutation_NoDup
             (Permutation_map symbol
                (Permutation_sym (sortBy_perm bySymbolThenLatest db)))).
    now apply written_NoDup. }
  rewrite Hg. eexists. split; [reflexivity|]. split; [|split].
  - now rewrite sortBy_length, length_firstn, sortBy_length.
  - intros d Hd. apply sortBy_In, firstn_In in Hd. now apply sortBy_In in Hd.
  - intro Hall. rewrite firstn_all2 by (rewrite sortBy_length; lia).
    apply perm_trans with (sortBy bySymbolThenLatest db); apply sortBy_perm.
Qed.

(* ----------------------------------------------------------------- *)
(** ** The other routes *)

Lemma StronglySorted_firstn {A : Type} (R : A -> A -> Prop) (n : nat)
  (l : list A) :
  StronglySorted R l -> StronglySorted R (firstn n l).
Proof.
  revert l. induction n as [|n IH]; intros l H; [constructor|].
  destruct H as [|a l Hs Ha]; simpl; constructor; [now apply IH|].
  apply Forall_forall. intros x Hx. apply firstn_In in Hx.
  exact (proj1 (Forall_forall _ _) Ha x Hx).
Qed.

Lemma StronglySorted_map {A B : Type} (R : B -> B -> Prop) (f : A -> B)
  (l : list A) :
  StronglySorted (fun a b => R (f a) (f b)) l -> StronglySorted R (map f l).
Proof.
  induction 1 as [|a l Hs IH Ha]; simpl; constructor; [exact IH|].
  apply Forall_forall. intros y Hy. apply in_map_iff in Hy as (x & <- & Hx).
  exact (proj1 (Forall_forall _ _) Ha x Hx).
Qed.

Lemma filter_keeps_keys_distinct {K : Type} (key : Stock -> K)
  (keep : Stock -> bool) (db : Store) (H : NoDup (map key db)) :
  NoDup (map key (filter keep db)).
Proof.
  induction db as [|d db IH]; simpl in *; [constructor|].
  apply NoDup_cons_iff in H as [Hfresh Hrest].
  destruct (keep d); simpl; [|now apply IH].
  apply NoDup_cons; [|now apply IH].
  rewrite in_map_iff. intros (x & Hx & Hin).
  apply filter_In in Hin as [Hin _].
  apply Hfresh. rewrite <- Hx. now apply in_map.
Qed.

Lemma at_most_one {A B : Type} (f : A -> B) (l : list A) :
  NoDup (map f l) ->
  (forall x y, In x l -> In y l -> f x = f y) ->
  (List.length l <= 1)%nat.
Proof.
  destruct l as [|a [|b l]]; simpl; intros Hnd Hsame; try lia.
  inversion Hnd as [|? ? Hn _]; subst. exfalso. apply Hn. left.
  symmetry. apply Hsame; [now left|right; now left].
Qed.

Lemma inHistory_spec (param : string) (range : option Z * option Z) (d : Stock) :
  inHistory param range d = true <->
  symbol d = toUpperCase (trim param) /\
  (forall t, fst range = Some t -> t <= scrapedAt d) /\
  (forall t, snd range = Some t -> scrapedAt d <= t).
Proof.
  unfold inHistory. rewrite !andb_true_iff, matchesSymbol_spec.
  rewrite setSymbol_toUpperCase. unfold setSymbol.
  destruct range as [[from|] [to|]]; simpl; rewrite ?Z.leb_le;
    (split; [intros [[Hs Hf] Ht]; repeat split; try assumption;
             intros t E; try discriminate; injection E as <-; assumption
            |intros (Hs & Hf & Ht); repeat split; auto]).
Qed.

(** X16: the history of a symbol.  When the dates parse and the limit is
    a whole number [n >= 1], the route answers with at most [n] points,
    newest first, each the quote of a document of the store that carries
    the symbol, trimmed and upper-cased, within the dates.  On a
    collection built by batch saves the history has at most one point,
    because a save overwrites the document of its symbol. *)
Theorem history_newest_first (rt : Runtime) (param : string)
  (startDate endDate limit : option string) (db : Store)
  (range : option Z * option Z) (n : Z) :
  cursor_regular (cursor rt) ->
  historyRange rt startDate endDate = Ok range ->
  num_to_Z (ToNumber (limitOr limit 100)) = Some n -> 0 < n ->
  exists body,
    getHistory rt param startDate endDate limit db = Success body /\
    Counted.count body = List.length (Counted.data body) /\
    Z.of_nat (List.length (Counted.data body)) <= n /\
    (forall p, In p (Counted.data body) ->
       exists d, In d db /\ p = selectQuote d /\
                 symbol d = toUpperCase (trim param) /\
                 (forall t, fst range = Some t -> t <= scrapedAt d) /\
                 (forall t, snd range = Some t -> scrapedAt d <= t)) /\
    StronglySorted (fun p q => Point.scrapedAt q <= Point.scrapedAt p)
                   (Counted.data body) /\
    (written db -> (List.length (Counted.data body) <= 1)%nat).
Proof.
  intros Hreg Hrange Hn Hpos. unfold getHistory. rewrite Hrange.
  rewrite (Hreg _ pos_zero n 0 _ Hn eq_refl Hpos (Z.le_refl 0)). simpl skipn.
  eexists. split; [reflexivity|]. unfold counted. simpl.
  set (found := sortBy byLatest (filter (inHistory param range) db)).
  split; [reflexivity|]. rewrite length_map. split; [|split; [|split]].
  - pose proof (firstn_le_length (Z.to_nat n) found). lia.
  - intros p Hp. apply in_map_iff in Hp as (d & <- & Hd).
    apply firstn_In, sortBy_In, filter_In in Hd as [Hd Hin].
    apply inHistory_spec in Hin. exists d. tauto.
  - apply StronglySorted_map, StronglySorted_firstn.
    eapply StronglySorted_impl;
      [|apply sortBy_sorted; [exact byLatest_total|exact byLatest_trans]].
    intros a b H. simpl in H. unfold byLatest in H. simpl. now apply Z.leb_le.
  - intro W.
    pose proof (firstn_le_length (Z.to_nat n) found) as Hle.
    assert (Hone : (List.length found <= 1)%nat).
    { unfold found. rewrite sortBy_length.
      apply (at_most_one symbol).
      - apply filter_keeps_keys_distinct. now apply written_NoDup.
      - intros x y Hx Hy. apply filter_In in Hx as [_ Hx], Hy as [_ Hy].
        apply inHistory_spec in Hx as [Hx _], Hy as [Hy _]. congruence. }
    assert (List.length (firstn (Z.to_nat n) found) <= List.length found)%nat
      by (rewrite length_firstn; lia).
    lia.
Qed.

(** X17: the search.  A query that is not a regular expression is
    answered with status 500, whatever the store and the limit.  When it
    is one and the limit is a whole number [n >= 1], the route answers
    with at most [n] documents of the store, each matching the expression
    on its symbol or on its name, in ascending order of symbol; a matching
    document is left out only when [n] documents were returned and none of
    them comes after it. *)
Theorem search_matches_symbol_or_name (rt : Runtime) (query : string)
  (limit : option string) (db : Store) :
  (RegExp_i rt query = None ->
   exists msg, getSearch rt query limit db = Failure 500 msg) /\
  (forall re n,
      cursor_regular (cursor rt) ->
      RegExp_i rt query = Some re ->
      num_to_Z (ToNumber (limitOr limit 20)) = Some n -> 0 < n ->
      exists body,
        getSearch rt query limit db = Success body /\
        Counted.count body = List.length (Counted.data body) /\
        Z.of_nat (List.length (Counted.data body)) <= n /\
        (forall d, In d (Counted.data body) ->
                   In d db /\ (re (symbol d) = true \/ re (securityName d) = true)) /\
        StronglySorted (fun a b => String.leb (symbol a) (symbol b) = true)
                       (Counted.data body) /\
        (forall d, In d db ->
                   re (symbol d) = true \/ re (securityName d) = true ->
                   ~ In d (Counted.data body) ->
                   Z.of_nat (List.length (Counted.data body)) = n /\
                   forall x, In x (Counted.data body) ->
                             String.leb (symbol x) (symbol d) = true)).
Proof.
  split.
  - intro H. unfold getSearch. rewrite H. now eexists.
  - intros re n Hreg Hre Hn Hpos. unfold getSearch. rewrite Hre.
    rewrite (Hreg _ pos_zero n 0 _ Hn eq_refl Hpos (Z.le_refl 0)). simpl skipn.
    eexists. split; [reflexivity|]. unfold counted. simpl.
    set (found := sortBy bySymbol (filter (matchesSearch re) db)).
    assert (Hsorted : StronglySorted (fun a b => bySymbol a b = true) found)
      by (apply sortBy_sorted; [exact bySymbol_total|exact bySymbol_trans]).
    split; [reflexivity|]. split; [|split; [|split]].
    + pose proof (firstn_le_length (Z.to_nat n) found). lia.
    + intros d Hd. apply firstn_In, sortBy_In, filter_In in Hd as [Hd Hm].
      split; [exact Hd|]. unfold matchesSearch in Hm.
      now apply orb_true_iff in Hm.
    + now apply StronglySorted_firstn.
    + intros d Hd Hm Hout.
      assert (Hf : In d found).
      { apply sortBy_In, filter_In. split; [exact Hd|].
        unfold matchesSearch. now apply orb_true_iff. }
      rewrite <- (firstn_skipn (Z.to_nat n) found) in Hf, Hsorted.
      apply in_app_or in Hf as [Hf|Hf]; [contradiction|].
      split.
      * assert (Hlen : (Z.to_nat n < List.length found)%nat).
        { destruct (Nat.lt_ge_cases (Z.to_nat n) (List.length found)) as [?|G];
            [assumption|].
          rewrite (skipn_all2 _ G) in Hf. contradiction. }
        rewrite length_firstn. lia.
      * intros x Hx. exact (StronglySorted_split _ _ _ Hsorted x d Hx Hf).
Qed.

(** The order of the database on numbers is the lexicographic order of
    the keys. *)
Lemma bson_compare_lex (x y : number) :
  bson_compare x y = lex3 (bson_key x) (bson_key y).
Proof.
  destruct x as [sx|sx| |sx mx ex], y as [sy|sy| |sy my ey];
    try destruct sx; try destruct sy; try reflexivity.
  cbv [bson_compare SFcompare bson_key lex3]. simpl.
  rewrite Z.compare_opp, (Z.compare_antisym ex ey).
  destruct (ex ?= ey); reflexivity.
Qed.

Lemma lex3_not_below (k k' : Z * Z * Z) :
  lex3 k k' <> Lt <->
  let '(a, b, c) := k in
  let '(a', b', c') := k' in
  a' < a \/ (a = a' /\ (b' < b \/ (b = b' /\ c' <= c))).
Proof.
  destruct k as [[a b] c], k' as [[a' b'] c']. unfold lex3.
  destruct (Z.compare_spec a a'), (Z.compare_spec b b'), (Z.compare_spec c c');
    split; intro Hk; try congruence; try lia.
Qed.

(** [{ dailyVolume: -1 }] is a total preorder. *)
Lemma byVolumeDesc_spec (a b : Stock) :
  byVolumeDesc a b = true <->
  bson_compare (dailyVolume a) (dailyVolume b) <> Lt.
Proof.
  unfold byVolumeDesc, sortOptions.
  change (compareField "dailyVolume" a b)
    with (bson_compare (dailyVolume a) (dailyVolume b)).
  destruct (bson_compare (dailyVolume a) (dailyVolume b)); simpl;
    split; intro Hk; (discriminate || reflexivity || (now destruct Hk)).
Qed.

Lemma byVolumeDesc_total (a b : Stock) :
  byVolumeDesc a b = true \/ byVolumeDesc b a = true.
Proof.
  rewrite !byVolumeDesc_spec, !bson_compare_lex, !lex3_not_below.
  destruct (bson_key (dailyVolume a)) as [[x y] z],
           (bson_key (dailyVolume b)) as [[x' y'] z']. lia.
Qed.

Lemma byVolumeDesc_trans (a b c : Stock) :
  byVolumeDesc a b = true -> byVolumeDesc b c = true -> byVolumeDesc a c = true.
Proof.
  rewrite !byVolumeDesc_spec, !bson_compare_lex, !lex3_not_below.
  destruct (bson_key (dailyVolume a)) as [[x y] z],
           (bson_key (dailyVolume b)) as [[x' y'] z'],
           (bson_key (dailyVolume c)) as [[x'' y''] z'']. lia.
Qed.

Lemma isActive_spec (d : Stock) :
  isActive d = num_gt (dailyVolume d) pos_zero.
Proof.
  unfold isActive.
  destruct (dailyVolume d) as [s|s| |s m e]; try destruct s; reflexivity.
Qed.

(** X18: the most active stocks.  When the limit is a whole number
    [n >= 1] (10 when none is given), the route answers with at most [n]
    documents of the store, each with a volume above zero, none followed
    by a document of greater volume; a document with a volume above zero
    is left out only when [n] documents were returned and none of them has
    a smaller volume. *)
Theorem active_by_volume (rt : Runtime) (limit : option string) (db : Store)
  (n : Z) :
  cursor_regular (cursor rt) ->
  num_to_Z (ToNumber (limitOr limit 10)) = Some n -> 0 < n ->
  exists body,
    getActive rt limit db = Success body /\
    Counted.count body = List.length (Counted.data body) /\
    Z.of_nat (List.length (Counted.data body)) <= n /\
    (forall d, In d (Counted.data body) ->
               In d db /\ num_gt (dailyVolume d) pos_zero = true) /\
    StronglySorted
      (fun a b => bson_compare (dailyVolume a) (dailyVolume b) <> Lt)
      (Counted.data body) /\
    (forall d, In d db -> num_gt (dailyVolume d) pos_zero = true ->
               ~ In d (Counted.data body) ->
               Z.of_nat (List.length (Counted.data body)) = n /\
               forall x, In x (Counted.data body) ->
                         bson_compare (dailyVolume x) (dailyVolume d) <> Lt).
Proof.
  intros Hreg Hn Hpos. unfold getActive.
  rewrite (Hreg _ pos_zero n 0 _ Hn eq_refl Hpos (Z.le_refl 0)). simpl skipn.
  eexists. split; [reflexivity|]. unfold counted. simpl.
  set (found := sortBy byVolumeDesc (filter isActive db)).
  assert (Hsorted : StronglySorted
            (fun a b => bson_compare (dailyVolume a) (dailyVolume b) <> Lt) found).
  { eapply StronglySorted_impl;
      [|apply sortBy_sorted; [exact byVolumeDesc_total|exact byVolumeDesc_trans]].
    intros a b H. now apply byVolumeDesc_spec. }
  split; [reflexivity|]. split; [|split; [|split]].
  - pose proof (firstn_le_length (Z.to_nat n) found). lia.
  - intros d Hd. apply firstn_In, sortBy_In, filter_In in Hd as [Hd Hm].
    split; [exact Hd|]. now rewrite <- isActive_spec.
  - now apply StronglySorted_firstn.
  - intros d Hd Hm Hout.
    assert (Hf : In d found).
    { apply sortBy_In, filter_In. split; [exact Hd|]. now rewrite isActive_spec. }
    rewrite <- (firstn_skipn (Z.to_nat n) found) in Hf, Hsorted.
    apply in_app_or in Hf as [Hf|Hf]; [contradiction|].
    split.
    + assert (Hlen : (Z.to_nat n < List.length found)%nat).
      { destruct (Nat.lt_ge_cases (Z.to_nat n) (List.length found)) as [?|G];
          [assumption|].
        rewrite (skipn_all2 _ G) in Hf. contradiction. }
      rewrite length_firstn. lia.
    + intros x Hx. exact (StronglySorted_split _ _ _ Hsorted x d Hx Hf).
Qed.

(* ----------------------------------------------------------------- *)
(** ** The filtered listing, continued *)

Lemma firstn_consecutive {A : Type} (n k : nat) (l : list A) :
  firstn n (skipn k l) ++ firstn n (skipn (k + n) l)
  = firstn (n + n) (skipn k l).
Proof.
  rewrite (Nat.add_comm k n), <- skipn_skipn.
  generalize (skipn k l) as m. intro m.
  rewrite <- (firstn_skipn n (firstn (n + n) m)).
  rewrite firstn_firstn, Nat.min_l by lia.
  f_equal. apply firstn_skipn_comm.
Qed.

Lemma listStocks_regular (rt : Runtime) (q : Query.t) (db : Store)
  (query : Filter) (n k : Z) :
  cursor_regular (cursor rt) ->
  buildQuery rt q = Ok query ->
  num_to_Z (ToNumber (limitValue q)) = Some n -> 0 < n ->
  num_to_Z (skipOf q) = Some k -> 0 <= k ->
  exists listing,
    listStocks rt q db = Success listing /\
    data listing =
      firstn (Z.to_nat n) (skipn (Z.to_nat k) (sortedMatches query q db)) /\
    total (pagination listing) = countDocuments query db.
Proof.
  intros Hreg Hq Hn Hn0 Hk Hk0. unfold listStocks. rewrite Hq.
  rewrite (Hreg _ _ n k _ Hn Hk Hn0 Hk0).
  eexists. split; [reflexivity|]. split; reflexivity.
Qed.

Lemma skipn_member {A : Type} (k : nat) (l : list A) (x : A) :
  In x (skipn k l) -> In x l.
Proof.
  revert l. induction k as [|k IH]; intros [|a l]; simpl; auto.
Qed.

(** X19: the content of a page.  When the query builds and the limit and
    the skip are whole numbers [n >= 1] and [k >= 0], the page holds
    documents of the store that satisfy the filters and no others; it
    holds [n] of them, or what is left after the first [k] when that is
    less; and a page beyond the last one is an empty page, answered as a
    success with the total unchanged. *)
Theorem listing_page_content (rt : Runtime) (q : Query.t) (db : Store)
  (query : Filter) (n k : Z) :
  cursor_regular (cursor rt) ->
  buildQuery rt q = Ok query ->
  num_to_Z (ToNumber (limitValue q)) = Some n -> 0 < n ->
  num_to_Z (skipOf q) = Some k -> 0 <= k ->
  exists listing,
    listStocks rt q db = Success listing /\
    (forall d, In d (data listing) ->
               In d db /\ matchesFilter query d = true) /\
    Z.of_nat (List.length (data listing))
      = Z.min n (Z.max 0 (total (pagination listing) - k)) /\
    (total (pagination listing) <= k -> data listing = []) /\
    total (pagination listing) = countDocuments query db.
Proof.
  intros Hreg Hq Hn Hn0 Hk Hk0.
  destruct (listStocks_regular rt q db query n k Hreg Hq Hn Hn0 Hk Hk0)
    as (listing & Hl & Hd & Ht).
  exists listing. split; [exact Hl|].
  assert (Hlen : Z.of_nat (List.length (sortedMatches query q db))
                 = countDocuments query db).
  { unfold sortedMatches, countDocuments. now rewrite sortBy_length. }
  split; [|split; [|split; [|exact Ht]]].
  - intros d Hin. rewrite Hd in Hin.
    apply firstn_In, skipn_member in Hin.
    unfold sortedMatches in Hin. now apply sortBy_In, filter_In in Hin.
  - rewrite Hd, Ht, length_firstn, length_skipn. lia.
  - intro Hend. rewrite Hd, skipn_all2; [now destruct (Z.to_nat n)|]. lia.
Qed.

(** The comparisons of the sort are those of total preorders. *)
Lemma string_compare_le_trans (a b c : string) :
  String.compare a b <> Gt -> String.compare b c <> Gt ->
  String.compare a c <> Gt.
Proof.
  intros H1 H2.
  assert (L : String.leb a c = true).
  { apply string_leb_trans with b; unfold String.leb.
    - now destruct (String.compare a b).
    - now destruct (String.compare b c). }
  unfold String.leb in L. now destruct (String.compare a c).
Qed.

Lemma lex3_opp (k k' : Z * Z * Z) : lex3 k' k = CompOpp (lex3 k k').
Proof.
  destruct k as [[a b] c], k' as [[a' b'] c']. unfold lex3.
  rewrite (Z.compare_antisym a a'), (Z.compare_antisym b b'),
    (Z.compare_antisym c c').
  destruct (a ?= a'), (b ?= b'), (c ?= c'); reflexivity.
Qed.

Lemma bson_compare_opp (x y : number) :
  bson_compare y x = CompOpp (bson_compare x y).
Proof. rewrite !bson_compare_lex. apply lex3_opp. Qed.

Lemma bson_compare_le_trans (x y z : number) :
  bson_compare x y <> Gt -> bson_compare y z <> Gt -> bson_compare x z <> Gt.
Proof.
  assert (F : forall u v, bson_compare u v <> Gt <-> bson_compare v u <> Lt).
  { intros u v. rewrite (bson_compare_opp u v).
    destruct (bson_compare u v); simpl; split; congruence. }
  rewrite !F, !bson_compare_lex, !lex3_not_below.
  destruct (bson_key x) as [[a b] c], (bson_key y) as [[a' b'] c'],
           (bson_key z) as [[a'' b''] c'']. lia.
Qed.

Lemma Z_compare_le_trans (x y z : Z) :
  (x ?= y) <> Gt -> (y ?= z) <> Gt -> (x ?= z) <> Gt.
Proof.
  destruct (Z.compare_spec x y), (Z.compare_spec y z), (Z.compare_spec x z);
    intros; try congruence; lia.
Qed.

Lemma compareField_opp (field : string) (a b : Stock) :
  compareField field b a = CompOpp (compareField field a b).
Proof.
  unfold compareField.
  repeat match goal with
         | |- context [String.eqb field ?name] =>
             destruct (String.eqb field name)
         end;
    first [apply String.compare_antisym | apply bson_compare_opp
          | apply Z.compare_antisym | reflexivity].
Qed.

Lemma compareField_le_trans (field : string) (a b c : Stock) :
  compareField field a b <> Gt -> compareField field b c <> Gt ->
  compareField field a c <> Gt.
Proof.
  unfold compareField.
  repeat match goal with
         | |- context [String.eqb field ?name] =>
             destruct (String.eqb field name)
         end;
    first [apply string_compare_le_trans | apply bson_compare_le_trans
          | apply Z_compare_le_trans | discriminate].
Qed.

Lemma sortDirection_cases (q : Query.t) :
  sortDirection q = 1 \/ sortDirection q = -1.
Proof.
  unfold sortDirection.
  destruct (String.eqb (withDefault (Query.sortOrder q) "asc") "desc"); auto.
Qed.

Lemma sortOptions_spec (field : string) (direction : Z) (a b : Stock) :
  direction = 1 \/ direction = -1 ->
  (sortOptions field direction a b = true <->
   if 0 <? direction then compareField field a b <> Gt
   else compareField field b a <> Gt).
Proof.
  intros [-> | ->]; unfold sortOptions.
  - change (0 <? 1) with true. change (1 <? 0) with false.
    destruct (compareField field a b); split; congruence.
  - change (0 <? -1) with false. change (-1 <? 0) with true.
    rewrite (compareField_opp field a b).
    destruct (compareField field a b); cbn [CompOpp]; split; congruence.
Qed.

Lemma sortOptions_total (field : string) (direction : Z) :
  direction = 1 \/ direction = -1 ->
  forall a b,
    sortOptions field direction a b = true \/
    sortOptions field direction b a = true.
Proof.
  intros Hd a b. rewrite !(sortOptions_spec field direction) by exact Hd.
  rewrite (compareField_opp field a b).
  destruct (0 <? direction), (compareField field a b); simpl;
    (left; congruence) || (right; congruence).
Qed.

Lemma sortOptions_trans (field : string) (direction : Z) :
  direction = 1 \/ direction = -1 ->
  forall a b c,
    sortOptions field direction a b = true ->
    sortOptions field direction b c = true ->
    sortOptions field direction a c = true.
Proof.
  intros Hd a b c. rewrite !(sortOptions_spec field direction) by exact Hd.
  destruct (0 <? direction); intros H1 H2;
    eapply compareField_le_trans; eassumption.
Qed.

Lemma sortOptions_tie (field : string) (direction : Z) (a b : Stock) :
  direction = 1 \/ direction = -1 ->
  sortOptions field direction a b = true ->
  sortOptions field direction b a = true ->
  compareField field a b = Eq.
Proof.
  intros Hd. rewrite !(sortOptions_spec field direction) by exact Hd.
  rewrite (compareField_opp field a b).
  destruct (0 <? direction), (compareField field a b); simpl; congruence.
Qed.

(** Documents that never tie can be arranged in one way only. *)
Lemma one_arrangement (before : Stock -> Stock -> Prop) :
  forall chosen other : list Stock,
    Permutation chosen other ->
    StronglySorted before chosen -> StronglySorted before other ->
    (forall d d', In d chosen -> In d' chosen ->
                  before d d' -> before d' d -> d = d') ->
    chosen = other.
Proof.
  induction chosen as [|d rest IH]; intros other Hp Hs Hs' Htie.
  - apply Permutation_nil in Hp. now subst.
  - destruct other as [|d' rest'];
      [apply Permutation_sym, Permutation_nil in Hp; discriminate|].
    apply StronglySorted_inv in Hs as [Hrest Hd].
    apply StronglySorted_inv in Hs' as [Hrest' Hd'].
    rewrite Forall_forall in Hd, Hd'.
    assert (E : d = d').
    { assert (I : In d (d' :: rest'))
        by (apply (Permutation_in _ Hp); now left).
      assert (I' : In d' (d :: rest))
        by (apply (Permutation_in _ (Permutation_sym Hp)); now left).
      destruct I as [->|I]; [reflexivity|].
      destruct I' as [->|I']; [reflexivity|].
      apply Htie; [now left|now right|now apply Hd|now apply Hd']. }
    subst d'. f_equal. apply IH; try assumption.
    + now apply Permutation_cons_inv in Hp.
    + intros x y Hx Hy. apply Htie; now right.
Qed.

(** The sort on a symbol never ties in a collection built by batch saves. *)
Lemma symbol_sort_never_ties (db : Store) (d d' : Stock) :
  written db -> In d db -> In d' db ->
  compareField "symbol" d d' = Eq -> d = d'.
Proof.
  intros W Hd Hd' E. change (String.compare (symbol d) (symbol d') = Eq) in E.
  apply compare_eq in E.
  exact (NoDup_map_eq symbol db d d' (written_NoDup db W) Hd Hd' E).
Qed.

(** X20: consecutive pages neither overlap nor leave a gap, when no two
    matching documents have the same value on the path of the sort.  The
    database then has one way only to arrange the matching documents, the
    same for every request; and two requests with the same filters, the
    same sort and the same limit [n], the second skipping [n] more than
    the first, answer with two pages that together are the [2n] matching
    documents that follow the skip of the first. *)
Theorem listing_consecutive_pages (rt : Runtime) (q q' : Query.t) (db : Store)
  (query : Filter) (n k : Z) :
  cursor_regular (cursor rt) ->
  sameFilters q q' ->
  Query.sortBy q = Query.sortBy q' ->
  Query.sortOrder q = Query.sortOrder q' ->
  buildQuery rt q = Ok query ->
  num_to_Z (ToNumber (limitValue q)) = Some n ->
  num_to_Z (ToNumber (limitValue q')) = Some n -> 0 < n ->
  num_to_Z (skipOf q) = Some k -> 0 <= k ->
  num_to_Z (skipOf q') = Some (k + n) ->
  (forall d d',
      In d db -> In d' db ->
      matchesFilter query d = true -> matchesFilter query d' = true ->
      compareField (sortField q) d d' = Eq -> d = d') ->
  exists listing listing',
    listStocks rt q db = Success listing /\
    listStocks rt q' db = Success listing' /\
    data listing ++ data listing' =
      firstn (Z.to_nat (2 * n))
             (skipn (Z.to_nat k) (sortedMatches query q db)) /\
    total (pagination listing) = total (pagination listing') /\
    (forall arrangement,
        Permutation arrangement (filter (matchesFilter query) db) ->
        StronglySorted
          (fun a b => sortOptions (sortField q) (sortDirection q) a b = true)
          arrangement ->
        data listing = firstn (Z.to_nat n) (skipn (Z.to_nat k) arrangement) /\
        data listing' =
          firstn (Z.to_nat n) (skipn (Z.to_nat (k + n)) arrangement)).
Proof.
  intros Hreg Hsame Hsb Hso Hq Hn Hn' Hn0 Hk Hk0 Hk' Hties.
  assert (Hq' : buildQuery rt q' = Ok query)
    by (rewrite <- (buildQuery_sameFilters rt q q' Hsame); exact Hq).
  destruct (listStocks_regular rt q db query n k Hreg Hq Hn Hn0 Hk Hk0)
    as (l1 & Hl1 & Hd1 & Ht1).
  destruct (listStocks_regular rt q' db query n (k + n) Hreg Hq' Hn' Hn0 Hk'
              ltac:(lia)) as (l2 & Hl2 & Hd2 & Ht2).
  exists l1, l2. split; [exact Hl1|]. split; [exact Hl2|].
  assert (Hs : sortedMatches query q' db = sortedMatches query q db).
  { unfold sortedMatches, sortField, sortDirection. now rewrite Hsb, Hso. }
  split; [|split; [congruence|]].
  - rewrite Hd1, Hd2, Hs.
    replace (Z.to_nat (k + n)) with (Z.to_nat k + Z.to_nat n)%nat by lia.
    replace (Z.to_nat (2 * n)) with (Z.to_nat n + Z.to_nat n)%nat by lia.
    apply firstn_consecutive.
  - intros arrangement Hp Hsorted.
    assert (E : arrangement = sortedMatches query q db).
    { apply (one_arrangement
               (fun a b => sortOptions (sortField q) (sortDirection q) a b = true));
        [|exact Hsorted| |].
      - unfold sortedMatches.
        apply perm_trans with (filter (matchesFilter query) db);
          [exact Hp|apply Permutation_sym, sortBy_perm].
      - unfold sortedMatches. apply sortBy_sorted.
        + apply sortOptions_total, sortDirection_cases.
        + apply sortOptions_trans, sortDirection_cases.
      - intros d d' Hd Hd' H1 H2.
        apply (Permutation_in _ Hp) in Hd, Hd'.
        apply filter_In in Hd as [Hd Hm], Hd' as [Hd' Hm'].
        apply Hties; try assumption.
        exact (sortOptions_tie _ _ d d' (sortDirection_cases q) H1 H2). }
    rewrite E, Hd1, Hd2, Hs. now split.
Qed.

Lemma truthy_idem (p : option string) : truthy (truthy p) = truthy p.
Proof.
  destruct p as [s|]; [|reflexivity]. simpl.
  destruct (isEmpty s) eqn:E; [reflexivity|]. simpl. now rewrite E.
Qed.

(** X21: parameters that do not reach the query, and one that breaks it.
    A filter parameter given empty ([?symbol=]) is treated as if it were
    absent; and a [symbol] parameter that is not a regular expression is
    answered with status 500, whatever the store, the page and the other
    parameters. *)
Theorem listing_blank_and_broken_filters (rt : Runtime) (q : Query.t)
  (db : Store) :
  listStocks rt q db =
    listStocks rt
      (Query.mk (Query.page q) (Query.limit q)
                (truthy (Query.symbol q)) (truthy (Query.securityName q))
                (Query.sortBy q) (Query.sortOrder q)
                (truthy (Query.minClose q)) (truthy (Query.maxClose q))
                (truthy (Query.startDate q)) (truthy (Query.endDate q)))
      db /\
  (forall s,
      Query.symbol q = Some s -> s <> "" -> RegExp_i rt s = None ->
      exists msg, listStocks rt q db = Failure 500 msg).
Proof.
  split.
  - assert (Hb : buildQuery rt
                   (Query.mk (Query.page q) (Query.limit q)
                      (truthy (Query.symbol q)) (truthy (Query.securityName q))
                      (Query.sortBy q) (Query.sortOrder q)
                      (truthy (Query.minClose q)) (truthy (Query.maxClose q))
                      (truthy (Query.startDate q)) (truthy (Query.endDate q)))
                 = buildQuery rt q).
    { unfold buildQuery, part. simpl. now rewrite !truthy_idem. }
    unfold listStocks. rewrite Hb. reflexivity.
  - intros s Hs Hne Hre. unfold listStocks, buildQuery.
    unfold part at 1. rewrite Hs. simpl.
    destruct s; [now destruct Hne|]. simpl. rewrite Hre. now eexists.
Qed.

(* ----------------------------------------------------------------- *)
(** ** The order of the routes *)

Lemma literal_spec (name seg : string) :
  literal name seg = true <-> toUpperCase seg = toUpperCase name.
Proof. unfold literal. rewrite String.eqb_eq. split; congruence. Qed.

Lemma hexDigit_value (n : nat) :
  (n < 16)%nat -> hexOctetDigit (hexDigit n) = Some n.
Proof.
  intro H. do 16 (destruct n as [|n]; [reflexivity|]). lia.
Qed.

Lemma hexDigit_segment (n : nat) :
  (n < 16)%nat -> isSegmentChar (hexDigit n) = true.
Proof.
  intro H. do 16 (destruct n as [|n]; [reflexivity|]). lia.
Qed.

Lemma code_bound (c : ascii) : (code c < 256)%nat.
Proof. destruct c as [[] [] [] [] [] [] [] []]; vm_compute; lia. Qed.

Lemma code_high (c : ascii) : (code c / 16 < 16)%nat.
Proof.
  apply Nat.Div0.div_lt_upper_bound. pose proof (code_bound c). lia.
Qed.

Lemma code_low (c : ascii) : (code c mod 16 < 16)%nat.
Proof. apply Nat.mod_upper_bound. lia. Qed.

Lemma units_escapeAll (s : string) :
  units (escapeAll s) = Some (map (fun c => Esc (code c)) (list_ascii_of_string s)).
Proof.
  induction s as [|c r IH]; [reflexivity|].
  cbn [escapeAll units list_ascii_of_string map].
  change (Ascii.eqb "%" "%") with true. cbv iota.
  rewrite (hexDigit_value _ (code_high c)), (hexDigit_value _ (code_low c)), IH.
  do 3 f_equal. symmetry. apply Nat.div_mod_eq.
Qed.

Lemma decodeUnits_ascii (s : string) :
  allStr isAscii s = true ->
  decodeUnits (map (fun c => Esc (code c)) (list_ascii_of_string s)) = Some s.
Proof.
  induction s as [|c r IH]; [reflexivity|].
  cbn [allStr list_ascii_of_string map decodeUnits]. intro H.
  apply andb_true_iff in H as [Hc Hr]. unfold isAscii in Hc. rewrite Hc.
  rewrite (IH Hr). unfold byte, code. now rewrite ascii_nat_embedding.
Qed.

Lemma decode_escapeAll (s : string) :
  allStr isAscii s = true -> decodeURIComponent (escapeAll s) = Some s.
Proof.
  intro H. unfold decodeURIComponent. rewrite units_escapeAll.
  now apply decodeUnits_ascii.
Qed.

Lemma escapeAll_chars (s : string) : allStr isSegmentChar (escapeAll s) = true.
Proof.
  induction s as [|c r IH]; [reflexivity|].
  cbn [escapeAll allStr].
  rewrite (hexDigit_segment _ (code_high c)), (hexDigit_segment _ (code_low c)), IH.
  reflexivity.
Qed.

Lemma decode_plain (s : string) :
  allStr (fun c => negb (Ascii.eqb c "%")) s = true ->
  decodeURIComponent s = Some s.
Proof.
  unfold decodeURIComponent.
  induction s as [|c r IH]; [reflexivity|].
  cbn [allStr units]. intro H. apply andb_true_iff in H as [Hc Hr].
  apply negb_true_iff in Hc. rewrite Hc.
  specialize (IH Hr). destruct (units r) as [us|]; [|discriminate].
  cbn [decodeUnits]. now rewrite IH.
Qed.

(** X22: which route answers.  The routes are tried in the order of their
    declaration and a literal is matched against the segment as it was
    sent, in any letter case: a segment that spells latest, summary or
    active never reaches [/:symbol]; every other segment does, with its
    decoded value as the symbol, or is answered with status 400 when it
    does not decode.  A segment without escapes is its own value.  The
    handler of [/:symbol] can still receive any ASCII word, the three
    included, from a spelling with escapes.  A path that ends in history
    is answered by the history route, also [/search/history], which is the
    history of the symbol "search"; [/search/:query] answers exactly the
    other paths that begin with search. *)
Theorem route_precedence :
  (forall s value,
      In (toUpperCase s) ["LATEST"; "SUMMARY"; "ACTIVE"] ->
      dispatch [s] <> RBySymbol value) /\
  (forall s,
      isSegment s = true ->
      ~ In (toUpperCase s) ["LATEST"; "SUMMARY"; "ACTIVE"] ->
      dispatch [s] = match decodeURIComponent s with
                     | Some value => RBySymbol value
                     | None => RBadParam s
                     end) /\
  (forall s,
      allStr (fun c => negb (Ascii.eqb c "%")) s = true ->
      decodeURIComponent s = Some s) /\
  (forall word,
      word <> "" -> allStr isAscii word = true ->
      isSegment (escapeAll word) = true /\
      dispatch [escapeAll word] = RBySymbol word) /\
  (forall s t,
      isSegment s = true -> toUpperCase t = "HISTORY" ->
      dispatch [s; t] = match decodeURIComponent s with
                        | Some value => RHistory value
                        | None => RBadParam s
                        end) /\
  (forall s t query,
      isSegment s = true -> isSegment t = true ->
      (dispatch [s; t] = RSearch query <->
       toUpperCase s = "SEARCH" /\ toUpperCase t <> "HISTORY" /\
       decodeURIComponent t = Some query)) /\
  (forall t,
      toUpperCase t = "HISTORY" -> dispatch ["search"; t] = RHistory "search").
Proof.
  split; [|split; [|split; [|split; [|split; [|split]]]]].
  - intros s value H. unfold dispatch.
    destruct H as [H|[H|[H|[]]]].
    + assert (T : literal "latest" s = true) by (apply literal_spec; now rewrite <- H).
      rewrite T. discriminate.
    + assert (T : literal "summary" s = true) by (apply literal_spec; now rewrite <- H).
      rewrite T. destruct (literal "latest" s); discriminate.
    + assert (T : literal "active" s = true) by (apply literal_spec; now rewrite <- H).
      rewrite T.
      destruct (literal "latest" s); [discriminate|].
      destruct (literal "summary" s); discriminate.
  - intros s _ H. unfold dispatch.
    destruct (literal "latest" s) eqn:E1;
      [apply literal_spec in E1; exfalso; apply H; simpl; auto|].
    destruct (literal "summary" s) eqn:E2;
      [apply literal_spec in E2; exfalso; apply H; simpl; auto|].
    destruct (literal "active" s) eqn:E3;
      [apply literal_spec in E3; exfalso; apply H; simpl; auto|].
    reflexivity.
  - exact decode_plain.
  - intros word Hne Ha. split.
    + unfold isSegment. rewrite escapeAll_chars.
      destruct word; [now destruct Hne|reflexivity].
    + unfold dispatch, param. rewrite (decode_escapeAll word Ha).
      destruct word as [|c r]; [now destruct Hne|]. reflexivity.
  - intros s t _ H. unfold dispatch.
    assert (T : literal "history" t = true) by now apply literal_spec.
    now rewrite T.
  - intros s t query _ _. unfold dispatch.
    destruct (literal "history" t) eqn:E1.
    + apply literal_spec in E1. split.
      * unfold param. destruct (decodeURIComponent s); discriminate.
      * intros (_ & H & _). now destruct H.
    + assert (Hn : toUpperCase t <> "HISTORY").
      { intro H. assert (T : literal "history" t = true) by now apply literal_spec.
        congruence. }
      destruct (literal "search" s) eqn:E2.
      * apply literal_spec in E2. unfold param.
        destruct (decodeURIComponent t) as [v|]; split.
        -- intro H. injection H as ->. now repeat split.
        -- intros (_ & _ & H). now injection H as ->.
        -- discriminate.
        -- intros (_ & _ & H). discriminate.
      * split; [discriminate|]. intros (H & _).
        assert (T : literal "search" s = true) by now apply literal_spec.
        congruence.
  - intros t H. unfold dispatch.
    assert (T : literal "history" t = true) by now apply literal_spec.
    now rewrite T.
Qed.

(** The word latest, sent with its first letter escaped, is looked up as a
    symbol; a segment cut in the middle of an escape is answered with
    status 400; and an escaped character outside ASCII must be well-formed
    UTF-8. *)
Example dispatch_escaped_latest :
  dispatch ["%6Catest"] = RBySymbol "latest" /\
  dispatch ["latest"] = RLatest /\
  dispatch ["abc%2"] = RBadParam "abc%2" /\
  dispatch ["%C4%B1"] = RBySymbol (String (byte 196) (String (byte 177) "")) /\
  dispatch ["%C0%AF"] = RBadParam "%C0%AF" /\
  dispatch ["%ED%A0%80"] = RBadParam "%ED%A0%80".
Proof. repeat split. Qed.

(* ----------------------------------------------------------------- *)
(** ** The manual trigger *)

(** X23: what the manual trigger reports.  It always answers with the
    success envelope; the count is the number of documents the scrape
    returned and the sample is the first five of them.  A scrape that the
    database interrupts at a record is reported as a success with count 0
    and no sample, although the records before the interruption were
    saved and stay saved. *)
Theorem manual_scrape_report :
  (forall page clock rej db,
      exists report,
        snd (manualScrape page clock rej db) = Success report /\
        fst (manualScrape page clock rej db)
          = fst (scrapeStockData page clock rej db) /\
        Report.count report
          = List.length (snd (scrapeStockData page clock rej db)) /\
        Report.stocks report
          = firstn 5 (snd (scrapeStockData page clock rej db)) /\
        (List.length (Report.stocks report) <= 5)%nat /\
        (List.length (Report.stocks report) <= Report.count report)%nat) /\
  (forall rows clock rej db k e,
      (5 < List.length rows)%nat ->
      (k < List.length (extractStocks rows))%nat ->
      rej k = Some e ->
      (forall j, (j < k)%nat -> rej j = None) ->
      manualScrape (Ok rows) clock rej db =
        (fst (saveToMongoDB noRejection
                (firstn k (addMetadata clock 0 (extractStocks rows))) db),
         Success (Report.mk 0 []))).
Proof.
  split.
  - intros page clock rej db. unfold manualScrape.
    destruct (scrapeStockData page clock rej db) as [db' result].
    cbn [fst snd]. eexists. split; [reflexivity|].
    cbn [Report.count Report.stocks]. repeat split.
    + apply firstn_le_length.
    + rewrite length_firstn. lia.
  - intros rows clock rej db k e Hrows Hk He Hn.
    unfold manualScrape, scrapeStockData.
    destruct (List.length rows <=? 5)%nat eqn:L; [apply Nat.leb_le in L; lia|].
    rewrite !saveToMongoDB_loop.
    rewrite (saveLoop_rejected rej e _ k 0 db []); try assumption.
    + reflexivity.
    + rewrite <- (length_map info_stock), addMetadata_stocks. exact Hk.
Qed.

(* ----------------------------------------------------------------- *)
(** ** Instances of the further properties *)

(** X3 on a price written with a currency and separators. *)
Lemma parseNumber_reads_numeric_characters_only_price :
  filterStr isNumeric "NGN 1,234.50" = filterStr isNumeric "1234.50" /\
  parseNumber (Some "NGN 1,234.50") = parseNumber (Some "1234.50").
Proof.
  split; [reflexivity|].
  apply (parseNumber_reads_numeric_characters_only "NGN 1,234.50" "1234.50").
  reflexivity.
Defined.

(** X4 on the same price. *)
Lemma parseNumber_without_minus_is_not_negative_price :
  allStr (fun c => negb (Ascii.eqb c "-")) "NGN 1,234.50" = true /\
  num_lt (parseNumber (Some "NGN 1,234.50")) pos_zero = false.
Proof.
  split; [reflexivity|].
  apply (parseNumber_without_minus_is_not_negative "NGN 1,234.50").
  reflexivity.
Defined.

(** X10 on the collection a scrape of the sample page builds. *)
Lemma store_keys_are_unique_scraped :
  scraped scrapedStore /\
  NoDup (map _id scrapedStore) /\ NoDup (map symbol scrapedStore).
Proof.
  assert (S : scraped scrapedStore)
    by exact (scraped_cycle (Ok sampleRows) sampleClock noRejection [] scraped_empty).
  split; [exact S|].
  destruct (store_keys_are_unique scrapedStore (or_intror S)) as (Hi & Hs & _).
  now split.
Defined.

(** X11 on a batch that quotes AAA twice and then BBB. *)
Lemma batch_last_write_wins_sample :
  (forall x, In x [otherQuote] -> keyOf x <> keyOf laterQuote) /\
  exists d,
    findOne "AAA"
      (fst (saveToMongoDB noRejection [firstQuote; laterQuote; otherQuote] []))
      = Some d /\
    close d = num_of_Z 12 /\ scrapedAt d = 2000.
Proof.
  assert (H : forall x, In x [otherQuote] -> keyOf x <> keyOf laterQuote).
  { intros x [<-|[]]. vm_compute. discriminate. }
  split; [exact H|].
  destruct (batch_last_write_wins [firstQuote] [otherQuote] laterQuote [] H)
    as (d & Hf & _ & Hc & _ & Ht).
  exists d. split; [|split; [exact Hc|exact Ht]].
  rewrite <- Hf. apply findOne_ext. vm_compute. reflexivity.
Defined.

(** X13 on a scrape of the sample page. *)
Lemma scrape_returns_one_document_per_record_sample :
  (5 < List.length sampleRows)%nat /\
  map scrapedAt (snd (scrapeStockData (Ok sampleRows) sampleClock noRejection []))
  = map sampleClock (seq 0 (List.length (extractStocks sampleRows))) /\
  List.length (snd (scrapeStockData (Ok sampleRows) sampleClock noRejection []))
  = List.length (extractStocks sampleRows).
Proof.
  assert (H : (5 < List.length sampleRows)%nat) by (simpl; lia).
  split; [exact H|].
  destruct (scrape_returns_one_document_per_record sampleRows sampleClock [] H)
    as (_ & Ht & Hl).
  split; [exact Ht|exact Hl].
Defined.

(** X14 on the first quote of the sample page, asked for in lower case. *)
Lemma lookup_after_scrape_zenith :
  (5 < List.length sampleRows)%nat /\
  In zenithRecord (extractStocks sampleRows) /\
  toUpperCase "zenith" = Raw.symbol zenithRecord /\
  exists d,
    getBySymbol "zenith" scrapedStore = Success d /\ symbol d = "ZENITH".
Proof.
  assert (H : (5 < List.length sampleRows)%nat) by (simpl; lia).
  assert (I : In zenithRecord (extractStocks sampleRows))
    by (vm_compute; left; reflexivity).
  assert (U : toUpperCase "zenith" = Raw.symbol zenithRecord) by reflexivity.
  split; [exact H|]. split; [exact I|]. split; [exact U|].
  destruct (lookup_after_scrape sampleRows sampleClock [] zenithRecord "zenith"
              H I U) as (d & _ & _ & _ & Hg & Hs & _).
  exists d. split; [exact Hg|exact Hs].
Defined.

(** X15 on the three sample stocks, with a limit of five. *)
Lemma findLatest_on_saved_store_sample :
  written sampleStore /\ 0 < 5 /\
  exists out, findLatest 5 sampleStore = Ok out /\ Permutation out sampleStore.
Proof.
  assert (W : written sampleStore)
    by exact (written_save noRejection sampleBatch [] written_empty).
  assert (L : 0 < 5) by lia.
  split; [exact W|]. split; [exact L|].
  destruct (findLatest_on_saved_store 5 sampleStore W L) as (out & Ho & _ & _ & Hp).
  exists out. split; [exact Ho|]. apply Hp. simpl. lia.
Defined.

(** X16 on the history of AAA, without dates, with the default limit. *)
Lemma history_newest_first_sample :
  cursor_regular (cursor sampleRuntime) /\
  historyRange sampleRuntime None None = Ok (None, None) /\
  num_to_Z (ToNumber (limitOr None 100)) = Some 100 /\
  exists body,
    getHistory sampleRuntime "aaa" None None None sampleStore = Success body /\
    (List.length (Counted.data body) <= 1)%nat.
Proof.
  assert (N : num_to_Z (ToNumber (limitOr None 100)) = Some 100)
    by (vm_compute; reflexivity).
  split; [exact strictCursor_regular|]. split; [reflexivity|]. split; [exact N|].
  destruct (history_newest_first sampleRuntime "aaa" None None None sampleStore
              (None, None) 100 strictCursor_regular eq_refl N ltac:(lia))
    as (body & Hb & _ & _ & _ & _ & Hone).
  exists body. split; [exact Hb|]. apply Hone.
  exact (written_save noRejection sampleBatch [] written_empty).
Defined.

(** X18 on the three sample stocks, with the default limit. *)
Lemma active_by_volume_sample :
  cursor_regular (cursor sampleRuntime) /\
  num_to_Z (ToNumber (limitOr None 10)) = Some 10 /\
  exists body,
    getActive sampleRuntime None sampleStore = Success body /\
    Counted.count body = List.length (Counted.data body).
Proof.
  assert (N : num_to_Z (ToNumber (limitOr None 10)) = Some 10)
    by (vm_compute; reflexivity).
  split; [exact strictCursor_regular|]. split; [exact N|].
  destruct (active_by_volume sampleRuntime None sampleStore 10
              strictCursor_regular N ltac:(lia)) as (body & Hb & Hc & _).
  exists body. now split.
Defined.

(** X19 on the second page of one document. *)
Lemma listing_page_content_second_page :
  cursor_regular (cursor sampleRuntime) /\
  buildQuery sampleRuntime secondPage = Ok (mkFilter None None None None None None) /\
  num_to_Z (ToNumber (limitValue secondPage)) = Some 1 /\
  num_to_Z (skipOf secondPage) = Some 1 /\
  exists listing,
    listStocks sampleRuntime secondPage sampleStore = Success listing /\
    Z.of_nat (List.length (data listing))
      = Z.min 1 (Z.max 0 (total (pagination listing) - 1)).
Proof.
  assert (N : num_to_Z (ToNumber (limitValue secondPage)) = Some 1)
    by (vm_compute; reflexivity).
  assert (K : num_to_Z (skipOf secondPage) = Some 1) by (vm_compute; reflexivity).
  split; [exact strictCursor_regular|]. split; [reflexivity|].
  split; [exact N|]. split; [exact K|].
  destruct (listing_page_content sampleRuntime secondPage sampleStore
              (mkFilter None None None None None None) 1 1
              strictCursor_regular eq_refl N ltac:(lia) K ltac:(lia))
    as (listing & Hl & _ & Hlen & _).
  exists listing. now split.
Defined.

(** X20 on the first two pages of one document, by descending close: the
    three sample stocks close at 10, 20 and 30. *)
Lemma listing_consecutive_pages_sample :
  cursor_regular (cursor sampleRuntime) /\
  sameFilters firstPage secondPage /\
  num_to_Z (skipOf firstPage) = Some 0 /\
  num_to_Z (skipOf secondPage) = Some (0 + 1) /\
  (forall d d',
      In d sampleStore -> In d' sampleStore ->
      compareField (sortField firstPage) d d' = Eq -> d = d') /\
  exists listing listing',
    listStocks sampleRuntime firstPage sampleStore = Success listing /\
    listStocks sampleRuntime secondPage sampleStore = Success listing' /\
    map symbol (data listing ++ data listing') = ["CCC"; "BBB"].
Proof.
  assert (S : sameFilters firstPage secondPage) by (repeat split).
  assert (N : num_to_Z (ToNumber (limitValue firstPage)) = Some 1)
    by (vm_compute; reflexivity).
  assert (N' : num_to_Z (ToNumber (limitValue secondPage)) = Some 1)
    by (vm_compute; reflexivity).
  assert (K : num_to_Z (skipOf firstPage) = Some 0) by (vm_compute; reflexivity).
  assert (K' : num_to_Z (skipOf secondPage) = Some (0 + 1))
    by (vm_compute; reflexivity).
  assert (T : forall d d',
             In d sampleStore -> In d' sampleStore ->
             compareField (sortField firstPage) d d' = Eq -> d = d').
  { intros d d' Hd Hd'. vm_compute in Hd, Hd'.
    destruct Hd as [<-|[<-|[<-|[]]]], Hd' as [<-|[<-|[<-|[]]]];
      vm_compute; intro E; (reflexivity || discriminate E). }
  split; [exact strictCursor_regular|]. split; [exact S|].
  split; [exact K|]. split; [exact K'|]. split; [exact T|].
  destruct (listing_consecutive_pages sampleRuntime firstPage secondPage
              sampleStore (mkFilter None None None None None None) 1 0
              strictCursor_regular S eq_refl eq_refl eq_refl N N' ltac:(lia)
              K ltac:(lia) K' (fun d d' Hd Hd' _ _ => T d d' Hd Hd'))
    as (l1 & l2 & H1 & H2 & Hd & _).
  exists l1, l2. split; [exact H1|]. split; [exact H2|].
  rewrite Hd. vm_compute. reflexivity.
Defined.
